(** * tinyhist: a 32-byte adaptive histogram (src/tinyhist.c)

    A shallow embedding of the C code of the tinyhist PostgreSQL extension,
    and the properties of its bit-field codec, range/sample controller,
    accumulator, merger and text/binary encodings. *)

From Stdlib Require Import ZArith Lia QArith String Ascii Bool DecimalString.
From Stdlib Require DecimalPos.
From stdpp Require Import base tactics option list numbers.

Local Open Scope Z_scope.

(** ** Outcome of running a piece of the C code

    [Ok a asserts] is a normal return of [a]; the value is the one a build
    without assertion checking computes, and [asserts] tells whether every
    [Assert()] met on the way held (it is [false] where a build with
    assertion checking would have trapped).  [Raise msg] is an
    [elog(ERROR, msg)] exit.  [OutOfFuel] is a [while] loop that was still
    running when the iteration budget of the model ran out. *)

Inductive result (A : Type) : Type :=
| Ok (a : A) (asserts : bool)
| Raise (msg : string)
| OutOfFuel.

Arguments Ok {A} a asserts.
Arguments Raise {A} msg.
Arguments OutOfFuel {A}.

#[global] Instance result_ret : MRet result := fun A a => Ok a true.

#[global] Instance result_bind : MBind result := fun A B f m =>
  match m with
  | Ok a ok =>
      match f a with
      | Ok b ok' => Ok b (ok && ok')
      | Raise msg => Raise msg
      | OutOfFuel => OutOfFuel
      end
  | Raise msg => Raise msg
  | OutOfFuel => OutOfFuel
  end.

(** [Assert(cond)] of PostgreSQL's c.h. *)
Definition Assert (cond : bool) : result Datatypes.unit := Ok tt cond.

(** [for (int i = lo; i < hi; i++) body] runs [body] on [for_range lo hi]. *)
Definition for_range (lo hi : Z) : list Z := seqZ lo (hi - lo).

Fixpoint for_each {S : Type} (l : list Z) (body : Z -> S -> result S) (s : S) : result S :=
  match l with
  | [] => mret s
  | i :: l' => s' ← body i s; for_each l' body s'
  end.

(** ** Values of type [double]

    The code only compares a [double] with integers below [2^53], which
    convert exactly; a finite double is the rational it denotes. *)
Inductive float8 : Type :=
| Finite (q : Q)
| PosInf
| NegInf
| NaN.

(** [(double) z < v] and [(double) z >= v] *)
Definition int64_lt_float8 (z : Z) (v : float8) : bool :=
  match v with
  | Finite q => negb (Qle_bool q (inject_Z z))
  | PosInf => true
  | NegInf => false
  | NaN => false
  end.

Definition int64_ge_float8 (z : Z) (v : float8) : bool :=
  match v with
  | Finite q => Qle_bool q (inject_Z z)
  | PosInf => false
  | NegInf => true
  | NaN => false
  end.

(** ** Data model (tinyhist.c, lines 25-35) *)

Definition HISTOGRAM_BUCKETS : Z := 16.

Definition bucket_bits : list Z :=
  [8; 9; 10; 11; 12; 13; 14; 15; 16; 17; 18; 19; 20; 21; 22; 23].

Definition bucket_offset : list Z :=
  [0; 8; 17; 27; 38; 50; 63; 77; 92; 108; 125; 143; 162; 182; 203; 225].

(** [sample] and [unit] are the two 4-bit bit-fields, [data] the 31 bytes. *)
Record tinyhist_t : Type := mk_tinyhist {
  sample : Z;
  unit : Z;
  data : list Z
}.

(** Storing an [int] into a [uint8] object, resp. into a 4-bit bit-field. *)
Definition uint8 (x : Z) : Z := x mod 256.
Definition uint4 (x : Z) : Z := x mod 16.

Definition set_data (hist : tinyhist_t) (d : list Z) : tinyhist_t :=
  {| sample := sample hist; unit := unit hist; data := d |}.

Definition set_sample (hist : tinyhist_t) (s : Z) : tinyhist_t :=
  {| sample := s; unit := unit hist; data := data hist |}.

Definition set_unit (hist : tinyhist_t) (u : Z) : tinyhist_t :=
  {| sample := sample hist; unit := u; data := data hist |}.

(** [palloc0(sizeof(tinyhist_t))] *)
Definition palloc0_tinyhist : tinyhist_t :=
  {| sample := 0; unit := 0; data := replicate 31 0 |}.

(** A value of the C type: both exponents fit 4 bits, 31 bytes of data. *)
Definition valid_hist (hist : tinyhist_t) : Prop :=
  0 <= sample hist < 16 /\ 0 <= unit hist < 16 /\
  length (data hist) = 31%nat /\ Forall (fun b => 0 <= b < 256) (data hist).

(** ** BitField codec (lines 70-125) *)

(** The body of the loops of [bucket_get] and [bucket_set] addresses bit
    [bit] of byte [byte]; C's [/] and [%] on [int] are [Z.quot], [Z.rem]. *)
Definition bucket_get (hist : tinyhist_t) (bucket : Z) : Z :=
  let nbits := bucket_bits !!! Z.to_nat bucket in
  let offset := bucket_offset !!! Z.to_nat bucket in
  foldl (fun value i =>
           let byte := (offset + i) ÷ 8 in
           let bit := Z.rem (offset + i) 8 in
           if negb (Z.land (data hist !!! Z.to_nat byte) (Z.shiftl 1 bit) =? 0)
           then Z.lor value (Z.shiftl 1 i)
           else value)
        0 (seqZ 0 nbits).

Definition bucket_set (hist : tinyhist_t) (bucket count : Z) : result tinyhist_t :=
  let nbits := bucket_bits !!! Z.to_nat bucket in
  let offset := bucket_offset !!! Z.to_nat bucket in
  Assert ((0 <=? bucket) && (bucket <? HISTOGRAM_BUCKETS));;
  Assert (count <? Z.shiftl 1 nbits);;
  mret (foldl (fun h i =>
                 let byte := (offset + i) ÷ 8 in
                 let bit := Z.rem (offset + i) 8 in
                 let old := data h !!! Z.to_nat byte in
                 (* set or reset the bit (to overwrite the current value) *)
                 if negb (Z.land count (Z.shiftl 1 i) =? 0)
                 then set_data h (<[Z.to_nat byte := uint8 (Z.lor old (Z.shiftl 1 bit))]> (data h))
                 else set_data h (<[Z.to_nat byte := uint8 (Z.land old (Z.lnot (Z.shiftl 1 bit)))]> (data h)))
              hist (seqZ 0 nbits)).

Definition bucket_maxcount (bucket : Z) : Z :=
  Z.shiftl 1 (bucket_bits !!! Z.to_nat bucket) - 1.

(** Upper boundary of the last histogram bucket. *)
Definition hist_maxvalue (hist : tinyhist_t) : Z :=
  Z.shiftl 1 (unit hist) * Z.shiftl 1 (HISTOGRAM_BUCKETS - 1).


(** ** Range/sample controller (lines 146-267) *)

(** reduce the sampling frequency (to 1/2 of the current value) *)
Definition hist_adjust_sample (hist : tinyhist_t) : result tinyhist_t :=
  (* cut all buckets in half *)
  hist ← for_each (for_range 0 HISTOGRAM_BUCKETS)
           (fun i hist =>
              let cnt := bucket_get hist i in
              bucket_set hist i (cnt ÷ 2))
           hist;
  (* divide the sample rate by 2: hist->sample++ on the 4-bit field *)
  mret (set_sample hist (uint4 (sample hist + 1))).

Definition hist_adjust_unit (hist : tinyhist_t) : result tinyhist_t :=
  hist ← bucket_set hist 0 (bucket_get hist 0 + bucket_get hist 1);
  hist ← for_each (for_range 1 (HISTOGRAM_BUCKETS - 1))
           (fun i hist => bucket_set hist i (bucket_get hist (i + 1)))
           hist;
  hist ← bucket_set hist (HISTOGRAM_BUCKETS - 1) 0;
  (* hist->unit++ on the 4-bit field *)
  mret (set_unit hist (uint4 (unit hist + 1))).

(** The inner [while (true)] of [hist_adjust_range]: halve the counts until
    the first two buckets can be merged and the others shifted. *)
Fixpoint hist_adjust_range_sample (fuel : nat) (hist : tinyhist_t) : result tinyhist_t :=
  match fuel with
  | O => OutOfFuel
  | S fuel =>
      let adjust_sample := false in
      (* Can we merge the first two buckets? *)
      let adjust_sample :=
        if bucket_get hist 0 + bucket_get hist 1 >=? bucket_maxcount 0
        then true else adjust_sample in
      (* Can we shift the remaining buckets? *)
      let adjust_sample :=
        foldl (fun adjust_sample i =>
                 if bucket_get hist (i + 1) >=? bucket_maxcount i
                 then true else adjust_sample)
              adjust_sample (for_range 1 (HISTOGRAM_BUCKETS - 1)) in
      (* don't need to adjust the sampling rate, we're done *)
      if negb adjust_sample then mret hist
      else
        hist ← hist_adjust_sample hist;
        hist_adjust_range_sample fuel hist
  end.

(** repeat until the histogram can accept the value *)
Fixpoint hist_adjust_range (fuel : nat) (hist : tinyhist_t) (value : float8) : result tinyhist_t :=
  match fuel with
  | O => OutOfFuel
  | S fuel =>
      if int64_lt_float8 (hist_maxvalue hist) value then
        hist ← hist_adjust_range_sample fuel hist;
        hist ← hist_adjust_unit hist;
        hist_adjust_range fuel hist value
      else mret hist
  end.

(** The loop [while ((1 << idx) * unit < value) idx++] of [bucket_index].
    ([1 << idx] is an [int]: the shift is defined for [idx < 31] only, and
    the asserted precondition keeps [idx] below 16.) *)
Fixpoint bucket_index_loop (fuel : nat) (unit : Z) (value : float8) (idx : Z) : result Z :=
  match fuel with
  | O => OutOfFuel
  | S fuel =>
      if int64_lt_float8 (Z.shiftl 1 idx * unit) value
      then bucket_index_loop fuel unit value (idx + 1)
      else mret idx
  end.

Definition bucket_index (fuel : nat) (hist : tinyhist_t) (value : float8) : result Z :=
  let unit := Z.shiftl 1 (unit hist) in
  Assert (int64_ge_float8 (hist_maxvalue hist) value);;
  idx ← bucket_index_loop fuel unit value 0;
  Assert (idx <? HISTOGRAM_BUCKETS);;
  mret idx.

(** [hist_sample], with [r] the number that [random()] returns:
    sample if the lowest [hist->sample] bits are 0. *)
Definition hist_sample (hist : tinyhist_t) (r : Z) : bool :=
  let s := Z.shiftl 1 (sample hist) - 1 in
  Z.land r s =? 0.

(** ** Accumulator (lines 273-472) *)

(** The block [if (hist_sample(state)) { ... }] that [tinyhist_accum],
    [tinyhist_add] and [tinyhist_add_array] share. *)
Definition accum_value (fuel : nat) (state : tinyhist_t) (value : float8) (r : Z)
  : result tinyhist_t :=
  if hist_sample state r then
    (* if needed, increase the range covered by the histogram *)
    state ← hist_adjust_range fuel state value;
    bucket ← bucket_index fuel state value;
    (* if the bucket is already full, reduce the sampling rate *)
    state ← (if bucket_get state bucket =? bucket_maxcount bucket
             then hist_adjust_sample state
             else mret state);
    (* increment the bucket *)
    bucket_set state bucket (bucket_get state bucket + 1)
  else mret state.

(** [aggcontext] is the answer of [AggCheckCallContext]; a NULL argument is
    [None]. *)
Definition tinyhist_accum (fuel : nat) (aggcontext : bool)
    (arg0 : option tinyhist_t) (arg1 : option float8) (r : Z)
  : result (option tinyhist_t) :=
  if negb aggcontext then Raise "tinyhist_add called in non-aggregate context"
  else
    match arg1 with
    | None => mret arg0
    | Some value =>
        let state := match arg0 with
                     | None => palloc0_tinyhist
                     | Some state => state
                     end in
        state ← accum_value fuel state value r;
        mret (Some state)
    end.

Definition tinyhist_add (fuel : nat)
    (arg0 : option tinyhist_t) (arg1 : option float8) (r : Z)
  : result (option tinyhist_t) :=
  match arg1 with
  | None => mret arg0
  | Some value =>
      (* palloc0, then memcpy of the argument when there is one *)
      let state := match arg0 with
                   | None => palloc0_tinyhist
                   | Some state => state
                   end in
      state ← accum_value fuel state value r;
      mret (Some state)
  end.

(** The array is the list of its elements ([None] for a NULL element), each
    with the [random()] draw that is made when the element is not NULL. *)
Fixpoint tinyhist_add_array_loop (fuel : nat) (state : tinyhist_t)
    (elements : list (option float8 * Z)) : result tinyhist_t :=
  match elements with
  | [] => mret state
  | (None, _) :: rest => tinyhist_add_array_loop fuel state rest
  | (Some value, r) :: rest =>
      state ← accum_value fuel state value r;
      tinyhist_add_array_loop fuel state rest
  end.

Definition tinyhist_add_array (fuel : nat)
    (arg0 : option tinyhist_t) (arg1 : option (list (option float8 * Z)))
  : result (option tinyhist_t) :=
  match arg1 with
  | None => mret arg0
  | Some elements =>
      let state := match arg0 with
                   | None => palloc0_tinyhist
                   | Some state => state
                   end in
      state ← tinyhist_add_array_loop fuel state elements;
      mret (Some state)
  end.

(** ** Merger (lines 567-664) *)

(** [while (hist->sample < sample) hist_adjust_sample(hist);] *)
Fixpoint combine_raise_sample (fuel : nat) (hist : tinyhist_t) (sample_ : Z) : result tinyhist_t :=
  match fuel with
  | O => OutOfFuel
  | S fuel =>
      if sample hist <? sample_ then
        hist ← hist_adjust_sample hist;
        combine_raise_sample fuel hist sample_
      else mret hist
  end.

(** [while (hist->unit < unit) hist_adjust_unit(hist);] *)
Fixpoint combine_raise_unit (fuel : nat) (hist : tinyhist_t) (unit_ : Z) : result tinyhist_t :=
  match fuel with
  | O => OutOfFuel
  | S fuel =>
      if unit hist <? unit_ then
        hist ← hist_adjust_unit hist;
        combine_raise_unit fuel hist unit_
      else mret hist
  end.

(** Lines 611-617: both histograms get the larger sample rate. *)
Definition combine_equalize_sample (fuel : nat) (src dst : tinyhist_t)
  : result (tinyhist_t * tinyhist_t) :=
  let sample_ := Z.max (sample src) (sample dst) in
  src ← combine_raise_sample fuel src sample_;
  dst ← combine_raise_sample fuel dst sample_;
  mret (src, dst).

(** Lines 619-628: both histograms get the larger unit. *)
Definition combine_equalize_unit (fuel : nat) (src dst : tinyhist_t)
  : result (tinyhist_t * tinyhist_t) :=
  let unit_ := Z.max (unit src) (unit dst) in
  src ← combine_raise_unit fuel src unit_;
  dst ← combine_raise_unit fuel dst unit_;
  Assert (sample src =? sample dst);;
  Assert (unit src =? unit dst);;
  mret (src, dst).

(** Lines 634-653: if some sum does not fit, adjust the sample once more. *)
Definition combine_check (src dst : tinyhist_t) : result (tinyhist_t * tinyhist_t) :=
  let adjust_sample :=
    existsb (fun i =>
               let cnt := bucket_get src i + bucket_get dst i in
               cnt >? bucket_maxcount i)
            (for_range 0 HISTOGRAM_BUCKETS) in
  if adjust_sample then
    src ← hist_adjust_sample src;
    dst ← hist_adjust_sample dst;
    mret (src, dst)
  else mret (src, dst).

(** Lines 656-661: OK, time to do the merge. *)
Definition combine_merge (src dst : tinyhist_t) : result tinyhist_t :=
  for_each (for_range 0 HISTOGRAM_BUCKETS)
    (fun i dst =>
       let cnt := bucket_get src i + bucket_get dst i in
       bucket_set dst i cnt)
    dst.

Definition tinyhist_combine (fuel : nat) (aggcontext : bool)
    (arg0 : option tinyhist_t) (src : tinyhist_t) : result tinyhist_t :=
  if negb aggcontext then Raise "tinyhist_combine called in non-aggregate context"
  else
    match arg0 with
    | None => mret src   (* a copy of the second argument *)
    | Some dst =>
        '(src, dst) ← combine_equalize_sample fuel src dst;
        '(src, dst) ← combine_equalize_unit fuel src dst;
        '(src, dst) ← combine_check src dst;
        combine_merge src dst
    end.

(** ** Binary representation (lines 531-565) *)

(** libpq's [pq_sendbyte] appends one byte to the message; [pq_getmsgbyte]
    takes the next one, and raises an error when there is none left. *)
Definition pq_sendbyte (buf : list Z) (byt : Z) : list Z := buf ++ [uint8 byt].

Definition pq_getmsgbyte (buf : list Z) : result (Z * list Z) :=
  match buf with
  | [] => Raise "no data left in message"
  | b :: rest => mret (b, rest)
  end.

(** The payload of the [bytea] that [tinyhist_send] returns. *)
Definition tinyhist_send (hist : tinyhist_t) : list Z :=
  let buf := [] in
  let buf := pq_sendbyte buf (sample hist) in
  foldl (fun buf i => pq_sendbyte buf (bucket_get hist i))
        buf (for_range 0 HISTOGRAM_BUCKETS).

Definition tinyhist_recv (buf : list Z) : result tinyhist_t :=
  let hist := palloc0_tinyhist in
  '(b, buf) ← pq_getmsgbyte buf;
  let hist := set_sample hist (uint4 b) in
  '(hist, _) ← for_each (for_range 0 HISTOGRAM_BUCKETS)
                 (fun i '(hist, buf) =>
                    '(b, buf) ← pq_getmsgbyte buf;
                    hist ← bucket_set hist i b;
                    mret (hist, buf))
                 (hist, buf);
  mret hist.

(** ** Text representation (lines 474-529) *)

(** The format of [tinyhist_in] and [tinyhist_out] (two adjacent literals). *)
Definition tinyhist_format : string :=
  "{%hhu, %hhu, %d, %d, %d, %d, %d, %d, %d, %d, " ++
  "%d, %d, %d, %d, %d, %d, %d, %d}".

(** The directives of a format: an ordinary character, white space, and the
    two conversion specifications the code uses. *)
Inductive directive : Type :=
| D_char (c : ascii)
| D_space (c : ascii)
| D_hhu
| D_d.

Definition is_conversion (d : directive) : bool :=
  match d with
  | D_hhu | D_d => true
  | _ => false
  end.

Definition isspace (c : ascii) : bool :=
  let n := Z.of_nat (nat_of_ascii c) in
  (n =? 32) || ((9 <=? n) && (n <=? 13)).

Definition isdigit (c : ascii) : bool :=
  let n := Z.of_nat (nat_of_ascii c) in
  (48 <=? n) && (n <=? 57).

Fixpoint parse_format (fmt : list ascii) : list directive :=
  match fmt with
  | [] => []
  | c :: rest =>
      if Ascii.eqb c "%" then
        match rest with
        | c1 :: rest1 =>
            if Ascii.eqb c1 "d" then D_d :: parse_format rest1
            else
              match rest1 with
              | c2 :: c3 :: rest3 =>
                  if Ascii.eqb c1 "h" && Ascii.eqb c2 "h" && Ascii.eqb c3 "u"
                  then D_hhu :: parse_format rest3
                  else []
              | _ => []
              end
        | [] => []
        end
      else if isspace c then D_space c :: parse_format rest
      else D_char c :: parse_format rest
  end.

Fixpoint skip_space (s : list ascii) : list ascii :=
  match s with
  | c :: s' => if isspace c then skip_space s' else s
  | [] => []
  end.

Fixpoint scan_digits (s : list ascii) (acc : Z) : Z * list ascii :=
  match s with
  | c :: s' =>
      if isdigit c
      then scan_digits s' (10 * acc + (Z.of_nat (nat_of_ascii c) - 48))
      else (acc, s)
  | [] => (acc, [])
  end.

(** How a directive of [sscanf] fails: the input ended, or it does not match. *)
Inductive scan_failure : Type :=
| input_failure
| matching_failure.

(** An integer conversion: white space is skipped, then an optional sign and
    a nonempty sequence of decimal digits are read. *)
Definition scan_integer (s : list ascii) : scan_failure + Z * list ascii :=
  match skip_space s with
  | [] => inl input_failure
  | c :: s' =>
      let '(negative, s1) :=
        if Ascii.eqb c "-" then (true, s')
        else if Ascii.eqb c "+" then (false, s')
        else (false, c :: s') in
      match s1 with
      | [] => inl input_failure
      | d :: _ =>
          if isdigit d then
            let '(v, rest) := scan_digits s1 0 in
            inr (if negative then - v else v, rest)
          else inl matching_failure
      end
  end.

(** Storing into an [int] object. *)
Definition int32 (x : Z) : Z := (x + 2 ^ 31) mod 2 ^ 32 - 2 ^ 31.

(** The directives are run in turn until one fails; [args] are the values
    assigned so far, the flag tells whether the input ended. *)
Fixpoint scan (ds : list directive) (s : list ascii) (args : list Z) : list Z * bool :=
  match ds with
  | [] => (args, false)
  | D_space _ :: ds' => scan ds' (skip_space s) args
  | D_char c :: ds' =>
      match s with
      | [] => (args, true)
      | c' :: s' => if Ascii.eqb c c' then scan ds' s' args else (args, false)
      end
  | D_hhu :: ds' =>
      match scan_integer s with
      | inr (v, s') => scan ds' s' (args ++ [uint8 v])
      | inl input_failure => (args, true)
      | inl matching_failure => (args, false)
      end
  | D_d :: ds' =>
      match scan_integer s with
      | inr (v, s') => scan ds' s' (args ++ [int32 v])
      | inl input_failure => (args, true)
      | inl matching_failure => (args, false)
      end
  end.

Definition EOF : Z := -1.

(** [sscanf(str, fmt, ...)]: the number of input items assigned (or [EOF] if
    the input ends before the first conversion), and the items. *)
Definition sscanf (str fmt : string) : Z * list Z :=
  let '(args, ended) :=
    scan (parse_format (list_ascii_of_string fmt)) (list_ascii_of_string str) [] in
  (if ended && (Z.of_nat (length args) =? 0) then EOF else Z.of_nat (length args),
   args).

(** [appendStringInfo(&str, fmt, ...)] on an empty [str]. *)
Fixpoint format_directives (ds : list directive) (args : list Z) : string :=
  match ds with
  | [] => ""
  | D_char c :: ds' => String c (format_directives ds' args)
  | D_space c :: ds' => String c (format_directives ds' args)
  | D_hhu :: ds' =>
      match args with
      | a :: args' => NilZero.string_of_int (Z.to_int (uint8 a)) ++ format_directives ds' args'
      | [] => ""
      end
  | D_d :: ds' =>
      match args with
      | a :: args' => NilZero.string_of_int (Z.to_int a) ++ format_directives ds' args'
      | [] => ""
      end
  end.

Definition appendStringInfo (fmt : string) (args : list Z) : string :=
  format_directives (parse_format (list_ascii_of_string fmt)) args.

(** The items that [sscanf] did not assign are uninitialised in C; the
    code reads them only after [r] passed the test. *)
Definition tinyhist_in (str : string) : result tinyhist_t :=
  let hist := palloc0_tinyhist in
  let '(r, args) := sscanf str tinyhist_format in
  let sample_ := args !!! 0%nat in
  let unit_ := args !!! 1%nat in
  let buckets_ := drop 2 args in
  if negb (r =? 32) then Raise "failed to parse tinyhist value"
  else
    let hist := set_sample hist (uint4 sample_) in
    let hist := set_unit hist (uint4 unit_) in
    for_each (for_range 0 HISTOGRAM_BUCKETS)
      (fun i hist => bucket_set hist i (buckets_ !!! Z.to_nat i))
      hist.

Definition tinyhist_out (hist : tinyhist_t) : string :=
  let buckets_ := bucket_get hist <$> for_range 0 HISTOGRAM_BUCKETS in
  appendStringInfo tinyhist_format (sample hist :: unit hist :: buckets_).

(** ** Concrete histograms used below *)

(** Buckets 0 and 1 hold 200 each (bucket 0 is byte 0, bucket 1 starts at
    byte 1), everything else is zero. *)
Definition hist_200_200 : tinyhist_t :=
  {| sample := 0; unit := 0; data := 200 :: 200 :: replicate 29 0 |}.

(** The same counters at the largest sample exponent; it is what
    [tinyhist_recv] builds from the message [15, 200, 200, 0, ..., 0]. *)
Definition hist_sample15 : tinyhist_t :=
  {| sample := 15; unit := 0; data := 200 :: 200 :: replicate 29 0 |}.

(** ** Bit-level view of the data buffer, used to reason about the codec *)

(** Bit [p] of the buffer, counting from bit 0 of byte 0. *)
Definition getbit (d : list Z) (p : Z) : bool :=
  Z.testbit (d !!! Z.to_nat (p / 8)) (p mod 8).

(** One iteration of the loop of [bucket_set], writing [b] at position [p]. *)
Definition putbit (d : list Z) (p : Z) (b : bool) : list Z :=
  let old := d !!! Z.to_nat (p / 8) in
  <[Z.to_nat (p / 8) :=
      uint8 (if b then Z.lor old (Z.shiftl 1 (p mod 8))
             else Z.land old (Z.lnot (Z.shiftl 1 (p mod 8))))]> d.

(** The low [n] bits of [count] written at positions [off], [off+1], ... *)
Definition write_bits (d : list Z) (off n count : Z) : list Z :=
  foldl (fun d i => putbit d (off + i) (Z.testbit count i)) d (seqZ 0 n).

(** The loop of [bucket_get]: [n] bits read from position [off] on. *)
Definition read_bits (d : list Z) (off n : Z) : Z :=
  foldl (fun value i => if getbit d (off + i) then Z.lor value (Z.shiftl 1 i) else value)
        0 (seqZ 0 n).

(** The decoded counters, in index order. *)
Definition buckets (hist : tinyhist_t) : list Z :=
  bucket_get hist <$> seqZ 0 HISTOGRAM_BUCKETS.

(** ** Predicates and drivers used in the statements *)

(** No write of [hist_adjust_unit] exceeds the capacity of its bucket. *)
Definition unit_shift_fits (hist : tinyhist_t) : Prop :=
  bucket_get hist 0 + bucket_get hist 1 < 2 ^ 8 /\
  forall i, 1 <= i <= 14 -> bucket_get hist (i + 1) < 2 ^ (bucket_bits !!! Z.to_nat i).

(** The test of the inner loop of [hist_adjust_range]. *)
Definition needs_sample_adjust (hist : tinyhist_t) : bool :=
  foldl (fun adjust_sample i =>
           if bucket_get hist (i + 1) >=? bucket_maxcount i
           then true else adjust_sample)
        (if bucket_get hist 0 + bucket_get hist 1 >=? bucket_maxcount 0
         then true else false)
        (for_range 1 (HISTOGRAM_BUCKETS - 1)).

(** The bounds that [tinyhist_buckets] reports for bucket [i] (lines 757-761,
    with [call_cntr = i]). *)
Definition bucket_lower (hist : tinyhist_t) (i : Z) : Z :=
  if i >? 0 then Z.shiftl 1 (unit hist + (i - 1)) else 0.

Definition bucket_upper (hist : tinyhist_t) (i : Z) : Z :=
  Z.shiftl 1 (unit hist + i).

(** The aggregate calls the transition function once per input row, starting
    from a NULL state; here every [random()] draw is 0, so every value is
    sampled whatever the sample rate. *)
Fixpoint accumulate (fuel : nat) (state : option tinyhist_t) (values : list float8)
  : result (option tinyhist_t) :=
  match values with
  | [] => mret state
  | value :: rest =>
      state ← tinyhist_accum fuel true state (Some value) 0;
      accumulate fuel state rest
  end.

(** ** Reporting (lines 666-788) *)

(** The row that [tinyhist_info] returns: the columns [hist_unit],
    [hist_sample], [hist_count] and [hist_upper]. *)
Definition tinyhist_info (hist : tinyhist_t) : Z * Z * Z * Z :=
  let count :=
    foldl (fun count i => count + bucket_get hist i) 0 (for_range 0 HISTOGRAM_BUCKETS) in
  (Z.shiftl 1 (unit hist), Z.shiftl 1 (sample hist), count,
   Z.shiftl 1 15 * Z.shiftl 1 (unit hist)).

(** The column [hist_count] alone. *)
Definition hist_count (hist : tinyhist_t) : Z := (tinyhist_info hist).1.2.

(** Every counter of bucket [i] is below [2^(e + i)]. *)
Definition counters_below (e : Z) (hist : tinyhist_t) : Prop :=
  forall i, 0 <= i < 16 -> bucket_get hist i < 2 ^ (e + i).

(** Calling [tinyhist_add] once per element of an array, in order: the
    element and the [random()] draw made for it. *)
Fixpoint tinyhist_add_each (fuel : nat) (state : option tinyhist_t)
    (elements : list (option float8 * Z)) : result (option tinyhist_t) :=
  match elements with
  | [] => mret state
  | (value, r) :: rest =>
      state ← tinyhist_add fuel state value r;
      tinyhist_add_each fuel state rest
  end.

(** A finite value that is not above [2^30], or a NULL. *)
Definition small_element (e : option float8 * Z) : Prop :=
  match e.1 with
  | Some (Finite q) => (q <= inject_Z (2 ^ 30))%Q
  | Some _ => False
  | None => True
  end.

(** The test of [tinyhist_combine] (lines 637-646): some sum of two
    counters exceeds the capacity of its bucket. *)
Definition combine_overflow (src dst : tinyhist_t) : bool :=
  existsb (fun i => bucket_get src i + bucket_get dst i >? bucket_maxcount i)
          (for_range 0 HISTOGRAM_BUCKETS).


(** The value of a sequence of decimal digits, most significant first,
    continuing from [acc]. *)
Fixpoint uint_acc (d : Decimal.uint) (acc : Z) : Z :=
  match d with
  | Decimal.Nil => acc
  | Decimal.D0 d => uint_acc d (10 * acc + 0)
  | Decimal.D1 d => uint_acc d (10 * acc + 1)
  | Decimal.D2 d => uint_acc d (10 * acc + 2)
  | Decimal.D3 d => uint_acc d (10 * acc + 3)
  | Decimal.D4 d => uint_acc d (10 * acc + 4)
  | Decimal.D5 d => uint_acc d (10 * acc + 5)
  | Decimal.D6 d => uint_acc d (10 * acc + 6)
  | Decimal.D7 d => uint_acc d (10 * acc + 7)
  | Decimal.D8 d => uint_acc d (10 * acc + 8)
  | Decimal.D9 d => uint_acc d (10 * acc + 9)
  end.

(** The input after a number does not go on with a digit. *)
Definition stops (rest : list ascii) : Prop :=
  match rest with
  | [] => True
  | c :: _ => isdigit c = false
  end.

(** Formats that read back what they print: white space stands before a
    conversion only, and a conversion is followed by a character that is not
    a digit, or by nothing. *)
Fixpoint printable (ds : list directive) : bool :=
  match ds with
  | [] => true
  | D_char _ :: ds' => printable ds'
  | D_space c :: ds' =>
      isspace c &&
      match ds' with
      | d :: _ => is_conversion d
      | [] => false
      end && printable ds'
  | (D_hhu | D_d) :: ds' =>
      match ds' with
      | [] => true
      | D_char c :: _ => negb (isdigit c)
      | _ => false
      end && printable ds'
  end.

(** One argument for each conversion, nonnegative and in the range of the
    type. *)
Fixpoint args_fit (ds : list directive) (args : list Z) : Prop :=
  match ds with
  | [] => args = []
  | D_hhu :: ds' =>
      match args with
      | a :: args' => 0 <= a < 2 ^ 8 /\ args_fit ds' args'
      | [] => False
      end
  | D_d :: ds' =>
      match args with
      | a :: args' => 0 <= a < 2 ^ 31 /\ args_fit ds' args'
      | [] => False
      end
  | _ :: ds' => args_fit ds' args
  end.

(** Case analysis on a bucket index. *)
Lemma bucket_index_cases (i : Z) :
  0 <= i < 16 ->
  i = 0 \/ i = 1 \/ i = 2 \/ i = 3 \/ i = 4 \/ i = 5 \/ i = 6 \/ i = 7 \/
  i = 8 \/ i = 9 \/ i = 10 \/ i = 11 \/ i = 12 \/ i = 13 \/ i = 14 \/ i = 15.
Proof. lia. Qed.

Ltac bucket_cases i H :=
  apply bucket_index_cases in H;
  destruct H as [->|[->|[->|[->|[->|[->|[->|[->|[->|[->|[->|[->|[->|[->|[->| ->]]]]]]]]]]]]]]].

Section BitField.

Lemma land_shiftl1_test (x k : Z) :
  0 <= k -> negb (Z.land x (Z.shiftl 1 k) =? 0) = Z.testbit x k.
Proof.
  intros Hk. rewrite Z.shiftl_1_l.
  destruct (Z.testbit x k) eqn:E.
  - apply negb_true_iff, Z.eqb_neq. intros H0.
    assert (Z.testbit (Z.land x (2 ^ k)) k = false) as Hf
      by (rewrite H0; apply Z.bits_0).
    rewrite Z.land_spec, E, Z.pow2_bits_true in Hf by lia. discriminate.
  - apply negb_false_iff, Z.eqb_eq, Z.bits_inj'. intros n Hn.
    rewrite Z.land_spec, Z.bits_0.
    destruct (Z.eq_dec n k) as [->|Hne].
    + now rewrite E.
    + rewrite Z.pow2_bits_false by lia. apply andb_false_r.
Qed.

Lemma testbit_uint8 (x k : Z) : 0 <= k < 8 -> Z.testbit (uint8 x) k = Z.testbit x k.
Proof.
  intros Hk. unfold uint8. change 256 with (2 ^ 8).
  apply Z.mod_pow2_bits_low. lia.
Qed.

Lemma uint8_range (x : Z) : 0 <= uint8 x < 256.
Proof. unfold uint8. apply Z.mod_pos_bound. lia. Qed.

Lemma length_putbit d p b : length (putbit d p b) = length d.
Proof. unfold putbit. apply length_insert. Qed.

Lemma getbit_putbit_ne d p q b :
  0 <= p -> 0 <= q -> p <> q -> getbit (putbit d q b) p = getbit d p.
Proof.
  intros Hp Hq Hne. unfold getbit, putbit.
  destruct (Z.eq_dec (p / 8) (q / 8)) as [He|Hd].
  - assert (p mod 8 <> q mod 8) as Hm.
    { intros Hm. apply Hne.
      rewrite (Z.div_mod p 8), (Z.div_mod q 8) by lia. congruence. }
    rewrite He.
    destruct (decide (Z.to_nat (q / 8) < length d)%nat) as [Hlt|Hge].
    + rewrite list_lookup_total_insert_eq by done.
      rewrite testbit_uint8 by (apply Z.mod_pos_bound; lia).
      assert (0 <= p mod 8 < 8) by (apply Z.mod_pos_bound; lia).
      assert (0 <= q mod 8 < 8) by (apply Z.mod_pos_bound; lia).
      destruct b.
      * rewrite Z.lor_spec, Z.shiftl_1_l, Z.pow2_bits_false by lia.
        apply orb_false_r.
      * rewrite Z.land_spec, Z.lnot_spec, Z.shiftl_1_l, Z.pow2_bits_false by lia.
        apply andb_true_r.
    + rewrite list_insert_ge by lia. done.
  - rewrite list_lookup_total_insert_ne; [done|].
    intros Heq. apply Hd. apply Z2Nat.inj in Heq; [done| |];
      apply Z.div_pos; lia.
Qed.

Lemma getbit_putbit_eq d p b :
  0 <= p -> (Z.to_nat (p / 8) < length d)%nat -> getbit (putbit d p b) p = b.
Proof.
  intros Hp Hlt. unfold getbit, putbit.
  rewrite list_lookup_total_insert_eq by done.
  assert (0 <= p mod 8 < 8) by (apply Z.mod_pos_bound; lia).
  rewrite testbit_uint8 by done.
  destruct b.
  - rewrite Z.lor_spec, Z.shiftl_1_l, Z.pow2_bits_true by lia. apply orb_true_r.
  - rewrite Z.land_spec, Z.lnot_spec, Z.shiftl_1_l, Z.pow2_bits_true by lia.
    apply andb_false_r.
Qed.

Lemma putbit_bytes d p b :
  Forall (fun x => 0 <= x < 256) d -> Forall (fun x => 0 <= x < 256) (putbit d p b).
Proof.
  intros Hd. unfold putbit.
  destruct (decide (Z.to_nat (p / 8) < length d)%nat) as [Hlt|Hge].
  - apply Forall_insert; [done|]. apply uint8_range.
  - rewrite list_insert_ge by lia. done.
Qed.

Lemma foldl_ext_in {A B} (f g : A -> B -> A) (l : list B) (a : A) :
  (forall a x, x ∈ l -> f a x = g a x) -> foldl f a l = foldl g a l.
Proof.
  revert a. induction l as [|x l IH]; intros a Hfg; [done|].
  simpl. rewrite Hfg by left. apply IH. intros a' y Hy. apply Hfg. by right.
Qed.

Lemma write_bits_S d off (k : nat) count :
  write_bits d off (Z.of_nat (S k)) count =
  putbit (write_bits d off (Z.of_nat k) count) (off + Z.of_nat k)
         (Z.testbit count (Z.of_nat k)).
Proof. unfold write_bits. rewrite seqZ_S, foldl_snoc. done. Qed.

Lemma length_write_bits d off n count :
  length (write_bits d off n count) = length d.
Proof.
  destruct (Z.le_gt_cases n 0) as [Hn|Hn].
  - unfold write_bits. by rewrite seqZ_nil.
  - rewrite <- (Z2Nat.id n) by lia. induction (Z.to_nat n) as [|k IH]; [done|].
    rewrite write_bits_S, length_putbit. done.
Qed.

Lemma write_bits_bytes d off n count :
  Forall (fun x => 0 <= x < 256) d ->
  Forall (fun x => 0 <= x < 256) (write_bits d off n count).
Proof.
  intros Hd. destruct (Z.le_gt_cases n 0) as [Hn|Hn].
  - unfold write_bits. by rewrite seqZ_nil.
  - rewrite <- (Z2Nat.id n) by lia. induction (Z.to_nat n) as [|k IH]; [done|].
    rewrite write_bits_S. by apply putbit_bytes.
Qed.

(** Outside of the written range the buffer is untouched. *)
Lemma getbit_write_bits_out d off n count p :
  0 <= off -> 0 <= p -> (p < off \/ off + n <= p) ->
  getbit (write_bits d off n count) p = getbit d p.
Proof.
  intros Hoff Hp Hout. destruct (Z.le_gt_cases n 0) as [Hn|Hn].
  - unfold write_bits. by rewrite seqZ_nil.
  - rewrite <- (Z2Nat.id n) in Hout |- * by lia.
    induction (Z.to_nat n) as [|k IH]; [done|].
    rewrite write_bits_S, getbit_putbit_ne by lia. apply IH. lia.
Qed.

(** Inside of it the buffer holds the bits of [count]. *)
Lemma getbit_write_bits_in d off n count p :
  0 <= off -> off <= p < off + n -> off + n <= 8 * Z.of_nat (length d) ->
  getbit (write_bits d off n count) p = Z.testbit count (p - off).
Proof.
  intros Hoff Hp Hlen.
  assert (0 < n) as Hn by lia.
  rewrite <- (Z2Nat.id n) in Hp, Hlen |- * by lia.
  induction (Z.to_nat n) as [|k IH]; [lia|].
  rewrite write_bits_S.
  destruct (Z.eq_dec p (off + Z.of_nat k)) as [->|Hne].
  - rewrite getbit_putbit_eq.
    + f_equal. lia.
    + lia.
    + rewrite length_write_bits.
      assert ((off + Z.of_nat k) / 8 < Z.of_nat (length d)).
      { apply Z.div_lt_upper_bound; lia. }
      assert (0 <= (off + Z.of_nat k) / 8) by (apply Z.div_pos; lia).
      lia.
  - rewrite getbit_putbit_ne by lia. apply IH; lia.
Qed.

Lemma read_bits_S d off (k : nat) :
  read_bits d off (Z.of_nat (S k)) =
  if getbit d (off + Z.of_nat k)
  then Z.lor (read_bits d off (Z.of_nat k)) (Z.shiftl 1 (Z.of_nat k))
  else read_bits d off (Z.of_nat k).
Proof. unfold read_bits. rewrite seqZ_S, foldl_snoc. done. Qed.

Lemma testbit_read_bits d off n i :
  0 <= i ->
  Z.testbit (read_bits d off n) i = (i <? n) && getbit d (off + i).
Proof.
  intros Hi. destruct (Z.le_gt_cases n 0) as [Hn|Hn].
  - unfold read_bits. rewrite seqZ_nil by done. simpl.
    rewrite Z.bits_0. symmetry. apply andb_false_iff. left. apply Z.ltb_ge. lia.
  - rewrite <- (Z2Nat.id n) by lia. induction (Z.to_nat n) as [|k IH].
    + change (read_bits d off (Z.of_nat 0)) with 0.
      rewrite Z.bits_0. symmetry. apply andb_false_iff. left. apply Z.ltb_ge. lia.
    + rewrite read_bits_S.
      destruct (Z.eq_dec i (Z.of_nat k)) as [->|Hne].
      * rewrite (proj2 (Z.ltb_lt (Z.of_nat k) (Z.of_nat (S k)))) by lia.
        destruct (getbit d (off + Z.of_nat k)) eqn:E.
        -- rewrite Z.lor_spec, Z.shiftl_1_l, Z.pow2_bits_true by lia.
           apply orb_true_r.
        -- rewrite IH, Z.ltb_irrefl. done.
      * assert (Z.testbit (if getbit d (off + Z.of_nat k)
                           then Z.lor (read_bits d off (Z.of_nat k)) (Z.shiftl 1 (Z.of_nat k))
                           else read_bits d off (Z.of_nat k)) i
                = Z.testbit (read_bits d off (Z.of_nat k)) i) as ->.
        { destruct (getbit d (off + Z.of_nat k)); [|done].
          rewrite Z.lor_spec, Z.shiftl_1_l, Z.pow2_bits_false by lia.
          apply orb_false_r. }
        rewrite IH. f_equal.
        destruct (Z.ltb_spec i (Z.of_nat k)), (Z.ltb_spec i (Z.of_nat (S k))); lia.
Qed.

Lemma read_bits_range d off n : 0 <= n -> 0 <= read_bits d off n < 2 ^ n.
Proof.
  intros Hn.
  assert (0 <= read_bits d off n) as Hpos.
  { apply Z.bits_iff_nonneg_ex. exists n. intros m Hm.
    rewrite testbit_read_bits by lia. apply andb_false_iff. left. apply Z.ltb_ge. lia. }
  split; [done|].
  destruct (Z.eq_dec (read_bits d off n) 0) as [->|Hnz].
  - apply Z.pow_pos_nonneg; lia.
  - apply Z.log2_lt_pow2; [lia|].
    destruct (Z.lt_ge_cases (Z.log2 (read_bits d off n)) n) as [|Hge]; [done|].
    assert (Z.testbit (read_bits d off n) (Z.log2 (read_bits d off n)) = true) as Ht
      by (apply Z.bit_log2; lia).
    rewrite testbit_read_bits in Ht by lia.
    apply andb_true_iff in Ht as [Ht _]. apply Z.ltb_lt in Ht. lia.
Qed.

(** The layout table: widths 8..23, offsets the running sum of the widths. *)
Lemma bucket_bits_eq (i : Z) : 0 <= i < 16 -> bucket_bits !!! Z.to_nat i = 8 + i.
Proof. intros H. bucket_cases i H; reflexivity. Qed.

Lemma bucket_offset_next (i : Z) :
  0 <= i < 15 ->
  bucket_offset !!! Z.to_nat (i + 1) = bucket_offset !!! Z.to_nat i + bucket_bits !!! Z.to_nat i.
Proof.
  intros H. assert (0 <= i < 16) as H' by lia. bucket_cases i H'; try reflexivity. lia.
Qed.

Lemma bucket_offset_nonneg (i : Z) : 0 <= i < 16 -> 0 <= bucket_offset !!! Z.to_nat i.
Proof. intros H. bucket_cases i H; vm_compute; discriminate. Qed.

Lemma bucket_offset_end (i : Z) :
  0 <= i < 16 ->
  bucket_offset !!! Z.to_nat i + bucket_bits !!! Z.to_nat i <= 248.
Proof. intros H. bucket_cases i H; vm_compute; discriminate. Qed.

Lemma bucket_offset_mono (i j : Z) :
  0 <= i -> i < j -> j < 16 ->
  bucket_offset !!! Z.to_nat i + bucket_bits !!! Z.to_nat i <= bucket_offset !!! Z.to_nat j.
Proof.
  intros Hi Hij Hj.
  replace j with (i + 1 + (j - i - 1)) by lia.
  assert (0 <= j - i - 1) as Hk by lia.
  assert (i + 1 + (j - i - 1) < 16) as Hb by lia.
  revert Hk Hb. generalize (j - i - 1) as k. intros k Hk.
  pattern k. apply natlike_ind; [| |done].
  - intros Hb. rewrite Z.add_0_r, bucket_offset_next by lia. lia.
  - intros x Hx IH Hb.
    replace (i + 1 + Z.succ x) with ((i + 1 + x) + 1) by lia.
    rewrite bucket_offset_next by lia.
    assert (0 <= bucket_bits !!! Z.to_nat (i + 1 + x)) by (rewrite bucket_bits_eq; lia).
    lia.
Qed.

Lemma bucket_get_read hist b :
  0 <= b < 16 ->
  bucket_get hist b =
  read_bits (data hist) (bucket_offset !!! Z.to_nat b) (bucket_bits !!! Z.to_nat b).
Proof.
  intros Hb. unfold bucket_get, read_bits.
  pose proof (bucket_offset_nonneg b Hb) as Hoff.
  apply foldl_ext_in. intros a x Hx. apply elem_of_seqZ in Hx.
  cbv zeta. rewrite Z.quot_div_nonneg, Z.rem_mod_nonneg by lia.
  rewrite land_shiftl1_test by (apply Z.mod_pos_bound; lia). done.
Qed.

Lemma bucket_set_fold hist off n count :
  0 <= off ->
  foldl (fun h i =>
           let byte := (off + i) ÷ 8 in
           let bit := Z.rem (off + i) 8 in
           let old := data h !!! Z.to_nat byte in
           if negb (Z.land count (Z.shiftl 1 i) =? 0)
           then set_data h (<[Z.to_nat byte := uint8 (Z.lor old (Z.shiftl 1 bit))]> (data h))
           else set_data h (<[Z.to_nat byte := uint8 (Z.land old (Z.lnot (Z.shiftl 1 bit)))]> (data h)))
        hist (seqZ 0 n)
  = set_data hist (write_bits (data hist) off n count).
Proof.
  intros Hoff. unfold write_bits.
  assert (forall l h, (forall x, x ∈ l -> 0 <= x) ->
    foldl (fun h i =>
           let byte := (off + i) ÷ 8 in
           let bit := Z.rem (off + i) 8 in
           let old := data h !!! Z.to_nat byte in
           if negb (Z.land count (Z.shiftl 1 i) =? 0)
           then set_data h (<[Z.to_nat byte := uint8 (Z.lor old (Z.shiftl 1 bit))]> (data h))
           else set_data h (<[Z.to_nat byte := uint8 (Z.land old (Z.lnot (Z.shiftl 1 bit)))]> (data h)))
        h l
    = set_data h (foldl (fun d i => putbit d (off + i) (Z.testbit count i)) (data h) l)) as Hgen.
  { induction l as [|x l IH]; intros h Hl.
    - by destruct h.
    - simpl. assert (0 <= x) as Hx by (apply Hl; left).
      rewrite IH by (intros y Hy; apply Hl; by right).
      rewrite Z.quot_div_nonneg, Z.rem_mod_nonneg by lia.
      rewrite land_shiftl1_test by done. unfold putbit.
      destruct (Z.testbit count x); done. }
  apply Hgen. intros x Hx. apply elem_of_seqZ in Hx. lia.
Qed.

Lemma bucket_set_eq hist b count :
  0 <= b < 16 ->
  bucket_set hist b count =
  Ok (set_data hist (write_bits (data hist) (bucket_offset !!! Z.to_nat b)
                                (bucket_bits !!! Z.to_nat b) count))
     (count <? 2 ^ (bucket_bits !!! Z.to_nat b)).
Proof.
  intros Hb. unfold bucket_set, HISTOGRAM_BUCKETS.
  rewrite bucket_set_fold by (by apply bucket_offset_nonneg).
  rewrite (proj2 (Z.leb_le 0 b)), (proj2 (Z.ltb_lt b 16)) by lia.
  rewrite Z.shiftl_1_l. cbn. by rewrite andb_true_r.
Qed.

Lemma bucket_get_range hist b :
  0 <= b < 16 -> 0 <= bucket_get hist b < 2 ^ (bucket_bits !!! Z.to_nat b).
Proof.
  intros Hb. rewrite bucket_get_read by done. apply read_bits_range.
  rewrite bucket_bits_eq; lia.
Qed.

(** What [bucket_set] does, in terms of [bucket_get]. *)
Lemma bucket_set_spec hist b count :
  valid_hist hist -> 0 <= b < 16 ->
  exists hist',
    bucket_set hist b count = Ok hist' (count <? 2 ^ (bucket_bits !!! Z.to_nat b)) /\
    valid_hist hist' /\ sample hist' = sample hist /\ unit hist' = unit hist /\
    bucket_get hist' b = count mod 2 ^ (bucket_bits !!! Z.to_nat b) /\
    (forall j, 0 <= j < 16 -> j <> b -> bucket_get hist' j = bucket_get hist j).
Proof.
  intros (Hs & Hu & Hlen & Hbytes) Hb.
  eexists. split; [by apply bucket_set_eq|].
  pose proof (bucket_offset_nonneg b Hb) as Hoff.
  pose proof (bucket_offset_end b Hb) as Hend.
  assert (0 <= bucket_bits !!! Z.to_nat b) as Hbits by (rewrite bucket_bits_eq; lia).
  split; [|split; [done|split; [done|split]]].
  - unfold valid_hist. simpl. rewrite length_write_bits.
    split; [done|]. split; [done|]. split; [done|]. by apply write_bits_bytes.
  - rewrite bucket_get_read by done. simpl.
    apply Z.bits_inj'. intros i Hi.
    rewrite testbit_read_bits by done.
    destruct (Z.ltb_spec i (bucket_bits !!! Z.to_nat b)) as [Hlt|Hge].
    + rewrite getbit_write_bits_in by lia.
      rewrite Z.mod_pow2_bits_low by done. simpl. f_equal. lia.
    + rewrite Z.mod_pow2_bits_high by lia. done.
  - intros j Hj Hne. rewrite !bucket_get_read by done. simpl.
    apply Z.bits_inj'. intros i Hi. rewrite !testbit_read_bits by done.
    destruct (Z.ltb_spec i (bucket_bits !!! Z.to_nat j)) as [Hlt|Hge]; [|done].
    simpl. pose proof (bucket_offset_nonneg j Hj).
    apply getbit_write_bits_out; [done|lia|].
    destruct (Z.lt_ge_cases j b) as [Hjb|Hjb].
    + left. pose proof (bucket_offset_mono j b). lia.
    + right. pose proof (bucket_offset_mono b j). lia.
Qed.

End BitField.

(** ** Reasoning about runs *)

Section Runs.

Lemma bind_Ok {A B} (f : A -> result B) (a : A) (ok : bool) :
  (Ok a ok ≫= f) =
  match f a with
  | Ok b ok' => Ok b (ok && ok')
  | Raise msg => Raise msg
  | OutOfFuel => OutOfFuel
  end.
Proof. reflexivity. Qed.

Lemma bind_Ok_Ok {A B} (f : A -> result B) (a : A) (ok : bool) (b : B) (ok' : bool) :
  f a = Ok b ok' -> (Ok a ok ≫= f) = Ok b (ok && ok').
Proof. intros H. rewrite bind_Ok, H. done. Qed.

Lemma bind_ret {A B} (f : A -> result B) (a : A) : (mret a ≫= f) = f a.
Proof. unfold mret, result_ret. rewrite bind_Ok. by destruct (f a). Qed.

Lemma for_range_nil lo hi : hi <= lo -> for_range lo hi = [].
Proof. intros H. unfold for_range. apply seqZ_nil. lia. Qed.

Lemma for_range_cons lo hi : lo < hi -> for_range lo hi = lo :: for_range (lo + 1) hi.
Proof.
  intros H. unfold for_range. rewrite seqZ_cons by lia.
  f_equal. f_equal; lia.
Qed.

Lemma elem_of_for_range lo hi k : k ∈ for_range lo hi <-> lo <= k < hi.
Proof. unfold for_range. rewrite elem_of_seqZ. lia. Qed.

(** The invariant rule of a [for] loop: [I k s ok] holds of the state [s]
    before iteration [k], where [ok] tells whether the assertions held so far. *)
Lemma for_range_rule {S : Type} (I : Z -> S -> bool -> Prop)
    (lo hi : Z) (body : Z -> S -> result S) (s : S) :
  lo <= hi ->
  I lo s true ->
  (forall k s ok, lo <= k < hi -> I k s ok ->
     exists s' ok', body k s = Ok s' ok' /\ I (k + 1) s' (ok && ok')) ->
  exists s' ok, for_each (for_range lo hi) body s = Ok s' ok /\ I hi s' ok.
Proof.
  intros Hle H0 Hstep.
  assert (forall (n : nat) lo' s acc,
            lo <= lo' -> hi - lo' = Z.of_nat n -> I lo' s acc ->
            exists s' ok, for_each (for_range lo' hi) body s = Ok s' ok /\
                          I hi s' (acc && ok)) as Hgen.
  { induction n as [|n IH]; intros lo' s0 acc Hlo Hn Hi.
    - rewrite for_range_nil by lia. exists s0, true. simpl.
      replace hi with lo' by lia. by rewrite andb_true_r.
    - rewrite for_range_cons by lia. simpl.
      destruct (Hstep lo' s0 acc) as (s1 & ok1 & Hb & Hi1); [lia|done|].
      destruct (IH (lo' + 1) s1 (acc && ok1)) as (s2 & ok2 & Hf & Hi2);
        [lia|lia|done|].
      exists s2, (ok1 && ok2). rewrite Hb, bind_Ok, Hf, andb_assoc. done. }
  destruct (Hgen (Z.to_nat (hi - lo)) lo s true) as (s' & ok & Hf & Hi);
    [lia|lia|done|].
  exists s', ok. done.
Qed.

End Runs.

Arguments bucket_get : simpl never.
Arguments bucket_set : simpl never.

(** ** The two escalations *)

Section Escalation.

Lemma bucket_get_set_sample hist s b : bucket_get (set_sample hist s) b = bucket_get hist b.
Proof. reflexivity. Qed.

Lemma bucket_get_set_unit hist u b : bucket_get (set_unit hist u) b = bucket_get hist b.
Proof. reflexivity. Qed.

Lemma uint4_range x : 0 <= uint4 x < 16.
Proof. unfold uint4. apply Z.mod_pos_bound. lia. Qed.

Lemma valid_set_sample hist s : valid_hist hist -> valid_hist (set_sample hist (uint4 s)).
Proof.
  intros (Hs & Hu & Hl & Hb). unfold valid_hist. simpl.
  pose proof (uint4_range s). done.
Qed.

Lemma valid_set_unit hist u : valid_hist hist -> valid_hist (set_unit hist (uint4 u)).
Proof.
  intros (Hs & Hu & Hl & Hb). unfold valid_hist. simpl.
  pose proof (uint4_range u). done.
Qed.

(** [hist_adjust_sample]: every counter is halved, no assertion fails, and
    the 4-bit sample exponent is incremented (15 wraps around to 0). *)
Lemma hist_adjust_sample_spec hist :
  valid_hist hist ->
  exists hist',
    hist_adjust_sample hist = Ok hist' true /\
    valid_hist hist' /\
    sample hist' = (sample hist + 1) mod 16 /\
    unit hist' = unit hist /\
    (forall i, 0 <= i < 16 -> bucket_get hist' i = bucket_get hist i / 2).
Proof.
  intros Hv. unfold hist_adjust_sample, HISTOGRAM_BUCKETS.
  destruct (for_range_rule
    (fun k h ok => ok = true /\ valid_hist h /\ sample h = sample hist /\
                   unit h = unit hist /\
                   (forall j, 0 <= j < k -> bucket_get h j = bucket_get hist j / 2) /\
                   (forall j, k <= j < 16 -> bucket_get h j = bucket_get hist j))
    0 16 (fun i h => bucket_set h i (bucket_get h i ÷ 2)) hist)
    as (h' & ok & Hrun & Hok & Hv' & Hs' & Hu' & Hlow & _).
  - lia.
  - split; [done|]. split; [done|]. split; [done|]. split; [done|].
    split; [intros j Hj; lia|done].
  - intros k h ok Hk (-> & Hvh & Hsh & Huh & Hlo & Hhi).
    destruct (bucket_set_spec h k (bucket_get h k ÷ 2) Hvh Hk)
      as (h1 & E & Hv1 & Hs1 & Hu1 & Hsame & Hother).
    pose proof (bucket_get_range h k Hk) as Hr.
    assert (bucket_get h k ÷ 2 = bucket_get h k / 2) as Hq
      by (apply Z.quot_div_nonneg; lia).
    assert (0 <= bucket_get h k / 2 < 2 ^ (bucket_bits !!! Z.to_nat k)) as Hr2.
    { split; [apply Z.div_pos; lia|].
      apply Z.div_lt_upper_bound; lia. }
    exists h1, true. split.
    { rewrite E. f_equal. apply Z.ltb_lt. lia. }
    split; [done|]. split; [done|]. split; [congruence|]. split; [congruence|].
    split.
    + intros j Hj. destruct (Z.eq_dec j k) as [->|Hne].
      * rewrite Hsame, Hq, Z.mod_small by lia. rewrite Hhi by lia. done.
      * rewrite Hother by lia. apply Hlo. lia.
    + intros j Hj. rewrite Hother by lia. apply Hhi. lia.
  - exists (set_sample h' (uint4 (sample h' + 1))).
    rewrite Hrun, Hok. split; [done|].
    split; [by apply valid_set_sample|].
    split; [simpl; unfold uint4; by rewrite Hs'|].
    split; [done|].
    intros i Hi. rewrite bucket_get_set_sample. by apply Hlow.
Qed.

(** [hist_adjust_unit] on any histogram: what a build without assertion
    checking stores, and when all the assertions hold.  The 4-bit unit
    exponent is incremented (15 wraps around to 0). *)
Lemma hist_adjust_unit_spec hist :
  valid_hist hist ->
  exists hist' ok,
    hist_adjust_unit hist = Ok hist' ok /\
    valid_hist hist' /\
    sample hist' = sample hist /\
    unit hist' = (unit hist + 1) mod 16 /\
    bucket_get hist' 0 = (bucket_get hist 0 + bucket_get hist 1) mod 2 ^ 8 /\
    (forall i, 1 <= i <= 14 ->
       bucket_get hist' i = bucket_get hist (i + 1) mod 2 ^ (bucket_bits !!! Z.to_nat i)) /\
    bucket_get hist' 15 = 0 /\
    (ok = true <-> unit_shift_fits hist).
Proof.
  intros Hv. unfold hist_adjust_unit, HISTOGRAM_BUCKETS.
  destruct (bucket_set_spec hist 0 (bucket_get hist 0 + bucket_get hist 1) Hv)
    as (h0 & E0 & Hv0 & Hs0 & Hu0 & Hsame0 & Hother0); [lia|].
  rewrite E0, bind_Ok.
  destruct (for_range_rule
    (fun k h ok => valid_hist h /\ sample h = sample hist /\ unit h = unit hist /\
                   bucket_get h 0 = bucket_get h0 0 /\
                   (forall j, 1 <= j < k ->
                      bucket_get h j = bucket_get hist (j + 1) mod 2 ^ (bucket_bits !!! Z.to_nat j)) /\
                   (forall j, k <= j < 16 -> bucket_get h j = bucket_get hist j) /\
                   (ok = true <->
                    forall j, 1 <= j < k ->
                      bucket_get hist (j + 1) < 2 ^ (bucket_bits !!! Z.to_nat j)))
    1 (16 - 1) (fun i h => bucket_set h i (bucket_get h (i + 1))) h0)
    as (h1 & ok1 & Hrun & Hv1 & Hs1 & Hu1 & Hz1 & Hlo1 & Hhi1 & Hok1).
  - lia.
  - split; [done|]. split; [congruence|]. split; [congruence|]. split; [done|].
    split; [intros j Hj; lia|]. split.
    + intros j Hj. apply Hother0; lia.
    + split; [intros _ j Hj; lia|done].
  - intros k h ok Hk (Hvh & Hsh & Huh & Hzh & Hlo & Hhi & Hok).
    destruct (bucket_set_spec h k (bucket_get h (k + 1)) Hvh)
      as (h2 & E & Hv2 & Hs2 & Hu2 & Hsame & Hother); [lia|].
    eexists h2, _. split; [exact E|].
    split; [done|]. split; [congruence|]. split; [congruence|].
    split; [by rewrite (Hother 0) by lia|].
    split; [|split].
    + intros j Hj. destruct (Z.eq_dec j k) as [->|Hne].
      * rewrite Hsame. rewrite Hhi by lia. done.
      * rewrite Hother by lia. apply Hlo. lia.
    + intros j Hj. rewrite Hother by lia. apply Hhi. lia.
    + rewrite Hhi by lia. rewrite andb_true_iff, Hok, Z.ltb_lt. split.
      * intros [Hall Hk'] j Hj. destruct (Z.eq_dec j k) as [->|Hne]; [done|].
        apply Hall. lia.
      * intros Hall. split; [intros j Hj; apply Hall; lia|apply Hall; lia].
  - rewrite Hrun.
    destruct (bucket_set_spec h1 15 0 Hv1)
      as (h2 & E2 & Hv2 & Hs2 & Hu2 & Hsame2 & Hother2); [lia|].
    change (16 - 1) with 15 in *. rewrite bind_Ok, E2, bind_Ok.
    eexists _, _. split; [reflexivity|].
    split; [by apply valid_set_unit|].
    split; [simpl; congruence|].
    split; [simpl; unfold uint4; congruence|].
    rewrite !bucket_get_set_unit.
    split.
    { rewrite (Hother2 0), Hz1 by lia. exact Hsame0. }
    split.
    { intros i Hi. rewrite bucket_get_set_unit, (Hother2 i) by lia. apply Hlo1. lia. }
    split.
    { rewrite Hsame2. apply Z.mod_0_l. vm_compute. discriminate. }
    change (0 <? 2 ^ (bucket_bits !!! Z.to_nat 15)) with true.
    rewrite !andb_true_r. rewrite andb_true_iff, Hok1, Z.ltb_lt.
    unfold unit_shift_fits. change (bucket_bits !!! Z.to_nat 0) with 8.
    split.
    + intros [H0 Hall]. split; [done|]. intros i Hi. apply Hall. lia.
    + intros [H0 Hall]. split; [done|]. intros j Hj. apply Hall. lia.
Qed.

End Escalation.

(** ** The bit-field codec: frame property *)

(** C10: frame property of the bit-field codec.  For every bucket index [i]
    and value [v < 2^width[i]], [bucket_set hist i v] passes its assertions
    and changes only the bits of bucket [i]: every bit of the buffer outside
    of the range of bucket [i] is left as it was, every other bucket [j]
    reads the same before and after, and so do the two exponents.  The
    sixteen (offset, width) ranges are pairwise disjoint and tile the data
    region: the first starts at bit 0, each starts where the previous one
    ends, and the last one ends at bit 248 = 8 * 31. *)
Theorem bucket_set_frame (hist : tinyhist_t) (i j v : Z) :
  0 <= i < 16 -> 0 <= j < 16 -> j <> i ->
  v < 2 ^ (bucket_bits !!! Z.to_nat i) ->
  (exists hist',
     bucket_set hist i v = Ok hist' true /\
     bucket_get hist' j = bucket_get hist j /\
     (forall p, 0 <= p ->
        p < bucket_offset !!! Z.to_nat i \/
        bucket_offset !!! Z.to_nat i + bucket_bits !!! Z.to_nat i <= p ->
        getbit (data hist') p = getbit (data hist) p) /\
     sample hist' = sample hist /\ unit hist' = unit hist) /\
  (bucket_offset !!! Z.to_nat j + bucket_bits !!! Z.to_nat j <= bucket_offset !!! Z.to_nat i \/
   bucket_offset !!! Z.to_nat i + bucket_bits !!! Z.to_nat i <= bucket_offset !!! Z.to_nat j) /\
  bucket_offset !!! Z.to_nat 0 = 0 /\
  (forall k, 0 <= k < 15 ->
     bucket_offset !!! Z.to_nat (k + 1) =
     bucket_offset !!! Z.to_nat k + bucket_bits !!! Z.to_nat k) /\
  bucket_offset !!! Z.to_nat 15 + bucket_bits !!! Z.to_nat 15 = 8 * 31.
Proof.
  intros Hi Hj Hne Hv.
  assert (bucket_offset !!! Z.to_nat j + bucket_bits !!! Z.to_nat j
            <= bucket_offset !!! Z.to_nat i \/
          bucket_offset !!! Z.to_nat i + bucket_bits !!! Z.to_nat i
            <= bucket_offset !!! Z.to_nat j) as Hdisj.
  { destruct (Z.lt_ge_cases j i) as [Hji|Hji].
    - left. apply bucket_offset_mono; lia.
    - right. apply bucket_offset_mono; lia. }
  split; [|split; [exact Hdisj|split; [reflexivity|split; [apply bucket_offset_next|reflexivity]]]].
  pose proof (bucket_offset_nonneg j Hj). pose proof (bucket_offset_nonneg i Hi).
  eexists. split.
  { rewrite bucket_set_eq by exact Hi. f_equal. apply Z.ltb_lt. exact Hv. }
  split; [|split; [|split; reflexivity]].
  - rewrite !bucket_get_read by exact Hj. cbn [data set_data].
    apply Z.bits_inj'. intros n Hn. rewrite !testbit_read_bits by exact Hn.
    destruct (Z.ltb_spec n (bucket_bits !!! Z.to_nat j)) as [Hlt|Hge]; [|reflexivity].
    cbn [andb]. apply getbit_write_bits_out; lia.
  - intros p Hp Hout. cbn [data set_data]. apply getbit_write_bits_out; lia.
Qed.

Lemma bucket_set_frame_witness :
  (exists hist',
     bucket_set palloc0_tinyhist 3 1234 = Ok hist' true /\
     bucket_get hist' 4 = bucket_get palloc0_tinyhist 4 /\
     (forall p, 0 <= p ->
        p < bucket_offset !!! Z.to_nat 3 \/
        bucket_offset !!! Z.to_nat 3 + bucket_bits !!! Z.to_nat 3 <= p ->
        getbit (data hist') p = getbit (data palloc0_tinyhist) p) /\
     sample hist' = sample palloc0_tinyhist /\ unit hist' = unit palloc0_tinyhist) /\
  (bucket_offset !!! Z.to_nat 4 + bucket_bits !!! Z.to_nat 4 <= bucket_offset !!! Z.to_nat 3 \/
   bucket_offset !!! Z.to_nat 3 + bucket_bits !!! Z.to_nat 3 <= bucket_offset !!! Z.to_nat 4) /\
  bucket_offset !!! Z.to_nat 0 = 0 /\
  (forall k, 0 <= k < 15 ->
     bucket_offset !!! Z.to_nat (k + 1) =
     bucket_offset !!! Z.to_nat k + bucket_bits !!! Z.to_nat k) /\
  bucket_offset !!! Z.to_nat 15 + bucket_bits !!! Z.to_nat 15 = 8 * 31.
Proof.
  apply (bucket_set_frame palloc0_tinyhist 3 4 1234); [lia|lia|lia|].
  vm_compute. reflexivity.
Defined.

(** ** The binary representation *)

Section Binary.

Lemma valid_palloc0 : valid_hist palloc0_tinyhist.
Proof.
  unfold valid_hist. simpl. split; [lia|]. split; [lia|]. split; [done|].
  repeat constructor; lia.
Qed.

Lemma bucket_get_palloc0 (i : Z) : 0 <= i < 16 -> bucket_get palloc0_tinyhist i = 0.
Proof. intros H. bucket_cases i H; reflexivity. Qed.

(** Receiving a sample byte and sixteen bucket bytes. *)
Lemma tinyhist_recv_spec (s : Z) (bytes : list Z) :
  length bytes = 16%nat -> Forall (fun b => 0 <= b < 256) bytes ->
  exists hist,
    tinyhist_recv (s :: bytes) = Ok hist true /\
    valid_hist hist /\
    sample hist = s mod 16 /\ unit hist = 0 /\
    (forall i, 0 <= i < 16 -> bucket_get hist i = bytes !!! Z.to_nat i).
Proof.
  intros Hlen Hbytes. unfold tinyhist_recv, HISTOGRAM_BUCKETS.
  change (pq_getmsgbyte (s :: bytes)) with (mret (M:=result) (s, bytes)).
  rewrite bind_ret.
  destruct (for_range_rule
    (fun k (st : tinyhist_t * list Z) ok =>
       ok = true /\ valid_hist st.1 /\ sample st.1 = s mod 16 /\ unit st.1 = 0 /\
       st.2 = drop (Z.to_nat k) bytes /\
       (forall j, 0 <= j < k -> bucket_get st.1 j = bytes !!! Z.to_nat j))
    0 16
    (fun i '(hist, buf) =>
       '(b, buf) ← pq_getmsgbyte buf;
       hist ← bucket_set hist i b;
       mret (hist, buf))
    (set_sample palloc0_tinyhist (uint4 s), bytes))
    as ([h' buf'] & ok & Hrun & -> & Hv & Hs & Hu & _ & Hb).
  - lia.
  - split; [done|]. split; [apply valid_set_sample, valid_palloc0|].
    split; [done|]. split; [done|]. split; [done|]. intros j Hj. lia.
  - intros k [h buf] ok Hk (-> & Hv & Hs & Hu & Hbuf & Hb). cbn [fst snd] in *.
    assert (exists b, bytes !! Z.to_nat k = Some b) as [b Hkb].
    { apply lookup_lt_is_Some. lia. }
    assert (0 <= b < 256) as Hb256.
    { exact (Forall_lookup_1 _ _ _ _ Hbytes Hkb). }
    rewrite Hbuf, (drop_S _ _ _ Hkb).
    change (pq_getmsgbyte (b :: drop (S (Z.to_nat k)) bytes))
      with (mret (M:=result) (b, drop (S (Z.to_nat k)) bytes)).
    rewrite bind_ret.
    destruct (bucket_set_spec h k b Hv Hk) as (h1 & E & Hv1 & Hs1 & Hu1 & Hsame & Hother).
    assert (2 ^ 8 <= 2 ^ (bucket_bits !!! Z.to_nat k)) as Hpow.
    { apply Z.pow_le_mono_r; [lia|]. rewrite bucket_bits_eq; lia. }
    rewrite E, bind_Ok.
    eexists (h1, _), _. split; [reflexivity|]. cbn [fst snd].
    split.
    { rewrite andb_true_r. apply Z.ltb_lt. lia. }
    split; [done|]. split; [congruence|]. split; [congruence|].
    split.
    { f_equal. lia. }
    intros j Hj. destruct (Z.eq_dec j k) as [->|Hne].
    + rewrite Hsame, Z.mod_small by lia.
      by rewrite (list_lookup_total_correct _ _ _ Hkb).
    + rewrite Hother by lia. apply Hb. lia.
  - cbn [fst snd] in *. rewrite Hrun. exists h'. done.
Qed.

Lemma tinyhist_send_eq (hist : tinyhist_t) :
  tinyhist_send hist =
  uint8 (sample hist) :: ((fun i => uint8 (bucket_get hist i)) <$> for_range 0 16).
Proof. reflexivity. Qed.

Lemma tinyhist_send_set_unit (hist : tinyhist_t) (u : Z) :
  tinyhist_send (set_unit hist u) = tinyhist_send hist.
Proof. rewrite !tinyhist_send_eq. reflexivity. Qed.

End Binary.

(** C9: the binary send operation emits exactly 17 payload bytes: one byte
    holding [sample], followed by 16 bytes, one per bucket in index order,
    each the low 8 bits of the decoded count.  The message does not depend on
    [unit], and receiving it yields a histogram whose [unit] is 0 (with the
    same [sample] and the truncated counts). *)
Theorem tinyhist_send_recv (hist : tinyhist_t) :
  valid_hist hist ->
  tinyhist_send hist =
    sample hist :: ((fun i => bucket_get hist i mod 2 ^ 8) <$> for_range 0 16) /\
  length (tinyhist_send hist) = 17%nat /\
  (forall u, tinyhist_send (set_unit hist u) = tinyhist_send hist) /\
  exists hist',
    tinyhist_recv (tinyhist_send hist) = Ok hist' true /\
    unit hist' = 0 /\
    sample hist' = sample hist /\
    (forall i, 0 <= i < 16 -> bucket_get hist' i = bucket_get hist i mod 2 ^ 8).
Proof.
  intros Hv. pose proof Hv as (Hs & Hu & Hl & Hb).
  assert (tinyhist_send hist =
          sample hist :: ((fun i => bucket_get hist i mod 2 ^ 8) <$> for_range 0 16)) as Hsend.
  { rewrite tinyhist_send_eq. unfold uint8 at 1. rewrite Z.mod_small by lia.
    reflexivity. }
  split; [exact Hsend|]. split; [rewrite Hsend; reflexivity|].
  split; [apply tinyhist_send_set_unit|].
  rewrite Hsend.
  destruct (tinyhist_recv_spec (sample hist)
              ((fun i => bucket_get hist i mod 2 ^ 8) <$> for_range 0 16))
    as (h' & Hrun & Hv' & Hs' & Hu' & Hb').
  - reflexivity.
  - apply Forall_fmap, Forall_forall. intros x _. cbv beta.
    apply Z.mod_pos_bound. lia.
  - exists h'. split; [exact Hrun|]. split; [exact Hu'|].
    split; [rewrite Hs'; apply Z.mod_small; lia|].
    intros i Hi. rewrite Hb' by done.
    assert (for_range 0 16 !! Z.to_nat i = Some i) as Hlk.
    { unfold for_range. rewrite lookup_seqZ. lia. }
    apply list_lookup_total_correct.
    rewrite list_lookup_fmap, Hlk. reflexivity.
Qed.

Lemma tinyhist_send_recv_witness :
  tinyhist_send palloc0_tinyhist =
    sample palloc0_tinyhist ::
      ((fun i => bucket_get palloc0_tinyhist i mod 2 ^ 8) <$> for_range 0 16) /\
  length (tinyhist_send palloc0_tinyhist) = 17%nat /\
  (forall u, tinyhist_send (set_unit palloc0_tinyhist u) = tinyhist_send palloc0_tinyhist) /\
  exists hist',
    tinyhist_recv (tinyhist_send palloc0_tinyhist) = Ok hist' true /\
    unit hist' = 0 /\
    sample hist' = sample palloc0_tinyhist /\
    (forall i, 0 <= i < 16 ->
       bucket_get hist' i = bucket_get palloc0_tinyhist i mod 2 ^ 8).
Proof.
  apply (tinyhist_send_recv palloc0_tinyhist).
  unfold valid_hist. simpl. split; [lia|]. split; [lia|]. split; [reflexivity|].
  repeat constructor; lia.
Defined.

(** ** The two escalations: what the specification says of them *)

(** C7: at [sample = 15] the claim fails.  [hist_adjust_sample] halves the
    counters and passes its assertions, but the increment of the 4-bit
    [sample] field wraps around: the exponent goes from 15 to 0 and not to
    16.  The histogram is one that [tinyhist_recv] returns. *)
Theorem hist_adjust_sample_wraps :
  tinyhist_recv (15 :: 200 :: 200 :: replicate 14 0) = Ok hist_sample15 true /\
  exists hist',
    hist_adjust_sample hist_sample15 = Ok hist' true /\
    sample hist_sample15 = 15 /\
    sample hist' = 0 /\
    bucket_get hist' 0 = 100 /\ bucket_get hist' 1 = 100.
Proof.
  split; [vm_compute; reflexivity|].
  eexists. split; [vm_compute; reflexivity|].
  repeat split; vm_compute; reflexivity.
Qed.

(** C8, as stated, fails.  With 200 in each of the first two buckets the
    sum 400 does not fit the 8 bits of bucket 0: the assertion of
    [bucket_set] fails, and without assertion checking bucket 0 ends up
    holding 144.  And at [unit = 15] the increment of the 4-bit field wraps
    around to 0. *)
Lemma hist_adjust_unit_overflow :
  (exists hist',
     hist_adjust_unit hist_200_200 = Ok hist' false /\
     bucket_get hist_200_200 0 + bucket_get hist_200_200 1 = 400 /\
     bucket_get hist' 0 = 144 /\
     bucket_get hist' 0 <> bucket_get hist_200_200 0 + bucket_get hist_200_200 1) /\
  (exists hist',
     hist_adjust_unit (set_unit palloc0_tinyhist 15) = Ok hist' true /\
     unit hist' = 0 /\
     unit hist' <> unit (set_unit palloc0_tinyhist 15) + 1).
Proof.
  split.
  - eexists. split; [vm_compute; reflexivity|].
    split; [vm_compute; reflexivity|].
    split; [vm_compute; reflexivity|].
    vm_compute. discriminate.
  - eexists. split; [vm_compute; reflexivity|].
    split; [reflexivity|]. vm_compute. discriminate.
Qed.

(** C8, amended: for every histogram with [unit < 15] in which no write of
    the shift overflows (the first two counters sum to less than [2^8], and
    counter [i+1] is below [2^width[i]] for [i = 1..14]), [hist_adjust_unit]
    passes its assertions, the new bucket 0 is the sum of the old buckets 0
    and 1, the new bucket [i] is the old bucket [i+1] for [i = 1..14], the new
    bucket 15 is 0, [unit] is incremented by exactly 1 and [sample] is
    unchanged. *)
Theorem hist_adjust_unit_shift (hist : tinyhist_t) :
  valid_hist hist -> unit hist < 15 -> unit_shift_fits hist ->
  exists hist',
    hist_adjust_unit hist = Ok hist' true /\
    bucket_get hist' 0 = bucket_get hist 0 + bucket_get hist 1 /\
    (forall i, 1 <= i <= 14 -> bucket_get hist' i = bucket_get hist (i + 1)) /\
    bucket_get hist' 15 = 0 /\
    unit hist' = unit hist + 1 /\
    sample hist' = sample hist.
Proof.
  intros Hv Hu Hfits.
  destruct (hist_adjust_unit_spec hist Hv)
    as (h' & ok & Hrun & Hv' & Hs' & Hu' & H0 & Hi & H15 & Hok).
  apply Hok in Hfits as Hok'. subst ok.
  destruct Hfits as [Hf0 Hfi]. destruct Hv as (_ & Hur & _).
  exists h'. split; [exact Hrun|].
  split.
  { rewrite H0. apply Z.mod_small.
    pose proof (bucket_get_range hist 0). pose proof (bucket_get_range hist 1). lia. }
  split.
  { intros i Hi'. rewrite Hi by done. apply Z.mod_small.
    pose proof (bucket_get_range hist (i + 1)). pose proof (Hfi i Hi'). lia. }
  split; [exact H15|].
  split; [rewrite Hu'; apply Z.mod_small; lia|exact Hs'].
Qed.

Lemma hist_adjust_unit_shift_witness :
  exists hist',
    hist_adjust_unit (set_data palloc0_tinyhist (100 :: 50 :: replicate 29 0))
      = Ok hist' true /\
    bucket_get hist' 0 =
      bucket_get (set_data palloc0_tinyhist (100 :: 50 :: replicate 29 0)) 0 +
      bucket_get (set_data palloc0_tinyhist (100 :: 50 :: replicate 29 0)) 1 /\
    (forall i, 1 <= i <= 14 ->
       bucket_get hist' i =
       bucket_get (set_data palloc0_tinyhist (100 :: 50 :: replicate 29 0)) (i + 1)) /\
    bucket_get hist' 15 = 0 /\
    unit hist' = unit (set_data palloc0_tinyhist (100 :: 50 :: replicate 29 0)) + 1 /\
    sample hist' = sample (set_data palloc0_tinyhist (100 :: 50 :: replicate 29 0)).
Proof.
  apply (hist_adjust_unit_shift (set_data palloc0_tinyhist (100 :: 50 :: replicate 29 0))).
  - unfold valid_hist. simpl. split; [lia|]. split; [lia|]. split; [reflexivity|].
    repeat constructor; lia.
  - simpl. lia.
  - split; [vm_compute; reflexivity|].
    intros i Hi. assert (0 <= i < 16) as Hi' by lia.
    bucket_cases i Hi'; try lia; vm_compute; reflexivity.
Defined.

(** ** Growing the range *)

Section Range.

Lemma hist_adjust_range_sample_S fuel hist :
  hist_adjust_range_sample (S fuel) hist =
  if negb (needs_sample_adjust hist) then mret hist
  else hist ← hist_adjust_sample hist; hist_adjust_range_sample fuel hist.
Proof. unfold needs_sample_adjust. cbn [hist_adjust_range_sample]. reflexivity. Qed.

Lemma hist_adjust_range_S fuel hist value :
  hist_adjust_range (S fuel) hist value =
  if int64_lt_float8 (hist_maxvalue hist) value then
    hist ← hist_adjust_range_sample fuel hist;
    hist ← hist_adjust_unit hist;
    hist_adjust_range fuel hist value
  else mret hist.
Proof. reflexivity. Qed.

Lemma foldl_flag {A} (c : A -> bool) (l : list A) (a : bool) :
  foldl (fun adj i => if c i then true else adj) a l = a || existsb c l.
Proof.
  revert a. induction l as [|x l IH]; intros a; simpl.
  - by rewrite orb_false_r.
  - rewrite IH. destruct (c x), a; done.
Qed.

Lemma bucket_maxcount_eq i :
  0 <= i < 16 -> bucket_maxcount i = 2 ^ (bucket_bits !!! Z.to_nat i) - 1.
Proof. intros _. unfold bucket_maxcount. by rewrite Z.shiftl_1_l. Qed.

(** When the inner loop stops, the shift cannot overflow. *)
Lemma needs_sample_adjust_false hist :
  needs_sample_adjust hist = false <->
  bucket_get hist 0 + bucket_get hist 1 < bucket_maxcount 0 /\
  forall i, 1 <= i <= 14 -> bucket_get hist (i + 1) < bucket_maxcount i.
Proof.
  unfold needs_sample_adjust, HISTOGRAM_BUCKETS.
  rewrite (foldl_flag (fun i => bucket_get hist (i + 1) >=? bucket_maxcount i)).
  rewrite orb_false_iff, <- (not_true_iff_false (existsb _ _)), existsb_exists.
  split.
  - intros [H0 Hall]. split.
    + destruct (Z.geb_spec (bucket_get hist 0 + bucket_get hist 1) (bucket_maxcount 0));
        [done|lia].
    + intros i Hi.
      destruct (Z.geb_spec (bucket_get hist (i + 1)) (bucket_maxcount i)) as [Hge|]; [|lia].
      exfalso. apply Hall. exists i. split.
      * apply list_elem_of_In, elem_of_for_range. lia.
      * apply Z.geb_le. lia.
  - intros [H0 Hall]. split.
    + destruct (Z.geb_spec (bucket_get hist 0 + bucket_get hist 1) (bucket_maxcount 0));
        [lia|done].
    + intros (i & Hin & Hc). apply list_elem_of_In, elem_of_for_range in Hin.
      apply Z.geb_le in Hc. specialize (Hall i). lia.
Qed.

Lemma needs_sample_adjust_fits hist :
  needs_sample_adjust hist = false -> unit_shift_fits hist.
Proof.
  intros [H0 Hall]%needs_sample_adjust_false. split.
  - rewrite bucket_maxcount_eq in H0 by lia. change (bucket_bits !!! Z.to_nat 0) with 8 in H0.
    lia.
  - intros i Hi. specialize (Hall i Hi). rewrite bucket_maxcount_eq in Hall by lia. lia.
Qed.

(** The inner loop stops after at most [k] halvings when every counter is
    below [2^k]; it asserts nothing false and leaves [unit] alone. *)
Lemma hist_adjust_range_sample_spec (k : nat) :
  forall (fuel : nat) (hist : tinyhist_t),
    valid_hist hist ->
    (forall i, 0 <= i < 16 -> bucket_get hist i < 2 ^ Z.of_nat k) ->
    (k < fuel)%nat ->
    exists hist' (n : Z),
      hist_adjust_range_sample fuel hist = Ok hist' true /\
      valid_hist hist' /\ unit hist' = unit hist /\
      0 <= n /\ sample hist' = (sample hist + n) mod 16 /\
      needs_sample_adjust hist' = false.
Proof.
  induction k as [|k IH]; intros fuel hist Hv Hb Hfuel.
  - destruct fuel as [|fuel]; [lia|].
    assert (needs_sample_adjust hist = false) as Hn.
    { apply needs_sample_adjust_false. split.
      - pose proof (Hb 0). pose proof (Hb 1). simpl in *.
        pose proof (bucket_get_range hist 0). pose proof (bucket_get_range hist 1).
        change (bucket_maxcount 0) with 255. lia.
      - intros i Hi. pose proof (Hb (i + 1)). simpl in *.
        pose proof (bucket_get_range hist (i + 1)).
        rewrite bucket_maxcount_eq, bucket_bits_eq by lia.
        assert (2 ^ 1 <= 2 ^ (8 + i)) by (apply Z.pow_le_mono_r; lia). lia. }
    rewrite hist_adjust_range_sample_S, Hn. exists hist, 0.
    split; [done|]. split; [done|]. split; [done|]. split; [lia|].
    split; [|done]. destruct Hv as (Hs & _). rewrite Z.add_0_r, Z.mod_small; lia.
  - destruct fuel as [|fuel]; [lia|].
    rewrite hist_adjust_range_sample_S.
    destruct (needs_sample_adjust hist) eqn:Hn.
    + destruct (hist_adjust_sample_spec hist Hv) as (h1 & E & Hv1 & Hs1 & Hu1 & Hb1).
      simpl negb. cbv iota. rewrite E, bind_Ok.
      destruct (IH fuel h1 Hv1) as (h2 & n & E2 & Hv2 & Hu2 & Hn0 & Hs2 & Hn2).
      * intros i Hi. rewrite Hb1 by done.
        apply Z.div_lt_upper_bound; [lia|].
        specialize (Hb i Hi). rewrite Nat2Z.inj_succ, Z.pow_succ_r in Hb by lia. lia.
      * lia.
      * exists h2, (n + 1). rewrite E2. split; [done|]. split; [done|].
        split; [congruence|]. split; [lia|]. split; [|done].
        rewrite Hs2, Hs1, Zplus_mod_idemp_l. f_equal. lia.
    + exists hist, 0. split; [done|]. split; [done|]. split; [done|]. split; [lia|].
      split; [|done]. destruct Hv as (Hs & _). rewrite Z.add_0_r, Z.mod_small; lia.
Qed.

Lemma bucket_get_lt_2_23 hist i : 0 <= i < 16 -> bucket_get hist i < 2 ^ Z.of_nat 23.
Proof.
  intros Hi. pose proof (bucket_get_range hist i Hi) as Hr.
  rewrite bucket_bits_eq in Hr by done.
  assert (2 ^ (8 + i) <= 2 ^ Z.of_nat 23) by (apply Z.pow_le_mono_r; lia). lia.
Qed.

(** With too little fuel the inner loop is cut short, but it never fails. *)
Lemma hist_adjust_range_sample_cases (fuel : nat) :
  forall hist, valid_hist hist ->
    hist_adjust_range_sample fuel hist = OutOfFuel \/
    exists hist', hist_adjust_range_sample fuel hist = Ok hist' true /\
                  valid_hist hist' /\ unit hist' = unit hist.
Proof.
  induction fuel as [|fuel IH]; intros hist Hv; [by left|].
  rewrite hist_adjust_range_sample_S.
  destruct (needs_sample_adjust hist).
  - destruct (hist_adjust_sample_spec hist Hv) as (h1 & E & Hv1 & Hs1 & Hu1 & Hb1).
    simpl negb. cbv iota. rewrite E, bind_Ok.
    destruct (IH h1 Hv1) as [->|(h2 & -> & Hv2 & Hu2)]; [by left|].
    right. exists h2. split; [done|]. split; [done|congruence].
  - right. exists hist. done.
Qed.

Lemma hist_maxvalue_eq hist :
  0 <= unit hist -> hist_maxvalue hist = 2 ^ (unit hist + 15).
Proof.
  intros Hu. unfold hist_maxvalue, HISTOGRAM_BUCKETS.
  rewrite !Z.shiftl_1_l, Z.pow_add_r by lia. done.
Qed.

Lemma hist_maxvalue_le hist : 0 <= unit hist < 16 -> hist_maxvalue hist <= 2 ^ 30.
Proof.
  intros Hu. rewrite hist_maxvalue_eq by lia. apply Z.pow_le_mono_r; lia.
Qed.

Lemma int64_lt_float8_mono (z z' : Z) (v : float8) :
  z <= z' -> int64_lt_float8 z' v = true -> int64_lt_float8 z v = true.
Proof.
  intros Hz. destruct v as [q| | |]; simpl; try done.
  rewrite !negb_true_iff, <- !not_true_iff_false, !Qle_bool_iff.
  intros Hn Hq. apply Hn. eapply Qle_trans; [exact Hq|]. rewrite <- Zle_Qle. exact Hz.
Qed.

End Range.

(** C4: the outer loop of [hist_adjust_range] does not terminate when the
    value is above [2^30].  [hist_maxvalue] never exceeds [2^30], because the
    4-bit [unit] wraps around from 15 to 0, so the loop condition stays true:
    whatever the fuel, the run is still going when the fuel is used up.
    (The values concerned are the finite ones above [2^30] and [PosInf].) *)
Theorem hist_adjust_range_diverges (fuel : nat) (hist : tinyhist_t) (value : float8) :
  valid_hist hist ->
  int64_lt_float8 (2 ^ 30) value = true ->
  hist_adjust_range fuel hist value = OutOfFuel.
Proof.
  intros Hv Hbig. revert hist Hv.
  induction fuel as [|fuel IH]; intros hist Hv; [done|].
  rewrite hist_adjust_range_S.
  rewrite (int64_lt_float8_mono (hist_maxvalue hist) (2 ^ 30) value); [| |done].
  - destruct (hist_adjust_range_sample_cases fuel hist Hv) as [->|(h1 & -> & Hv1 & Hu1)];
      [done|].
    rewrite bind_Ok.
    destruct (hist_adjust_unit_spec h1 Hv1) as (h2 & ok & E & Hv2 & _).
    rewrite E, bind_Ok, (IH h2 Hv2). done.
  - apply hist_maxvalue_le. by destruct Hv as (_ & Hu & _).
Qed.

Lemma hist_adjust_range_diverges_witness :
  hist_adjust_range 1000 palloc0_tinyhist (Finite (inject_Z (2 ^ 31))) = OutOfFuel.
Proof.
  apply (hist_adjust_range_diverges 1000 palloc0_tinyhist (Finite (inject_Z (2 ^ 31)))).
  - unfold valid_hist. simpl. split; [lia|]. split; [lia|]. split; [reflexivity|].
    repeat constructor; lia.
  - vm_compute. reflexivity.
Defined.

(** C3: at [sample = 15] the claim fails.  With 200 in each of the first two
    buckets, making room for the value 40000 takes one halving of the
    counters, and the increment of the 4-bit [sample] field wraps around: the
    histogram that [hist_adjust_range] returns covers the value ([unit] went
    from 0 to 1), but its [sample] went down from 15 to 0.  The accumulator
    ([accum_value], with a draw that samples the value) goes through the same
    run. *)
Theorem hist_adjust_range_sample_wraps :
  (exists hist',
     hist_adjust_range 40 hist_sample15 (Finite (inject_Z 40000)) = Ok hist' true /\
     int64_lt_float8 (hist_maxvalue hist') (Finite (inject_Z 40000)) = false /\
     unit hist_sample15 = 0 /\ unit hist' = 1 /\
     sample hist_sample15 = 15 /\ sample hist' = 0) /\
  (exists hist',
     accum_value 40 hist_sample15 (Finite (inject_Z 40000)) 0 = Ok hist' true /\
     sample hist' = 0).
Proof.
  split.
  - eexists. split; [vm_compute; reflexivity|].
    repeat split; vm_compute; reflexivity.
  - eexists. split; vm_compute; reflexivity.
Qed.

(** ** Locating the bucket of a value *)

Section Index.

Lemma int64_lt_float8_Finite (z : Z) (q : Q) :
  int64_lt_float8 z (Finite q) = true <-> (inject_Z z < q)%Q.
Proof.
  simpl. rewrite negb_true_iff, <- not_true_iff_false, Qle_bool_iff. split.
  - apply Qnot_le_lt.
  - apply Qlt_not_le.
Qed.

Lemma int64_lt_float8_Finite_false (z : Z) (q : Q) :
  int64_lt_float8 z (Finite q) = false <-> (q <= inject_Z z)%Q.
Proof. simpl. by rewrite negb_false_iff, Qle_bool_iff. Qed.

Lemma bucket_index_loop_S fuel u value idx :
  bucket_index_loop (S fuel) u value idx =
  if int64_lt_float8 (Z.shiftl 1 idx * u) value
  then bucket_index_loop fuel u value (idx + 1)
  else mret idx.
Proof. reflexivity. Qed.

(** The loop stops at the first index whose upper bound reaches the value. *)
Lemma bucket_index_loop_spec (u : Z) (q : Q) :
  (q <= inject_Z (2 ^ 15 * u))%Q ->
  forall (n fuel : nat) (idx : Z),
    0 <= idx -> idx + Z.of_nat n = 15 -> (n < fuel)%nat ->
    (forall j, 0 <= j < idx -> (inject_Z (2 ^ j * u) < q)%Q) ->
    exists i,
      bucket_index_loop fuel u (Finite q) idx = Ok i true /\
      idx <= i <= 15 /\
      (q <= inject_Z (2 ^ i * u))%Q /\
      (forall j, 0 <= j < i -> (inject_Z (2 ^ j * u) < q)%Q).
Proof.
  intros Hmax. induction n as [|n IH]; intros fuel idx Hidx Hn Hfuel Hbelow.
  - destruct fuel as [|fuel]; [lia|]. rewrite bucket_index_loop_S.
    replace idx with 15 in * by lia.
    rewrite Z.shiftl_1_l.
    rewrite (proj2 (int64_lt_float8_Finite_false _ _) Hmax).
    exists 15. split; [done|]. split; [lia|]. split; done.
  - destruct fuel as [|fuel]; [lia|]. rewrite bucket_index_loop_S.
    rewrite Z.shiftl_1_l.
    destruct (int64_lt_float8 (2 ^ idx * u) (Finite q)) eqn:E.
    + apply int64_lt_float8_Finite in E.
      destruct (IH fuel (idx + 1)) as (i & Hrun & Hi & Hle & Hlt); [lia|lia|lia| |].
      * intros j Hj. destruct (Z.eq_dec j idx) as [->|Hne]; [done|].
        apply Hbelow. lia.
      * exists i. split; [done|]. split; [lia|]. split; done.
    + apply int64_lt_float8_Finite_false in E.
      exists idx. split; [done|]. split; [lia|]. split; done.
Qed.

Lemma bucket_upper_eq hist i :
  0 <= unit hist -> 0 <= i -> bucket_upper hist i = 2 ^ i * 2 ^ unit hist.
Proof.
  intros Hu Hi. unfold bucket_upper.
  rewrite Z.shiftl_1_l, Z.pow_add_r by lia. lia.
Qed.

Lemma bucket_lower_eq hist i :
  0 <= unit hist -> 0 < i -> bucket_lower hist i = bucket_upper hist (i - 1).
Proof.
  intros Hu Hi. unfold bucket_lower, bucket_upper.
  by rewrite (proj2 (Z.gtb_gt i 0)) by lia.
Qed.

Lemma bucket_upper_mono hist i j :
  0 <= unit hist -> 0 <= i <= j -> bucket_upper hist i <= bucket_upper hist j.
Proof.
  intros Hu Hij. unfold bucket_upper. rewrite !Z.shiftl_1_l.
  apply Z.pow_le_mono_r; lia.
Qed.

End Index.

(** C5, as stated, fails: the value 1 belongs to the half-open interval
    [[1, 2)] of bucket 1, but [bucket_index] puts it into bucket 0, whose
    half-open interval [[0, 1)] does not contain it. *)
Lemma bucket_index_upper_bound_inclusive :
  bucket_index 16 palloc0_tinyhist (Finite 1) = Ok 0 true /\
  bucket_lower palloc0_tinyhist 0 = 0 /\ bucket_upper palloc0_tinyhist 0 = 1 /\
  ~ ((inject_Z (bucket_lower palloc0_tinyhist 0) <= 1)%Q /\
     (1 < inject_Z (bucket_upper palloc0_tinyhist 0))%Q) /\
  ((inject_Z (bucket_lower palloc0_tinyhist 1) <= 1)%Q /\
   (1 < inject_Z (bucket_upper palloc0_tinyhist 1))%Q).
Proof.
  split; [vm_compute; reflexivity|].
  split; [reflexivity|]. split; [reflexivity|]. split.
  - intros [_ H]. vm_compute in H. discriminate.
  - split; [vm_compute; discriminate|vm_compute; reflexivity].
Qed.

(** C5, amended: for every histogram and every value [q] with
    [0 < q <= max_value], [bucket_index] returns (passing its assertions) the
    index [i] of the interval that is open below and closed above,
    [lower_i < q <= upper_i]; it is the only such index, and it is the
    smallest [i] such that [2^i * 2^unit >= q]. *)
Theorem bucket_index_spec (fuel : nat) (hist : tinyhist_t) (q : Q) :
  0 <= unit hist < 16 ->
  (0 < q)%Q -> (q <= inject_Z (hist_maxvalue hist))%Q ->
  (16 <= fuel)%nat ->
  exists i,
    bucket_index fuel hist (Finite q) = Ok i true /\
    0 <= i < 16 /\
    (inject_Z (bucket_lower hist i) < q)%Q /\
    (q <= inject_Z (bucket_upper hist i))%Q /\
    (forall j, 0 <= j -> (q <= inject_Z (2 ^ j * 2 ^ unit hist))%Q -> i <= j) /\
    (forall j, 0 <= j ->
       (inject_Z (bucket_lower hist j) < q)%Q ->
       (q <= inject_Z (bucket_upper hist j))%Q -> j = i).
Proof.
  intros Hu Hpos Hmax Hfuel.
  assert (hist_maxvalue hist = 2 ^ 15 * 2 ^ unit hist) as Hmv.
  { rewrite hist_maxvalue_eq, Z.pow_add_r by lia. lia. }
  destruct (bucket_index_loop_spec (2 ^ unit hist) q) with (n := 15%nat) (fuel := fuel) (idx := 0)
    as (i & Hrun & Hi & Hle & Hlt).
  - by rewrite <- Hmv.
  - lia.
  - lia.
  - lia.
  - intros j Hj. lia.
  - assert (forall j, 0 <= j -> (q <= inject_Z (2 ^ j * 2 ^ unit hist))%Q -> i <= j) as Hsmall.
    { intros j Hj Hq. destruct (Z.lt_ge_cases j i) as [Hji|]; [|lia].
      exfalso. apply (Qlt_not_le _ _ (Hlt j ltac:(lia))). exact Hq. }
    exists i. split.
    { unfold bucket_index, HISTOGRAM_BUCKETS. rewrite Z.shiftl_1_l.
      unfold Assert. rewrite bind_Ok, Hrun, !bind_Ok. cbn [mret result_ret].
      f_equal. simpl int64_ge_float8.
      rewrite (proj2 (Qle_bool_iff _ _) Hmax), (proj2 (Z.ltb_lt i 16)) by lia. done. }
    split; [lia|]. split; [|split; [|split; [exact Hsmall|]]].
    + destruct (Z.eq_dec i 0) as [->|Hne]; [exact Hpos|].
      rewrite bucket_lower_eq, bucket_upper_eq by lia. apply Hlt. lia.
    + rewrite bucket_upper_eq by lia. exact Hle.
    + intros j Hj Hlo Hup.
      rewrite bucket_upper_eq in Hup by lia.
      pose proof (Hsmall j Hj Hup) as Hij.
      destruct (Z.eq_dec j i) as [|Hne]; [done|]. exfalso.
      rewrite bucket_lower_eq in Hlo by lia.
      apply (Qlt_not_le _ _ Hlo). eapply Qle_trans; [exact Hle|].
      rewrite <- Zle_Qle, <- bucket_upper_eq by lia.
      apply bucket_upper_mono; lia.
Qed.

Lemma bucket_index_spec_witness :
  exists i,
    bucket_index 16 palloc0_tinyhist (Finite (5 # 2)) = Ok i true /\
    0 <= i < 16 /\
    (inject_Z (bucket_lower palloc0_tinyhist i) < 5 # 2)%Q /\
    (5 # 2 <= inject_Z (bucket_upper palloc0_tinyhist i))%Q /\
    (forall j, 0 <= j ->
       (5 # 2 <= inject_Z (2 ^ j * 2 ^ unit palloc0_tinyhist))%Q -> i <= j) /\
    (forall j, 0 <= j ->
       (inject_Z (bucket_lower palloc0_tinyhist j) < 5 # 2)%Q ->
       (5 # 2 <= inject_Z (bucket_upper palloc0_tinyhist j))%Q -> j = i).
Proof.
  apply (bucket_index_spec 16 palloc0_tinyhist (5 # 2)).
  - simpl. lia.
  - reflexivity.
  - vm_compute. discriminate.
  - lia.
Defined.

(** ** The accumulator keeps every counter within its capacity *)

Section Accumulate.

(** For a value that is not above [2^30], [hist_adjust_range] returns with
    enough fuel: no assertion fails, the histogram covers the value, [unit]
    did not decrease, and [sample] was incremented [n] times. *)
Lemma hist_adjust_range_spec (d : nat) :
  forall (fuel : nat) (hist : tinyhist_t) (value : float8),
    valid_hist hist ->
    int64_lt_float8 (2 ^ 30) value = false ->
    15 - unit hist <= Z.of_nat d -> (d + 24 < fuel)%nat ->
    exists hist' (n : Z),
      hist_adjust_range fuel hist value = Ok hist' true /\
      valid_hist hist' /\
      int64_lt_float8 (hist_maxvalue hist') value = false /\
      unit hist <= unit hist' /\
      0 <= n /\ sample hist' = (sample hist + n) mod 16.
Proof.
  induction d as [|d IH]; intros fuel hist value Hv Hsmall Hd Hfuel;
    (destruct fuel as [|fuel]; [lia|]); rewrite hist_adjust_range_S;
    pose proof Hv as (Hs & Hu & _);
    destruct (int64_lt_float8 (hist_maxvalue hist) value) eqn:Hc.
  - exfalso.
    assert (hist_maxvalue hist = 2 ^ 30) as Hm
      by (rewrite hist_maxvalue_eq by lia; f_equal; lia).
    rewrite Hm in Hc. congruence.
  - exists hist, 0. split; [reflexivity|]. split; [exact Hv|]. split; [exact Hc|].
    split; [lia|]. split; [lia|]. rewrite Z.add_0_r, Z.mod_small; lia.
  - assert (unit hist < 15) as Hu15.
    { destruct (Z.lt_ge_cases (unit hist) 15) as [|Hge]; [lia|]. exfalso.
      assert (hist_maxvalue hist = 2 ^ 30) as Hm
        by (rewrite hist_maxvalue_eq by lia; f_equal; lia).
      rewrite Hm in Hc. congruence. }
    destruct (hist_adjust_range_sample_spec 23 fuel hist Hv)
      as (h1 & n1 & E1 & Hv1 & Hu1 & Hn1 & Hs1 & Hstop); [|lia|].
    { intros i Hi. by apply bucket_get_lt_2_23. }
    rewrite E1, bind_Ok.
    destruct (hist_adjust_unit_spec h1 Hv1)
      as (h2 & ok2 & E2 & Hv2 & Hs2 & Hu2 & _ & _ & _ & Hok2).
    apply needs_sample_adjust_fits, Hok2 in Hstop. subst ok2.
    rewrite E2, bind_Ok.
    assert (unit h2 = unit hist + 1) as Hu2'.
    { rewrite Hu2, Hu1. apply Z.mod_small. lia. }
    destruct (IH fuel h2 value Hv2 Hsmall) as (h3 & n3 & E3 & Hv3 & Hc3 & Hu3 & Hn3 & Hs3);
      [lia|lia|].
    exists h3, (n1 + n3). rewrite E3. split; [reflexivity|]. split; [exact Hv3|].
    split; [exact Hc3|]. split; [lia|]. split; [lia|].
    rewrite Hs3, Hs2, Hs1, Zplus_mod_idemp_l. f_equal. lia.
  - exists hist, 0. split; [reflexivity|]. split; [exact Hv|]. split; [exact Hc|].
    split; [lia|]. split; [lia|]. rewrite Z.add_0_r, Z.mod_small; lia.
Qed.

(** [bucket_index] of a value that the histogram covers is a bucket index. *)
Lemma bucket_index_range (fuel : nat) (hist : tinyhist_t) (q : Q) :
  0 <= unit hist < 16 ->
  (q <= inject_Z (hist_maxvalue hist))%Q -> (16 <= fuel)%nat ->
  exists i, bucket_index fuel hist (Finite q) = Ok i true /\ 0 <= i < 16.
Proof.
  intros Hu Hmax Hfuel.
  assert (hist_maxvalue hist = 2 ^ 15 * 2 ^ unit hist) as Hmv.
  { rewrite hist_maxvalue_eq, Z.pow_add_r by lia. lia. }
  destruct (bucket_index_loop_spec (2 ^ unit hist) q) with (n := 15%nat) (fuel := fuel) (idx := 0)
    as (i & Hrun & Hi & _); [by rewrite <- Hmv|lia|lia|lia|intros j Hj; lia|].
  exists i. split; [|lia].
  unfold bucket_index, HISTOGRAM_BUCKETS. rewrite Z.shiftl_1_l.
  unfold Assert. rewrite bind_Ok, Hrun, !bind_Ok. cbn [mret result_ret].
  f_equal. simpl int64_ge_float8.
  rewrite (proj2 (Qle_bool_iff _ _) Hmax), (proj2 (Z.ltb_lt i 16)) by lia. reflexivity.
Qed.

(** Accumulating a finite value that is not above [2^30] fails no
    assertion, whatever [random()] returns: no counter is ever set to a
    value at or above its capacity. *)
Lemma accum_value_spec (fuel : nat) (state : tinyhist_t) (q : Q) (r : Z) :
  valid_hist state -> (q <= inject_Z (2 ^ 30))%Q -> (40 <= fuel)%nat ->
  exists state', accum_value fuel state (Finite q) r = Ok state' true /\ valid_hist state'.
Proof.
  intros Hv Hq Hfuel. unfold accum_value.
  destruct (hist_sample state r); [|exists state; split; [reflexivity|exact Hv]].
  destruct (hist_adjust_range_spec 15 fuel state (Finite q) Hv)
    as (h1 & n & E1 & Hv1 & Hc1 & _); [|destruct Hv as (_ & ? & _); lia|lia|].
  { by apply int64_lt_float8_Finite_false. }
  rewrite E1, bind_Ok.
  apply int64_lt_float8_Finite_false in Hc1.
  destruct (bucket_index_range fuel h1 q) as (i & Ei & Hi);
    [by destruct Hv1 as (_ & ? & _)|exact Hc1|lia|].
  rewrite Ei, bind_Ok.
  pose proof (bucket_get_range h1 i Hi) as Hr.
  assert (1 < 2 ^ (bucket_bits !!! Z.to_nat i)) as Hbig.
  { rewrite bucket_bits_eq by exact Hi.
    assert (2 ^ 1 <= 2 ^ (8 + i)) by (apply Z.pow_le_mono_r; lia). lia. }
  destruct (Z.eqb_spec (bucket_get h1 i) (bucket_maxcount i)) as [Hfull|Hroom].
  - destruct (hist_adjust_sample_spec h1 Hv1) as (h2 & E2 & Hv2 & _ & _ & Hb2).
    rewrite E2, bind_Ok.
    destruct (bucket_set_spec h2 i (bucket_get h2 i + 1) Hv2 Hi) as (h3 & E3 & Hv3 & _).
    exists h3. split; [|exact Hv3]. rewrite E3. f_equal.
    rewrite Hb2 by exact Hi. cbn [andb]. apply Z.ltb_lt.
    assert (bucket_get h1 i / 2 < bucket_get h1 i)
      by (apply Z.div_lt; rewrite ?Hfull, ?bucket_maxcount_eq by exact Hi; lia).
    lia.
  - rewrite bind_ret.
    destruct (bucket_set_spec h1 i (bucket_get h1 i + 1) Hv1 Hi) as (h3 & E3 & Hv3 & _).
    exists h3. split; [|exact Hv3]. rewrite E3. f_equal. cbn [andb]. apply Z.ltb_lt.
    rewrite bucket_maxcount_eq in Hroom by exact Hi. lia.
Qed.

End Accumulate.

(** ** Merging two histograms *)

Section Merge.

Lemma combine_raise_sample_S fuel hist sample_ :
  combine_raise_sample (S fuel) hist sample_ =
  if sample hist <? sample_ then
    hist ← hist_adjust_sample hist; combine_raise_sample fuel hist sample_
  else mret hist.
Proof. reflexivity. Qed.

Lemma combine_raise_unit_S fuel hist unit_ :
  combine_raise_unit (S fuel) hist unit_ =
  if unit hist <? unit_ then
    hist ← hist_adjust_unit hist; combine_raise_unit fuel hist unit_
  else mret hist.
Proof. reflexivity. Qed.

(** Raising the sample exponent to [sample_]: the counters are halved
    [sample_ - sample hist] times, [unit] is not touched. *)
Lemma combine_raise_sample_spec (n : nat) :
  forall (fuel : nat) (hist : tinyhist_t) (sample_ : Z),
    valid_hist hist ->
    sample hist <= sample_ < 16 -> sample_ - sample hist = Z.of_nat n ->
    (n < fuel)%nat ->
    exists hist',
      combine_raise_sample fuel hist sample_ = Ok hist' true /\
      valid_hist hist' /\ sample hist' = sample_ /\ unit hist' = unit hist /\
      (forall i, 0 <= i < 16 ->
         bucket_get hist' i = bucket_get hist i / 2 ^ (sample_ - sample hist)).
Proof.
  induction n as [|n IH]; intros fuel hist sample_ Hv Hs Hn Hfuel;
    (destruct fuel as [|fuel]; [lia|]); rewrite combine_raise_sample_S.
  - rewrite (proj2 (Z.ltb_ge _ _)) by lia. exists hist.
    split; [done|]. split; [done|]. split; [lia|]. split; [done|].
    intros i Hi. replace (sample_ - sample hist) with 0 by lia.
    by rewrite Z.div_1_r.
  - rewrite (proj2 (Z.ltb_lt _ _)) by lia.
    destruct (hist_adjust_sample_spec hist Hv) as (h1 & E & Hv1 & Hs1 & Hu1 & Hb1).
    rewrite E, bind_Ok.
    assert (sample h1 = sample hist + 1) as Hs1'.
    { rewrite Hs1. apply Z.mod_small. destruct Hv as (? & _). lia. }
    destruct (IH fuel h1 sample_ Hv1) as (h2 & E2 & Hv2 & Hs2 & Hu2 & Hb2);
      [lia|lia|lia|].
    exists h2. rewrite E2. split; [done|]. split; [done|]. split; [done|].
    split; [congruence|].
    intros i Hi. rewrite Hb2, Hb1 by done.
    rewrite Z.div_div by (try apply Z.pow_pos_nonneg; lia).
    f_equal. rewrite <- Z.pow_succ_r by lia. f_equal. lia.
Qed.

(** Raising the unit exponent to [unit_]: [sample] is not touched.  Whether
    the assertions hold depends on the counters. *)
Lemma combine_raise_unit_spec (n : nat) :
  forall (fuel : nat) (hist : tinyhist_t) (unit_ : Z),
    valid_hist hist ->
    unit hist <= unit_ < 16 -> unit_ - unit hist = Z.of_nat n ->
    (n < fuel)%nat ->
    exists hist' ok,
      combine_raise_unit fuel hist unit_ = Ok hist' ok /\
      valid_hist hist' /\ unit hist' = unit_ /\ sample hist' = sample hist.
Proof.
  induction n as [|n IH]; intros fuel hist unit_ Hv Hu Hn Hfuel;
    (destruct fuel as [|fuel]; [lia|]); rewrite combine_raise_unit_S.
  - rewrite (proj2 (Z.ltb_ge _ _)) by lia. exists hist, true.
    split; [done|]. split; [done|]. split; [lia|done].
  - rewrite (proj2 (Z.ltb_lt _ _)) by lia.
    destruct (hist_adjust_unit_spec hist Hv) as (h1 & ok1 & E & Hv1 & Hs1 & Hu1 & _).
    rewrite E, bind_Ok.
    assert (unit h1 = unit hist + 1) as Hu1'.
    { rewrite Hu1. apply Z.mod_small. destruct Hv as (_ & ? & _). lia. }
    destruct (IH fuel h1 unit_ Hv1) as (h2 & ok2 & E2 & Hv2 & Hu2 & Hs2);
      [lia|lia|lia|].
    exists h2, (true && (ok1 && ok2)). rewrite E2. split; [by destruct ok1, ok2|].
    split; [done|]. split; [done|congruence].
Qed.

(** After the check, every sum fits its bucket: one halving is enough,
    because both summands are below the capacity of the bucket. *)
Lemma combine_check_spec (src dst : tinyhist_t) :
  valid_hist src -> valid_hist dst ->
  exists src' dst',
    combine_check src dst = Ok (src', dst') true /\
    valid_hist src' /\ valid_hist dst' /\
    unit src' = unit src /\ unit dst' = unit dst /\
    (forall i, 0 <= i < 16 ->
       bucket_get src' i + bucket_get dst' i <= bucket_maxcount i).
Proof.
  intros Hvs Hvd. unfold combine_check, HISTOGRAM_BUCKETS.
  destruct (existsb _ _) eqn:E.
  - destruct (hist_adjust_sample_spec src Hvs) as (s1 & Es & Hvs1 & _ & Hus1 & Hbs1).
    destruct (hist_adjust_sample_spec dst Hvd) as (d1 & Ed & Hvd1 & _ & Hud1 & Hbd1).
    rewrite Es, bind_Ok, Ed, bind_Ok. exists s1, d1.
    split; [done|]. split; [done|]. split; [done|]. split; [done|]. split; [done|].
    intros i Hi. rewrite Hbs1, Hbd1, bucket_maxcount_eq by done.
    pose proof (bucket_get_range src i Hi). pose proof (bucket_get_range dst i Hi).
    assert (0 < bucket_bits !!! Z.to_nat i) as Hbits by (rewrite bucket_bits_eq; lia).
    assert (2 ^ (bucket_bits !!! Z.to_nat i) = 2 * 2 ^ (bucket_bits !!! Z.to_nat i - 1)) as Hp.
    { rewrite <- Z.pow_succ_r by lia. f_equal. lia. }
    assert (bucket_get src i / 2 < 2 ^ (bucket_bits !!! Z.to_nat i - 1))
      by (apply Z.div_lt_upper_bound; lia).
    assert (bucket_get dst i / 2 < 2 ^ (bucket_bits !!! Z.to_nat i - 1))
      by (apply Z.div_lt_upper_bound; lia).
    lia.
  - exists src, dst.
    split; [done|]. split; [done|]. split; [done|]. split; [done|]. split; [done|].
    intros i Hi.
    destruct (Z.gtb_spec (bucket_get src i + bucket_get dst i) (bucket_maxcount i))
      as [Hgt|]; [|lia].
    exfalso. apply not_true_iff_false in E. apply E, existsb_exists.
    exists i. split.
    + apply list_elem_of_In, elem_of_for_range. lia.
    + apply Z.gtb_gt. lia.
Qed.

(** The final loop stores the sums; it asserts nothing false when they fit. *)
Lemma combine_merge_spec (src dst : tinyhist_t) :
  valid_hist src -> valid_hist dst ->
  (forall i, 0 <= i < 16 -> bucket_get src i + bucket_get dst i <= bucket_maxcount i) ->
  exists result,
    combine_merge src dst = Ok result true /\
    valid_hist result /\ sample result = sample dst /\ unit result = unit dst /\
    (forall i, 0 <= i < 16 -> bucket_get result i = bucket_get src i + bucket_get dst i).
Proof.
  intros Hvs Hvd Hfit. unfold combine_merge, HISTOGRAM_BUCKETS.
  destruct (for_range_rule
    (fun k h ok => ok = true /\ valid_hist h /\ sample h = sample dst /\
                   unit h = unit dst /\
                   (forall j, 0 <= j < k ->
                      bucket_get h j = bucket_get src j + bucket_get dst j) /\
                   (forall j, k <= j < 16 -> bucket_get h j = bucket_get dst j))
    0 16 (fun i h => bucket_set h i (bucket_get src i + bucket_get h i)) dst)
    as (r & ok & Hrun & -> & Hv & Hs & Hu & Hlow & _).
  - lia.
  - split; [done|]. split; [done|]. split; [done|]. split; [done|].
    split; [intros j Hj; lia|done].
  - intros k h ok Hk (-> & Hvh & Hsh & Huh & Hlo & Hhi).
    destruct (bucket_set_spec h k (bucket_get src k + bucket_get h k) Hvh Hk)
      as (h1 & E & Hv1 & Hs1 & Hu1 & Hsame & Hother).
    pose proof (Hfit k Hk) as Hfk. rewrite bucket_maxcount_eq in Hfk by done.
    pose proof (bucket_get_range src k Hk). pose proof (bucket_get_range dst k Hk).
    rewrite (Hhi k) in E, Hsame by lia.
    exists h1, true. split.
    { rewrite (Hhi k) by lia. rewrite E. f_equal. apply Z.ltb_lt. lia. }
    split; [done|]. split; [done|]. split; [congruence|]. split; [congruence|].
    split.
    + intros j Hj. destruct (Z.eq_dec j k) as [->|Hne].
      * rewrite Hsame. apply Z.mod_small. lia.
      * rewrite Hother by lia. apply Hlo. lia.
    + intros j Hj. rewrite Hother by lia. apply Hhi. lia.
  - exists r. split; [exact Hrun|]. split; [exact Hv|]. split; [exact Hs|].
    split; [exact Hu|exact Hlow].
Qed.

Lemma hist_maxvalue_max (a b : tinyhist_t) (u : Z) :
  0 <= unit a -> 0 <= unit b ->
  u = Z.max (unit b) (unit a) ->
  2 ^ (u + 15) = Z.max (hist_maxvalue a) (hist_maxvalue b).
Proof.
  intros Ha Hb ->. rewrite !hist_maxvalue_eq by done.
  destruct (Z.le_ge_cases (unit a) (unit b)) as [Hle|Hle].
  - rewrite (Z.max_l (unit b)), Z.max_r by (try apply Z.pow_le_mono_r; lia). done.
  - rewrite (Z.max_r (unit b)), Z.max_l by (try apply Z.pow_le_mono_r; lia). done.
Qed.

End Merge.

(** C6: in [tinyhist_combine] the sample equalization is complete before
    the unit equalization starts.  The first block brings both histograms to
    the larger [sample] without touching [unit], passing every assertion; the
    second block then brings both to the larger [unit] and leaves the
    equalized [sample] in place; the check and the final loop follow and pass
    their assertions.  The [hist_maxvalue] of the merged histogram is the
    maximum of those of the two inputs. *)
Theorem tinyhist_combine_order (fuel : nat) (src dst : tinyhist_t) :
  valid_hist src -> valid_hist dst -> (16 <= fuel)%nat ->
  exists src1 dst1 src2 dst2 src3 dst3 ok result,
    combine_equalize_sample fuel src dst = Ok (src1, dst1) true /\
    sample src1 = Z.max (sample src) (sample dst) /\
    sample dst1 = Z.max (sample src) (sample dst) /\
    unit src1 = unit src /\ unit dst1 = unit dst /\
    combine_equalize_unit fuel src1 dst1 = Ok (src2, dst2) ok /\
    sample src2 = Z.max (sample src) (sample dst) /\
    sample dst2 = Z.max (sample src) (sample dst) /\
    unit src2 = Z.max (unit src) (unit dst) /\
    unit dst2 = Z.max (unit src) (unit dst) /\
    combine_check src2 dst2 = Ok (src3, dst3) true /\
    combine_merge src3 dst3 = Ok result true /\
    tinyhist_combine fuel true (Some dst) src = Ok result ok /\
    hist_maxvalue result = Z.max (hist_maxvalue dst) (hist_maxvalue src).
Proof.
  intros Hvs Hvd Hfuel.
  pose proof Hvs as (Hss & Hus & _). pose proof Hvd as (Hsd & Hud & _).
  set (sample_ := Z.max (sample src) (sample dst)).
  set (unit_ := Z.max (unit src) (unit dst)).
  (* lines 611-617 *)
  destruct (combine_raise_sample_spec (Z.to_nat (sample_ - sample src)) fuel src sample_)
    as (s1 & Es1 & Hvs1 & Hss1 & Hus1 & _); [done|lia|lia|lia|].
  destruct (combine_raise_sample_spec (Z.to_nat (sample_ - sample dst)) fuel dst sample_)
    as (d1 & Ed1 & Hvd1 & Hsd1 & Hud1 & _); [done|lia|lia|lia|].
  (* lines 619-628 *)
  destruct (combine_raise_unit_spec (Z.to_nat (unit_ - unit s1)) fuel s1 unit_)
    as (s2 & oks & Es2 & Hvs2 & Hus2 & Hss2); [done|lia|lia|lia|].
  destruct (combine_raise_unit_spec (Z.to_nat (unit_ - unit d1)) fuel d1 unit_)
    as (d2 & okd & Ed2 & Hvd2 & Hud2 & Hsd2); [done|lia|lia|lia|].
  (* lines 634-661 *)
  destruct (combine_check_spec s2 d2 Hvs2 Hvd2)
    as (s3 & d3 & Ec & Hvs3 & Hvd3 & Hus3 & Hud3 & Hfit).
  destruct (combine_merge_spec s3 d3 Hvs3 Hvd3 Hfit) as (r & Em & Hvr & Hsr & Hur & _).
  assert (combine_equalize_sample fuel src dst = Ok (s1, d1) true) as E1.
  { unfold combine_equalize_sample. fold sample_. rewrite Es1, bind_Ok, Ed1, bind_Ok. done. }
  assert (combine_equalize_unit fuel s1 d1 = Ok (s2, d2) (oks && okd)) as E2.
  { unfold combine_equalize_unit. rewrite Hus1, Hud1. fold unit_.
    rewrite Es2, bind_Ok, Ed2, bind_Ok. unfold Assert. rewrite !bind_Ok.
    cbn [mret result_ret]. f_equal.
    rewrite (proj2 (Z.eqb_eq (sample s2) (sample d2))) by congruence.
    rewrite (proj2 (Z.eqb_eq (unit s2) (unit d2))) by congruence.
    by destruct oks, okd. }
  exists s1, d1, s2, d2, s3, d3, (oks && okd), r.
  split; [exact E1|]. split; [done|]. split; [done|]. split; [done|]. split; [done|].
  split; [exact E2|].
  split; [congruence|]. split; [congruence|]. split; [done|]. split; [done|].
  split; [exact Ec|]. split; [exact Em|]. split.
  - unfold tinyhist_combine. cbn [negb].
    rewrite E1, bind_Ok, E2, bind_Ok, Ec, bind_Ok, Em.
    f_equal. by destruct oks, okd.
  - rewrite (hist_maxvalue_eq r) by (destruct Hvr as (_ & ? & _); lia).
    rewrite Hur, Hud3, Hud2. apply hist_maxvalue_max; [lia|lia|done].
Qed.

Lemma tinyhist_combine_order_witness :
  exists src1 dst1 src2 dst2 src3 dst3 ok result,
    combine_equalize_sample 16 hist_sample15 hist_200_200 = Ok (src1, dst1) true /\
    sample src1 = Z.max (sample hist_sample15) (sample hist_200_200) /\
    sample dst1 = Z.max (sample hist_sample15) (sample hist_200_200) /\
    unit src1 = unit hist_sample15 /\ unit dst1 = unit hist_200_200 /\
    combine_equalize_unit 16 src1 dst1 = Ok (src2, dst2) ok /\
    sample src2 = Z.max (sample hist_sample15) (sample hist_200_200) /\
    sample dst2 = Z.max (sample hist_sample15) (sample hist_200_200) /\
    unit src2 = Z.max (unit hist_sample15) (unit hist_200_200) /\
    unit dst2 = Z.max (unit hist_sample15) (unit hist_200_200) /\
    combine_check src2 dst2 = Ok (src3, dst3) true /\
    combine_merge src3 dst3 = Ok result true /\
    tinyhist_combine 16 true (Some hist_200_200) hist_sample15 = Ok result ok /\
    hist_maxvalue result = Z.max (hist_maxvalue hist_200_200) (hist_maxvalue hist_sample15).
Proof.
  apply (tinyhist_combine_order 16 hist_sample15 hist_200_200).
  - unfold valid_hist. simpl. split; [lia|]. split; [lia|]. split; [reflexivity|].
    repeat constructor; lia.
  - unfold valid_hist. simpl. split; [lia|]. split; [lia|]. split; [reflexivity|].
    repeat constructor; lia.
  - lia.
Defined.

(** ** Reachable histograms *)

(** C2: the unit equalization of [tinyhist_combine] sets a bucket to a value
    above its capacity.  Accumulating the value 1 two hundred times and the
    value 2 two hundred times gives [hist_200_200], and accumulating 40000
    gives a histogram with [unit = 1]; no assertion fails on the way.  Merging
    the two calls [hist_adjust_unit] on the first one, which has no check of
    the counters before it (as [hist_adjust_range] has): it sets the 8-bit
    bucket 0 to 200 + 200 = 400.  The assertion of [bucket_set] fails, and
    without assertion checking the merged bucket 0 holds 144: of the 401
    values counted, 145 remain. *)
Theorem tinyhist_combine_overflows :
  accumulate 20 None (replicate 200 (Finite (inject_Z 1)) ++
                      replicate 200 (Finite (inject_Z 2)))
    = Ok (Some hist_200_200) true /\
  exists src,
    accumulate 20 None [Finite (inject_Z 40000)] = Ok (Some src) true /\
    unit hist_200_200 = 0 /\ unit src = 1 /\
    bucket_get hist_200_200 0 + bucket_get hist_200_200 1 = 400 /\
    bucket_maxcount 0 = 255 /\
    (exists hist', hist_adjust_unit hist_200_200 = Ok hist' false) /\
    exists result,
      tinyhist_combine 20 true (Some hist_200_200) src = Ok result false /\
      bucket_get result 0 = 144 /\
      foldr Z.add 0 (buckets result) = 145.
Proof.
  split; [vm_compute; reflexivity|].
  eexists. split; [vm_compute; reflexivity|].
  split; [reflexivity|]. split; [reflexivity|].
  split; [vm_compute; reflexivity|]. split; [reflexivity|].
  split; [eexists; vm_compute; reflexivity|].
  eexists. split; [vm_compute; reflexivity|].
  split; vm_compute; reflexivity.
Qed.

(** ** The text representation *)

Section Text.

(** [sscanf] assigns at most one item per conversion specification. *)
Lemma scan_length (ds : list directive) :
  forall (s : list ascii) (args : list Z),
    (length (scan ds s args).1 <= length args + length (filter is_conversion ds))%nat.
Proof.
  induction ds as [|d ds IH]; intros s args; [simpl; lia|].
  destruct d as [c|c| |]; simpl.
  - destruct s as [|c' s']; [simpl; lia|].
    destruct (Ascii.eqb c c'); [apply IH|simpl; lia].
  - apply IH.
  - destruct (scan_integer s) as [[]|[v s']]; [simpl; lia|simpl; lia|].
    etransitivity; [apply IH|]. rewrite length_app. simpl. lia.
  - destruct (scan_integer s) as [[]|[v s']]; [simpl; lia|simpl; lia|].
    etransitivity; [apply IH|]. rewrite length_app. simpl. lia.
Qed.

(** The format has 18 conversion specifications, so [sscanf] returns at most
    18. *)
Lemma sscanf_tinyhist_format_le (str : string) : (sscanf str tinyhist_format).1 <= 18.
Proof.
  unfold sscanf.
  pose proof (scan_length (parse_format (list_ascii_of_string tinyhist_format))
                (list_ascii_of_string str) []) as Hlen.
  change (length (filter is_conversion
            (parse_format (list_ascii_of_string tinyhist_format)))) with 18%nat in Hlen.
  destruct (scan _ _ _) as [args ended]. cbn [fst length] in *.
  destruct (ended && (Z.of_nat (length args) =? 0)); unfold EOF; lia.
Qed.

End Text.

(** C1: [tinyhist_in] rejects every string, the renderings of
    [tinyhist_out] included.  It compares the number of items that [sscanf]
    assigned with 32, and the format has 18 conversions: the rendering of the
    zero histogram has its 18 fields read back, and is rejected like any
    other input. *)
Theorem tinyhist_in_rejects_all :
  (forall str, tinyhist_in str = Raise "failed to parse tinyhist value") /\
  tinyhist_out palloc0_tinyhist = "{0, 0, 0, 0, 0, 0, 0, 0, 0, 0, 0, 0, 0, 0, 0, 0, 0, 0}"%string /\
  sscanf (tinyhist_out palloc0_tinyhist) tinyhist_format = (18, replicate 18 0) /\
  tinyhist_in (tinyhist_out palloc0_tinyhist) = Raise "failed to parse tinyhist value".
Proof.
  assert (forall str, tinyhist_in str = Raise "failed to parse tinyhist value") as Hall.
  { intros str. unfold tinyhist_in.
    pose proof (sscanf_tinyhist_format_le str) as Hle.
    destruct (sscanf str tinyhist_format) as [r args]. cbn [fst] in Hle.
    rewrite (proj2 (Z.eqb_neq r 32)) by lia. reflexivity. }
  split; [exact Hall|]. split; [vm_compute; reflexivity|].
  split; [vm_compute; reflexivity|apply Hall].
Qed.

(** ** The buffer holds the sixteen counters and nothing else *)

Section Extensionality.

(** Every bit of the 31 bytes belongs to one of the sixteen ranges. *)
Lemma bucket_of_bit (p : Z) :
  0 <= p < 248 ->
  exists i, 0 <= i < 16 /\
    bucket_offset !!! Z.to_nat i <= p < bucket_offset !!! Z.to_nat i + bucket_bits !!! Z.to_nat i.
Proof.
  intros Hp.
  assert (0 <= p < 8 \/
    8 <= p < 17 \/
    17 <= p < 27 \/
    27 <= p < 38 \/
    38 <= p < 50 \/
    50 <= p < 63 \/
    63 <= p < 77 \/
    77 <= p < 92 \/
    92 <= p < 108 \/
    108 <= p < 125 \/
    125 <= p < 143 \/
    143 <= p < 162 \/
    162 <= p < 182 \/
    182 <= p < 203 \/
    203 <= p < 225 \/
    225 <= p < 248) as Hc by lia.
  destruct Hc as [H|[H|[H|[H|[H|[H|[H|[H|[H|[H|[H|[H|[H|[H|[H|[H]]]]]]]]]]]]]]]];
    [exists 0; split; [lia|simpl; lia]|exists 1; split; [lia|simpl; lia]|exists 2; split; [lia|simpl; lia]|exists 3; split; [lia|simpl; lia]|exists 4; split; [lia|simpl; lia]|exists 5; split; [lia|simpl; lia]|exists 6; split; [lia|simpl; lia]|exists 7; split; [lia|simpl; lia]|exists 8; split; [lia|simpl; lia]|exists 9; split; [lia|simpl; lia]|exists 10; split; [lia|simpl; lia]|exists 11; split; [lia|simpl; lia]|exists 12; split; [lia|simpl; lia]|exists 13; split; [lia|simpl; lia]|exists 14; split; [lia|simpl; lia]|exists 15; split; [lia|simpl; lia]].
Qed.

Lemma getbit_bucket_get hist i k :
  0 <= i < 16 -> 0 <= k < bucket_bits !!! Z.to_nat i ->
  getbit (data hist) (bucket_offset !!! Z.to_nat i + k) = Z.testbit (bucket_get hist i) k.
Proof.
  intros Hi Hk. rewrite bucket_get_read by exact Hi.
  rewrite testbit_read_bits by lia.
  rewrite (proj2 (Z.ltb_lt _ _)) by lia. reflexivity.
Qed.

Lemma testbit_byte_high (b k : Z) : 0 <= b < 256 -> 8 <= k -> Z.testbit b k = false.
Proof.
  intros Hb Hk. destruct (Z.eq_dec b 0) as [->|Hnz]; [apply Z.bits_0|].
  apply Z.bits_above_log2; [lia|].
  assert (Z.log2 b < 8) by (apply Z.log2_lt_pow2; lia). lia.
Qed.

Lemma hist_ext (h1 h2 : tinyhist_t) :
  valid_hist h1 -> valid_hist h2 ->
  sample h1 = sample h2 -> unit h1 = unit h2 ->
  (forall i, 0 <= i < 16 -> bucket_get h1 i = bucket_get h2 i) ->
  h1 = h2.
Proof.
  intros (_ & _ & Hl1 & Hb1) (_ & _ & Hl2 & Hb2) Hs Hu Hb.
  destruct h1 as [s1 u1 d1], h2 as [s2 u2 d2]. cbn [sample unit data] in *.
  subst s2 u2. f_equal.
  apply list_eq. intros n.
  destruct (decide (n < 31)%nat) as [Hn|Hn].
  - destruct (lookup_lt_is_Some_2 d1 n) as [b1 E1]; [lia|].
    destruct (lookup_lt_is_Some_2 d2 n) as [b2 E2]; [lia|].
    rewrite E1, E2. f_equal.
    pose proof (Forall_lookup_1 _ _ _ _ Hb1 E1) as Hr1.
    pose proof (Forall_lookup_1 _ _ _ _ Hb2 E2) as Hr2.
    cbv beta in Hr1, Hr2.
    apply Z.bits_inj'. intros k Hk.
    destruct (Z.lt_ge_cases k 8) as [Hk8|Hk8].
    + destruct (bucket_of_bit (8 * Z.of_nat n + k)) as (i & Hi & Hp); [lia|].
      assert (forall d b, d !! n = Some b ->
                getbit d (8 * Z.of_nat n + k) = Z.testbit b k) as Hget.
      { intros d b E. unfold getbit.
        replace ((8 * Z.of_nat n + k) / 8) with (Z.of_nat n)
          by (apply Z.div_unique with k; lia).
        replace ((8 * Z.of_nat n + k) mod 8) with k
          by (apply Z.mod_unique with (Z.of_nat n); lia).
        rewrite Nat2Z.id. by rewrite (list_lookup_total_correct _ _ _ E). }
      rewrite <- (Hget d1 b1 E1), <- (Hget d2 b2 E2).
      replace (8 * Z.of_nat n + k)
        with (bucket_offset !!! Z.to_nat i + (8 * Z.of_nat n + k - bucket_offset !!! Z.to_nat i))
        by lia.
      assert (0 <= 8 * Z.of_nat n + k - bucket_offset !!! Z.to_nat i
                < bucket_bits !!! Z.to_nat i) as Hj by (clear -Hp; lia).
      pose proof (getbit_bucket_get (mk_tinyhist s1 u1 d1) i _ Hi Hj) as G1.
      pose proof (getbit_bucket_get (mk_tinyhist s1 u1 d2) i _ Hi Hj) as G2.
      cbn [data] in G1, G2. rewrite G1, G2, (Hb i Hi). reflexivity.
    + rewrite !testbit_byte_high by lia. reflexivity.
  - rewrite !lookup_ge_None_2 by lia. reflexivity.
Qed.

End Extensionality.

(** X3: a histogram is determined by what can be read from it.  Two values
    of the type with the same [sample], the same [unit] and the same sixteen
    decoded counters are the same 32 bytes. *)
Theorem tinyhist_extensional (h1 h2 : tinyhist_t) :
  valid_hist h1 -> valid_hist h2 ->
  sample h1 = sample h2 -> unit h1 = unit h2 ->
  (forall i, 0 <= i < 16 -> bucket_get h1 i = bucket_get h2 i) ->
  h1 = h2.
Proof. apply hist_ext. Qed.

Lemma tinyhist_extensional_witness :
  hist_200_200 = set_sample hist_sample15 0.
Proof.
  apply (tinyhist_extensional hist_200_200 (set_sample hist_sample15 0)).
  - unfold valid_hist. simpl. split; [lia|]. split; [lia|]. split; [reflexivity|].
    repeat constructor; lia.
  - unfold valid_hist. simpl. split; [lia|]. split; [lia|]. split; [reflexivity|].
    repeat constructor; lia.
  - reflexivity.
  - reflexivity.
  - intros i Hi. reflexivity.
Defined.

(** X1: round trip of the bit-field codec.  On a histogram of the type and
    a bucket index [i], [bucket_set] followed by [bucket_get] of the same
    bucket gives back the low [width[i]] bits of the count, and the count
    itself when it is within the capacity; the assertion of [bucket_set]
    holds exactly when the count is below [2^width[i]]. *)
Theorem bucket_set_get (hist : tinyhist_t) (i v : Z) :
  valid_hist hist -> 0 <= i < 16 ->
  exists hist',
    bucket_set hist i v = Ok hist' (v <? 2 ^ (bucket_bits !!! Z.to_nat i)) /\
    valid_hist hist' /\
    bucket_get hist' i = v mod 2 ^ (bucket_bits !!! Z.to_nat i) /\
    (0 <= v < 2 ^ (bucket_bits !!! Z.to_nat i) -> bucket_get hist' i = v).
Proof.
  intros Hv Hi.
  destruct (bucket_set_spec hist i v Hv Hi) as (h' & E & Hv' & _ & _ & Hsame & _).
  exists h'. split; [exact E|]. split; [exact Hv'|]. split; [exact Hsame|].
  intros Hr. rewrite Hsame. apply Z.mod_small. exact Hr.
Qed.

Lemma bucket_set_get_witness :
  exists hist',
    bucket_set hist_200_200 5 4321 = Ok hist' (4321 <? 2 ^ (bucket_bits !!! Z.to_nat 5)) /\
    valid_hist hist' /\
    bucket_get hist' 5 = 4321 mod 2 ^ (bucket_bits !!! Z.to_nat 5) /\
    (0 <= 4321 < 2 ^ (bucket_bits !!! Z.to_nat 5) -> bucket_get hist' 5 = 4321).
Proof.
  apply (bucket_set_get hist_200_200 5 4321).
  - unfold valid_hist. simpl. split; [lia|]. split; [lia|]. split; [reflexivity|].
    repeat constructor; lia.
  - lia.
Defined.

(** X2: whatever the 31 bytes hold, a decoded counter is between 0 and the
    capacity of its bucket. *)
Theorem bucket_get_capacity (hist : tinyhist_t) (i : Z) :
  0 <= i < 16 -> 0 <= bucket_get hist i <= bucket_maxcount i.
Proof.
  intros Hi. pose proof (bucket_get_range hist i Hi).
  rewrite bucket_maxcount_eq by exact Hi. lia.
Qed.

Lemma bucket_get_capacity_witness :
  0 <= bucket_get hist_200_200 1 <= bucket_maxcount 1.
Proof. apply (bucket_get_capacity hist_200_200 1). lia. Defined.

(** X4: [hist_adjust_sample] on any histogram of the type passes its
    assertions, replaces every counter by half of it rounded down, leaves
    [unit] alone, and increments [sample] modulo 16 (by exactly one below
    15). *)
Theorem hist_adjust_sample_halves (hist : tinyhist_t) :
  valid_hist hist ->
  exists hist',
    hist_adjust_sample hist = Ok hist' true /\
    valid_hist hist' /\
    (forall i, 0 <= i < 16 -> bucket_get hist' i = bucket_get hist i / 2) /\
    unit hist' = unit hist /\
    sample hist' = (sample hist + 1) mod 16 /\
    (sample hist < 15 -> sample hist' = sample hist + 1).
Proof.
  intros Hv. destruct (hist_adjust_sample_spec hist Hv) as (h' & E & Hv' & Hs & Hu & Hb).
  exists h'. split; [exact E|]. split; [exact Hv'|]. split; [exact Hb|].
  split; [exact Hu|]. split; [exact Hs|].
  intros Hlt. rewrite Hs. apply Z.mod_small. destruct Hv as (? & _). lia.
Qed.

Lemma hist_adjust_sample_halves_witness :
  exists hist',
    hist_adjust_sample hist_200_200 = Ok hist' true /\
    valid_hist hist' /\
    (forall i, 0 <= i < 16 -> bucket_get hist' i = bucket_get hist_200_200 i / 2) /\
    unit hist' = unit hist_200_200 /\
    sample hist' = (sample hist_200_200 + 1) mod 16 /\
    (sample hist_200_200 < 15 -> sample hist' = sample hist_200_200 + 1).
Proof.
  apply (hist_adjust_sample_halves hist_200_200).
  unfold valid_hist. simpl. split; [lia|]. split; [lia|]. split; [reflexivity|].
  repeat constructor; lia.
Defined.

(** X5: [hist_adjust_unit] on any histogram of the type.  Its assertions
    hold exactly when no write overflows ([unit_shift_fits]).  In every case
    the new bucket 0 holds the low 8 bits of the sum of the old buckets 0 and
    1, the new bucket [i] the low [width[i]] bits of the old bucket [i+1]
    for [i = 1..14] (one bit is lost when the old counter has its top bit
    set), the new bucket 15 is 0, [sample] is left alone and [unit] is
    incremented modulo 16. *)
Theorem hist_adjust_unit_truncates (hist : tinyhist_t) :
  valid_hist hist ->
  exists hist' ok,
    hist_adjust_unit hist = Ok hist' ok /\
    (ok = true <-> unit_shift_fits hist) /\
    valid_hist hist' /\
    bucket_get hist' 0 = (bucket_get hist 0 + bucket_get hist 1) mod 2 ^ 8 /\
    (forall i, 1 <= i <= 14 ->
       bucket_get hist' i = bucket_get hist (i + 1) mod 2 ^ (bucket_bits !!! Z.to_nat i)) /\
    bucket_get hist' 15 = 0 /\
    sample hist' = sample hist /\
    unit hist' = (unit hist + 1) mod 16.
Proof.
  intros Hv.
  destruct (hist_adjust_unit_spec hist Hv)
    as (h' & ok & E & Hv' & Hs & Hu & H0 & Hi & H15 & Hok).
  exists h', ok. split; [exact E|]. split; [exact Hok|]. split; [exact Hv'|].
  split; [exact H0|]. split; [exact Hi|]. split; [exact H15|]. split; [exact Hs|exact Hu].
Qed.

Lemma hist_adjust_unit_truncates_witness :
  exists hist' ok,
    hist_adjust_unit hist_200_200 = Ok hist' ok /\
    (ok = true <-> unit_shift_fits hist_200_200) /\
    valid_hist hist' /\
    bucket_get hist' 0 = (bucket_get hist_200_200 0 + bucket_get hist_200_200 1) mod 2 ^ 8 /\
    (forall i, 1 <= i <= 14 ->
       bucket_get hist' i =
       bucket_get hist_200_200 (i + 1) mod 2 ^ (bucket_bits !!! Z.to_nat i)) /\
    bucket_get hist' 15 = 0 /\
    sample hist' = sample hist_200_200 /\
    unit hist' = (unit hist_200_200 + 1) mod 16.
Proof.
  apply (hist_adjust_unit_truncates hist_200_200).
  unfold valid_hist. simpl. split; [lia|]. split; [lia|]. split; [reflexivity|].
  repeat constructor; lia.
Defined.

(** ** How far the range controller goes *)

Section RangeBounds.

Lemma counters_below_8 hist : counters_below 8 hist.
Proof.
  intros i Hi. pose proof (bucket_get_range hist i Hi) as Hr.
  rewrite bucket_bits_eq in Hr by exact Hi. lia.
Qed.

Lemma counters_below_half e hist hist' :
  1 <= e -> counters_below e hist ->
  (forall i, 0 <= i < 16 -> bucket_get hist' i = bucket_get hist i / 2) ->
  counters_below (e - 1) hist'.
Proof.
  intros He Hb Hh i Hi. rewrite Hh by exact Hi.
  apply Z.div_lt_upper_bound; [lia|].
  replace (2 * 2 ^ (e - 1 + i)) with (2 ^ (e + i)).
  - by apply Hb.
  - rewrite <- Z.pow_succ_r by lia. f_equal. lia.
Qed.

(** After two halvings the shift always fits. *)
Lemma counters_below_6_stop hist :
  counters_below 6 hist -> needs_sample_adjust hist = false.
Proof.
  intros Hb. apply needs_sample_adjust_false. split.
  - pose proof (Hb 0 ltac:(lia)) as H0. pose proof (Hb 1 ltac:(lia)) as H1.
    change (2 ^ (6 + 0)) with 64 in H0. change (2 ^ (6 + 1)) with 128 in H1.
    change (bucket_maxcount 0) with 255. lia.
  - intros i Hi. pose proof (Hb (i + 1) ltac:(lia)) as H1.
    rewrite bucket_maxcount_eq, bucket_bits_eq by lia.
    replace (6 + (i + 1)) with (7 + i) in H1 by lia.
    assert (2 ^ (8 + i) = 2 * 2 ^ (7 + i)) as Hp.
    { rewrite <- Z.pow_succ_r by lia. f_equal. lia. }
    assert (0 < 2 ^ (7 + i)) by (apply Z.pow_pos_nonneg; lia). lia.
Qed.

(** The inner loop of [hist_adjust_range] halves the counters at most
    twice.  On any histogram of the type it returns (three iterations of fuel
    are enough) without a failed assertion; [n], the number of calls of
    [hist_adjust_sample], is 0, 1 or 2; every counter has been divided by
    [2^n], [sample] incremented [n] times modulo 16, [unit] left alone, and
    the shift that follows cannot overflow. *)
Lemma hist_adjust_range_sample_le2 (fuel : nat) (hist : tinyhist_t) :
  valid_hist hist -> (3 <= fuel)%nat ->
  exists hist' n,
    hist_adjust_range_sample fuel hist = Ok hist' true /\
    0 <= n <= 2 /\
    valid_hist hist' /\
    (forall i, 0 <= i < 16 -> bucket_get hist' i = bucket_get hist i / 2 ^ n) /\
    sample hist' = (sample hist + n) mod 16 /\
    unit hist' = unit hist /\
    unit_shift_fits hist'.
Proof.
  intros Hv Hfuel.
  destruct fuel as [|[|[|fuel]]]; [lia|lia|lia|].
  pose proof Hv as (Hs & _).
  rewrite hist_adjust_range_sample_S.
  destruct (needs_sample_adjust hist) eqn:N0.
  2:{ exists hist, 0. split; [reflexivity|]. split; [lia|]. split; [exact Hv|].
      split; [intros i Hi; by rewrite Z.div_1_r|].
      split; [rewrite Z.add_0_r, Z.mod_small; lia|].
      split; [reflexivity|by apply needs_sample_adjust_fits]. }
  destruct (hist_adjust_sample_spec hist Hv) as (h1 & E1 & Hv1 & Hs1 & Hu1 & Hb1).
  cbn [negb]. rewrite E1, bind_Ok, hist_adjust_range_sample_S.
  destruct (needs_sample_adjust h1) eqn:N1.
  2:{ exists h1, 1. split; [reflexivity|]. split; [lia|]. split; [exact Hv1|].
      split; [intros i Hi; by rewrite Hb1|].
      split; [exact Hs1|]. split; [exact Hu1|by apply needs_sample_adjust_fits]. }
  destruct (hist_adjust_sample_spec h1 Hv1) as (h2 & E2 & Hv2 & Hs2 & Hu2 & Hb2).
  cbn [negb]. rewrite E2, bind_Ok, hist_adjust_range_sample_S.
  assert (needs_sample_adjust h2 = false) as N2.
  { apply counters_below_6_stop.
    apply (counters_below_half 7 h1 h2); [lia| |exact Hb2].
    apply (counters_below_half 8 hist h1); [lia|apply counters_below_8|exact Hb1]. }
  rewrite N2. exists h2, 2. split; [reflexivity|]. split; [lia|]. split; [exact Hv2|].
  split.
  { intros i Hi. rewrite Hb2, Hb1 by exact Hi. rewrite Z.div_div by lia. reflexivity. }
  split.
  { rewrite Hs2, Hs1, Zplus_mod_idemp_l. f_equal. lia. }
  split; [congruence|by apply needs_sample_adjust_fits].
Qed.

End RangeBounds.

(** X6: the inner loop of [hist_adjust_range] halves the counters at most
    twice.  On any histogram of the type it returns (three iterations of fuel
    are enough) without a failed assertion; [n], the number of calls of
    [hist_adjust_sample], is 0, 1 or 2; every counter has been divided by
    [2^n], [sample] incremented [n] times modulo 16, [unit] left alone, and
    the shift that follows cannot overflow. *)
Theorem hist_adjust_range_sample_twice (fuel : nat) (hist : tinyhist_t) :
  valid_hist hist -> (3 <= fuel)%nat ->
  exists hist' n,
    hist_adjust_range_sample fuel hist = Ok hist' true /\
    0 <= n <= 2 /\
    valid_hist hist' /\
    (forall i, 0 <= i < 16 -> bucket_get hist' i = bucket_get hist i / 2 ^ n) /\
    sample hist' = (sample hist + n) mod 16 /\
    unit hist' = unit hist /\
    unit_shift_fits hist'.
Proof. apply hist_adjust_range_sample_le2. Qed.

Lemma hist_adjust_range_sample_twice_witness :
  exists hist' n,
    hist_adjust_range_sample 3 hist_200_200 = Ok hist' true /\
    0 <= n <= 2 /\
    valid_hist hist' /\
    (forall i, 0 <= i < 16 -> bucket_get hist' i = bucket_get hist_200_200 i / 2 ^ n) /\
    sample hist' = (sample hist_200_200 + n) mod 16 /\
    unit hist' = unit hist_200_200 /\
    unit_shift_fits hist'.
Proof.
  apply (hist_adjust_range_sample_twice 3 hist_200_200).
  - unfold valid_hist. simpl. split; [lia|]. split; [lia|]. split; [reflexivity|].
    repeat constructor; lia.
  - lia.
Defined.

Section RangeTotal.

Lemma hist_adjust_range_covered fuel hist value :
  int64_lt_float8 (hist_maxvalue hist) value = false ->
  hist_adjust_range (S fuel) hist value = Ok hist true.
Proof. intros Hc. rewrite hist_adjust_range_S, Hc. reflexivity. Qed.

(** [hist_adjust_range] for a value that is not above [2^30]. *)
Lemma hist_adjust_range_full (d : nat) :
  forall (fuel : nat) (hist : tinyhist_t) (value : float8),
    valid_hist hist ->
    int64_lt_float8 (2 ^ 30) value = false ->
    15 - unit hist <= Z.of_nat d -> (d + 3 < fuel)%nat ->
    exists hist' (n : Z),
      hist_adjust_range fuel hist value = Ok hist' true /\
      valid_hist hist' /\
      int64_lt_float8 (hist_maxvalue hist') value = false /\
      unit hist <= unit hist' /\
      (unit hist < unit hist' ->
       int64_lt_float8 (2 ^ (unit hist' + 14)) value = true) /\
      0 <= n <= 2 * (unit hist' - unit hist) /\
      sample hist' = (sample hist + n) mod 16.
Proof.
  induction d as [|d IH]; intros fuel hist value Hv Hsmall Hd Hfuel;
    (destruct fuel as [|fuel]; [lia|]);
    pose proof Hv as (Hs & Hu & _);
    destruct (int64_lt_float8 (hist_maxvalue hist) value) eqn:Hc.
  - exfalso.
    assert (hist_maxvalue hist = 2 ^ 30) as Hm
      by (rewrite hist_maxvalue_eq by lia; f_equal; lia).
    rewrite Hm in Hc. congruence.
  - exists hist, 0. split; [by apply hist_adjust_range_covered|].
    split; [exact Hv|]. split; [exact Hc|]. split; [lia|]. split; [lia|].
    split; [lia|]. rewrite Z.add_0_r, Z.mod_small; lia.
  - assert (unit hist < 15) as Hu15.
    { destruct (Z.lt_ge_cases (unit hist) 15) as [|Hge]; [lia|]. exfalso.
      assert (hist_maxvalue hist = 2 ^ 30) as Hm
        by (rewrite hist_maxvalue_eq by lia; f_equal; lia).
      rewrite Hm in Hc. congruence. }
    rewrite hist_adjust_range_S, Hc.
    destruct (hist_adjust_range_sample_le2 fuel hist Hv)
      as (h1 & n1 & E1 & Hn1 & Hv1 & _ & Hs1 & Hu1 & Hfit); [lia|].
    rewrite E1, bind_Ok.
    destruct (hist_adjust_unit_spec h1 Hv1)
      as (h2 & ok2 & E2 & Hv2 & Hs2 & Hu2 & _ & _ & _ & Hok2).
    apply Hok2 in Hfit. subst ok2.
    rewrite E2, bind_Ok.
    assert (unit h2 = unit hist + 1) as Hu2'.
    { rewrite Hu2, Hu1. apply Z.mod_small. lia. }
    destruct (IH fuel h2 value Hv2 Hsmall)
      as (h3 & n3 & E3 & Hv3 & Hc3 & Hu3 & Hmin3 & Hn3 & Hs3); [lia|lia|].
    exists h3, (n1 + n3). rewrite E3. split; [reflexivity|]. split; [exact Hv3|].
    split; [exact Hc3|]. split; [lia|].
    split.
    { intros _. destruct (Z.eq_dec (unit h3) (unit h2)) as [He|Hne].
      - rewrite He, Hu2'. rewrite hist_maxvalue_eq in Hc by lia.
        replace (unit hist + 1 + 14) with (unit hist + 15) by lia. exact Hc.
      - apply Hmin3. lia. }
    split; [lia|].
    rewrite Hs3, Hs2, Hs1, Zplus_mod_idemp_l. f_equal. lia.
  - exists hist, 0. split; [by apply hist_adjust_range_covered|].
    split; [exact Hv|]. split; [exact Hc|]. split; [lia|]. split; [lia|].
    split; [lia|]. rewrite Z.add_0_r, Z.mod_small; lia.
Qed.

End RangeTotal.

(** X7: [hist_adjust_range] for a value that is not above [2^30] (a finite
    value up to [2^30], [NegInf] or [NaN]).  With 19 iterations of fuel it
    returns without a failed assertion; the loop condition
    [hist_maxvalue < value] is false of the result; [unit] did not decrease,
    and when it grew it stopped at the first exponent that is enough (one
    less would leave [hist_maxvalue] below the value); a histogram that
    already covers the value is returned as it is; and [sample] was
    incremented [n] times modulo 16, with at most two halvings for each unit
    escalation. *)
Theorem hist_adjust_range_covers (fuel : nat) (hist : tinyhist_t) (value : float8) :
  valid_hist hist ->
  int64_lt_float8 (2 ^ 30) value = false ->
  (19 <= fuel)%nat ->
  exists hist' n,
    hist_adjust_range fuel hist value = Ok hist' true /\
    valid_hist hist' /\
    int64_lt_float8 (hist_maxvalue hist') value = false /\
    unit hist <= unit hist' /\
    (unit hist < unit hist' -> int64_lt_float8 (2 ^ (unit hist' + 14)) value = true) /\
    (int64_lt_float8 (hist_maxvalue hist) value = false -> hist' = hist) /\
    0 <= n <= 2 * (unit hist' - unit hist) /\
    sample hist' = (sample hist + n) mod 16.
Proof.
  intros Hv Hsmall Hfuel. pose proof Hv as (_ & Hu & _).
  destruct (hist_adjust_range_full 15 fuel hist value Hv Hsmall)
    as (h' & n & E & Hv' & Hc & Hmono & Hmin & Hn & Hs); [lia|lia|].
  exists h', n. split; [exact E|]. split; [exact Hv'|]. split; [exact Hc|].
  split; [exact Hmono|]. split; [exact Hmin|]. split; [|split; [exact Hn|exact Hs]].
  intros Hcov. destruct fuel as [|fuel]; [lia|].
  rewrite (hist_adjust_range_covered fuel hist value Hcov) in E. congruence.
Qed.

Lemma hist_adjust_range_covers_witness :
  exists hist' n,
    hist_adjust_range 19 hist_200_200 (Finite (inject_Z 40000)) = Ok hist' true /\
    valid_hist hist' /\
    int64_lt_float8 (hist_maxvalue hist') (Finite (inject_Z 40000)) = false /\
    unit hist_200_200 <= unit hist' /\
    (unit hist_200_200 < unit hist' ->
     int64_lt_float8 (2 ^ (unit hist' + 14)) (Finite (inject_Z 40000)) = true) /\
    (int64_lt_float8 (hist_maxvalue hist_200_200) (Finite (inject_Z 40000)) = false ->
     hist' = hist_200_200) /\
    0 <= n <= 2 * (unit hist' - unit hist_200_200) /\
    sample hist' = (sample hist_200_200 + n) mod 16.
Proof.
  apply (hist_adjust_range_covers 19 hist_200_200 (Finite (inject_Z 40000))).
  - unfold valid_hist. simpl. split; [lia|]. split; [lia|]. split; [reflexivity|].
    repeat constructor; lia.
  - vm_compute. reflexivity.
  - lia.
Defined.

(** ** The sampling gate and the accumulator *)

Section Accumulator.

Lemma hist_sample_mod hist r :
  0 <= sample hist -> hist_sample hist r = (r mod 2 ^ sample hist =? 0).
Proof.
  intros Hs. unfold hist_sample.
  rewrite Z.shiftl_1_l, Z.sub_1_r, <- Z.ones_equiv, Z.land_ones by exact Hs.
  reflexivity.
Qed.

Lemma tinyhist_add_array_loop_safe (fuel : nat) (elements : list (option float8 * Z)) :
  (40 <= fuel)%nat -> Forall small_element elements ->
  forall state, valid_hist state ->
    exists state', tinyhist_add_array_loop fuel state elements = Ok state' true /\
                   valid_hist state'.
Proof.
  intros Hfuel Hall. induction Hall as [|[v r] rest Hx _ IH]; intros state Hv.
  - exists state. split; [reflexivity|exact Hv].
  - destruct v as [[q| | |]|]; unfold small_element in Hx; cbn [fst] in Hx; try done.
    + cbn [tinyhist_add_array_loop].
      destruct (accum_value_spec fuel state q r Hv Hx Hfuel) as (s1 & E1 & Hv1).
      rewrite E1, bind_Ok. destruct (IH s1 Hv1) as (s2 & E2 & Hv2).
      exists s2. rewrite E2. split; [reflexivity|exact Hv2].
    + cbn [tinyhist_add_array_loop]. apply IH. exact Hv.
Qed.

Lemma tinyhist_add_each_Some (fuel : nat) (elements : list (option float8 * Z)) :
  forall state,
    tinyhist_add_each fuel (Some state) elements =
    (state ← tinyhist_add_array_loop fuel state elements; mret (Some state)).
Proof.
  induction elements as [|[v r] rest IH]; intros state.
  - reflexivity.
  - cbn [tinyhist_add_each tinyhist_add_array_loop]. destruct v as [value|].
    + cbn [tinyhist_add].
      destruct (accum_value fuel state value r) as [s1 ok1| |]; [|reflexivity|reflexivity].
      rewrite bind_Ok. cbn [mret result_ret]. rewrite !bind_Ok, IH.
      destruct (tinyhist_add_array_loop fuel s1 rest) as [s2 ok2| |];
        [|reflexivity|reflexivity].
      rewrite !bind_Ok. cbn [mret result_ret]. f_equal.
      by destruct ok1, ok2.
    + cbn [tinyhist_add]. rewrite bind_ret. apply IH.
Qed.

End Accumulator.

(** X8: the sampling gate.  A value is kept exactly when the low [sample]
    bits of the [random()] draw are zero, so a histogram with [sample = 0]
    keeps every value; a value that is not kept leaves the histogram as it
    is. *)
Theorem hist_sample_gate (fuel : nat) (hist : tinyhist_t) (value : float8) (r : Z) :
  0 <= sample hist ->
  (hist_sample hist r = true <-> r mod 2 ^ sample hist = 0) /\
  (sample hist = 0 -> hist_sample hist r = true) /\
  (r mod 2 ^ sample hist <> 0 -> accum_value fuel hist value r = Ok hist true).
Proof.
  intros Hs. rewrite hist_sample_mod by exact Hs. split; [apply Z.eqb_eq|]. split.
  - intros ->. rewrite Z.pow_0_r, Z.mod_1_r. reflexivity.
  - intros Hne. unfold accum_value. rewrite hist_sample_mod by exact Hs.
    rewrite (proj2 (Z.eqb_neq _ _) Hne). reflexivity.
Qed.

Lemma hist_sample_gate_witness :
  (hist_sample hist_sample15 98304 = true <-> 98304 mod 2 ^ sample hist_sample15 = 0) /\
  (sample hist_sample15 = 0 -> hist_sample hist_sample15 98304 = true) /\
  (98304 mod 2 ^ sample hist_sample15 <> 0 ->
   accum_value 40 hist_sample15 (Finite (inject_Z 3)) 98304 = Ok hist_sample15 true).
Proof.
  apply (hist_sample_gate 40 hist_sample15 (Finite (inject_Z 3)) 98304).
  simpl. lia.
Defined.

(** X10: what a kept value does to a histogram that already covers it.
    The bucket is the one [bucket_index] returns and [unit] is unchanged.  If
    that bucket is not full it is incremented by one and nothing else
    changes.  If it is full, every counter is halved first and [sample] is
    incremented modulo 16: the bucket ends at half its capacity plus one, the
    others at half of what they were.  No assertion fails. *)
Theorem accum_value_increments (fuel : nat) (state : tinyhist_t) (q : Q) (r : Z) :
  valid_hist state -> hist_sample state r = true ->
  (q <= inject_Z (hist_maxvalue state))%Q -> (16 <= fuel)%nat ->
  exists i state',
    bucket_index fuel state (Finite q) = Ok i true /\ 0 <= i < 16 /\
    accum_value fuel state (Finite q) r = Ok state' true /\
    valid_hist state' /\ unit state' = unit state /\
    (bucket_get state i < bucket_maxcount i ->
     sample state' = sample state /\
     bucket_get state' i = bucket_get state i + 1 /\
     (forall j, 0 <= j < 16 -> j <> i -> bucket_get state' j = bucket_get state j)) /\
    (bucket_get state i = bucket_maxcount i ->
     sample state' = (sample state + 1) mod 16 /\
     bucket_get state' i = bucket_maxcount i / 2 + 1 /\
     (forall j, 0 <= j < 16 -> j <> i -> bucket_get state' j = bucket_get state j / 2)).
Proof.
  intros Hv Hsam Hq Hfuel. pose proof Hv as (_ & Hu & _).
  destruct (bucket_index_range fuel state q Hu Hq Hfuel) as (i & Ei & Hi).
  assert (accum_value fuel state (Finite q) r =
          (state ← (if bucket_get state i =? bucket_maxcount i
                    then hist_adjust_sample state else mret state);
           bucket_set state i (bucket_get state i + 1))) as Eacc.
  { unfold accum_value. rewrite Hsam.
    destruct fuel as [|fuel]; [lia|].
    rewrite hist_adjust_range_covered by (by apply int64_lt_float8_Finite_false).
    rewrite bind_Ok, Ei, bind_Ok.
    destruct (_ ≫= _) as [a b| |]; [destruct b|idtac|idtac]; reflexivity. }
  pose proof (bucket_get_range state i Hi) as Hr.
  assert (1 < 2 ^ (bucket_bits !!! Z.to_nat i)) as Hbig.
  { rewrite bucket_bits_eq by exact Hi.
    assert (2 ^ 1 <= 2 ^ (8 + i)) by (apply Z.pow_le_mono_r; lia). lia. }
  rewrite Eacc.
  destruct (Z.eqb_spec (bucket_get state i) (bucket_maxcount i)) as [Hfull|Hroom].
  - destruct (hist_adjust_sample_spec state Hv) as (h2 & E2 & Hv2 & Hs2 & Hu2 & Hb2).
    rewrite E2, bind_Ok.
    destruct (bucket_set_spec h2 i (bucket_get h2 i + 1) Hv2 Hi)
      as (h3 & E3 & Hv3 & Hs3 & Hu3 & Hsame & Hother).
    assert (bucket_get h2 i + 1 < 2 ^ (bucket_bits !!! Z.to_nat i)) as Hlt.
    { rewrite Hb2 by exact Hi.
      assert (bucket_get state i / 2 < bucket_get state i)
        by (apply Z.div_lt; rewrite ?Hfull, ?bucket_maxcount_eq by exact Hi; lia).
      lia. }
    assert (0 <= bucket_get h2 i) by (pose proof (bucket_get_range h2 i Hi); lia).
    exists i, h3. split; [exact Ei|]. split; [exact Hi|].
    split; [rewrite E3; f_equal; cbn [andb]; apply Z.ltb_lt; exact Hlt|].
    split; [exact Hv3|]. split; [congruence|]. split; [intros; lia|].
    intros _. split; [congruence|]. split.
    + rewrite Hsame, Z.mod_small by lia. rewrite Hb2, Hfull by exact Hi. reflexivity.
    + intros j Hj Hne. rewrite Hother by assumption. apply Hb2. exact Hj.
  - rewrite bind_ret.
    destruct (bucket_set_spec state i (bucket_get state i + 1) Hv Hi)
      as (h3 & E3 & Hv3 & Hs3 & Hu3 & Hsame & Hother).
    rewrite bucket_maxcount_eq in Hroom by exact Hi.
    exists i, h3. split; [exact Ei|]. split; [exact Hi|].
    split; [rewrite E3; f_equal; apply Z.ltb_lt; lia|].
    split; [exact Hv3|]. split; [exact Hu3|]. split.
    + intros _. split; [exact Hs3|]. split; [|exact Hother].
      rewrite Hsame. apply Z.mod_small. lia.
    + intros Hfull. rewrite bucket_maxcount_eq in Hfull by exact Hi. lia.
Qed.

Lemma accum_value_increments_witness :
  exists i state',
    bucket_index 16 hist_200_200 (Finite (inject_Z 100)) = Ok i true /\ 0 <= i < 16 /\
    accum_value 16 hist_200_200 (Finite (inject_Z 100)) 7 = Ok state' true /\
    valid_hist state' /\ unit state' = unit hist_200_200 /\
    (bucket_get hist_200_200 i < bucket_maxcount i ->
     sample state' = sample hist_200_200 /\
     bucket_get state' i = bucket_get hist_200_200 i + 1 /\
     (forall j, 0 <= j < 16 -> j <> i ->
        bucket_get state' j = bucket_get hist_200_200 j)) /\
    (bucket_get hist_200_200 i = bucket_maxcount i ->
     sample state' = (sample hist_200_200 + 1) mod 16 /\
     bucket_get state' i = bucket_maxcount i / 2 + 1 /\
     (forall j, 0 <= j < 16 -> j <> i ->
        bucket_get state' j = bucket_get hist_200_200 j / 2)).
Proof.
  apply (accum_value_increments 16 hist_200_200 (inject_Z 100) 7).
  - unfold valid_hist. simpl. split; [lia|]. split; [lia|]. split; [reflexivity|].
    repeat constructor; lia.
  - reflexivity.
  - vm_compute. discriminate.
  - lia.
Defined.

(** X9: the accumulator never sets a counter to a value at or above its
    capacity.  [tinyhist_add_array] on a histogram of the type (or NULL) and
    an array of finite values that are not above [2^30] (NULL elements
    allowed) returns a histogram of the type, whatever [random()] draws, and
    no assertion fails on the way. *)
Theorem tinyhist_add_array_keeps_capacity (fuel : nat) (arg0 : option tinyhist_t)
    (elements : list (option float8 * Z)) :
  (40 <= fuel)%nat -> Forall small_element elements ->
  (forall state, arg0 = Some state -> valid_hist state) ->
  exists state',
    tinyhist_add_array fuel arg0 (Some elements) = Ok (Some state') true /\
    valid_hist state'.
Proof.
  intros Hfuel Hall Hv. unfold tinyhist_add_array.
  destruct (tinyhist_add_array_loop_safe fuel elements Hfuel Hall
              (match arg0 with None => palloc0_tinyhist | Some state => state end))
    as (s' & E & Hv').
  - destruct arg0 as [s|]; [by apply Hv|apply valid_palloc0].
  - exists s'. rewrite E. split; [reflexivity|exact Hv'].
Qed.

Lemma tinyhist_add_array_keeps_capacity_witness :
  exists state',
    tinyhist_add_array 40 (Some hist_200_200)
      (Some [(Some (Finite (inject_Z 40000)), 0); (None, 1);
             (Some (Finite (1 # 3)), 2)]) = Ok (Some state') true /\
    valid_hist state'.
Proof.
  apply (tinyhist_add_array_keeps_capacity 40 (Some hist_200_200)
           [(Some (Finite (inject_Z 40000)), 0); (None, 1); (Some (Finite (1 # 3)), 2)]).
  - lia.
  - repeat constructor; vm_compute; discriminate.
  - intros state [= <-].
    unfold valid_hist. simpl. split; [lia|]. split; [lia|]. split; [reflexivity|].
    repeat constructor; lia.
Defined.

(** X11: [tinyhist_add_array] does what one call of [tinyhist_add] per
    element does, in order, starting from the given histogram, or from the
    zero histogram when the state is NULL.  The difference shows on an array
    without a non-NULL element and a NULL state: [tinyhist_add_array] returns
    the zero histogram where [tinyhist_add] keeps returning NULL. *)
Theorem tinyhist_add_array_each (fuel : nat) (arg0 : option tinyhist_t)
    (elements : list (option float8 * Z)) (draws : list Z) :
  tinyhist_add_array fuel arg0 (Some elements) =
    tinyhist_add_each fuel
      (Some (match arg0 with None => palloc0_tinyhist | Some state => state end))
      elements /\
  tinyhist_add_array fuel None (Some ((fun r => (None, r)) <$> draws)) =
    Ok (Some palloc0_tinyhist) true /\
  tinyhist_add_each fuel None ((fun r => (None, r)) <$> draws) = Ok None true.
Proof.
  split; [|split].
  - rewrite tinyhist_add_each_Some. reflexivity.
  - unfold tinyhist_add_array.
    assert (forall state, tinyhist_add_array_loop fuel state ((fun r => (None, r)) <$> draws)
                          = Ok state true) as ->; [|reflexivity].
    induction draws as [|r draws IH]; intros state; [reflexivity|]. apply IH.
  - induction draws as [|r draws IH]; [reflexivity|].
    cbn [fmap list_fmap tinyhist_add_each tinyhist_add]. rewrite bind_ret. exact IH.
Qed.

(** X12: values at the low end.  A finite value that is not above the
    upper bound [2^unit] of bucket 0 (zero and the negative values included),
    and [NegInf], go to bucket 0 with the assertions holding.  [NaN] goes to
    bucket 0 as well, failing the assertion [hist_maxvalue >= value]. *)
Theorem bucket_index_low (fuel : nat) (hist : tinyhist_t) (q : Q) :
  0 <= unit hist < 16 -> (q <= inject_Z (2 ^ unit hist))%Q -> (1 <= fuel)%nat ->
  bucket_index fuel hist (Finite q) = Ok 0 true /\
  bucket_index fuel hist NegInf = Ok 0 true /\
  bucket_index fuel hist NaN = Ok 0 false.
Proof.
  intros Hu Hq Hfuel. destruct fuel as [|fuel]; [lia|].
  unfold bucket_index, Assert, HISTOGRAM_BUCKETS.
  rewrite !bucket_index_loop_S, !Z.shiftl_1_l, Z.pow_0_r, Z.mul_1_l.
  rewrite (proj2 (int64_lt_float8_Finite_false _ _) Hq).
  cbn [int64_lt_float8 int64_ge_float8 mbind result_bind mret result_ret].
  split; [|split; reflexivity].
  f_equal. apply andb_true_iff. split; [|reflexivity].
  apply Qle_bool_iff. eapply Qle_trans; [exact Hq|].
  rewrite <- Zle_Qle, hist_maxvalue_eq by lia. apply Z.pow_le_mono_r; lia.
Qed.

Lemma bucket_index_low_witness :
  bucket_index 1 hist_200_200 (Finite (- (7 # 2))) = Ok 0 true /\
  bucket_index 1 hist_200_200 NegInf = Ok 0 true /\
  bucket_index 1 hist_200_200 NaN = Ok 0 false.
Proof.
  apply (bucket_index_low 1 hist_200_200 (- (7 # 2))).
  - simpl. lia.
  - vm_compute. discriminate.
  - lia.
Defined.

(** ** Receiving a binary message *)

Section Receive.

(** The loop of [tinyhist_recv] on a message that ends too early. *)
Lemma tinyhist_recv_loop_short (bytes : list Z) :
  forall (hist : tinyhist_t) (k : Z),
    0 <= k -> k + Z.of_nat (length bytes) < 16 ->
    for_each (for_range k 16)
      (fun i '(hist, buf) =>
         '(b, buf) ← pq_getmsgbyte buf;
         hist ← bucket_set hist i b;
         mret (hist, buf))
      (hist, bytes) = Raise "no data left in message".
Proof.
  induction bytes as [|b rest IH]; intros hist k Hk Hlen;
    rewrite for_range_cons by (cbn [length] in Hlen; lia); cbn [for_each].
  - reflexivity.
  - change (pq_getmsgbyte (b :: rest)) with (mret (M:=result) (b, rest)).
    rewrite bind_ret, bucket_set_eq by lia.
    erewrite (bind_Ok_Ok _ _ _ (_, rest) true) by reflexivity.
    rewrite bind_Ok, IH by (cbn [length] in Hlen; lia). reflexivity.
Qed.

(** The loop on a message that has the sixteen bucket bytes, and maybe more. *)
Lemma tinyhist_recv_long (s : Z) (bytes : list Z) :
  (16 <= length bytes)%nat -> Forall (fun b => 0 <= b < 256) bytes ->
  exists hist,
    tinyhist_recv (s :: bytes) = Ok hist true /\
    valid_hist hist /\
    sample hist = s mod 16 /\ unit hist = 0 /\
    (forall i, 0 <= i < 16 -> bucket_get hist i = bytes !!! Z.to_nat i).
Proof.
  intros Hlen Hbytes. unfold tinyhist_recv, HISTOGRAM_BUCKETS.
  change (pq_getmsgbyte (s :: bytes)) with (mret (M:=result) (s, bytes)).
  rewrite bind_ret.
  destruct (for_range_rule
    (fun k (st : tinyhist_t * list Z) ok =>
       ok = true /\ valid_hist st.1 /\ sample st.1 = s mod 16 /\ unit st.1 = 0 /\
       st.2 = drop (Z.to_nat k) bytes /\
       (forall j, 0 <= j < k -> bucket_get st.1 j = bytes !!! Z.to_nat j))
    0 16
    (fun i '(hist, buf) =>
       '(b, buf) ← pq_getmsgbyte buf;
       hist ← bucket_set hist i b;
       mret (hist, buf))
    (set_sample palloc0_tinyhist (uint4 s), bytes))
    as ([h' buf'] & ok & Hrun & -> & Hv & Hs & Hu & _ & Hb).
  - lia.
  - split; [reflexivity|]. split; [apply valid_set_sample, valid_palloc0|].
    split; [reflexivity|]. split; [reflexivity|]. split; [reflexivity|].
    intros j Hj. lia.
  - intros k [h buf] ok Hk (-> & Hv & Hs & Hu & Hbuf & Hb). cbn [fst snd] in *.
    assert (exists b, bytes !! Z.to_nat k = Some b) as [b Hkb].
    { apply lookup_lt_is_Some. lia. }
    assert (0 <= b < 256) as Hb256.
    { exact (Forall_lookup_1 _ _ _ _ Hbytes Hkb). }
    rewrite Hbuf, (drop_S _ _ _ Hkb).
    change (pq_getmsgbyte (b :: drop (S (Z.to_nat k)) bytes))
      with (mret (M:=result) (b, drop (S (Z.to_nat k)) bytes)).
    rewrite bind_ret.
    destruct (bucket_set_spec h k b Hv Hk) as (h1 & E & Hv1 & Hs1 & Hu1 & Hsame & Hother).
    assert (2 ^ 8 <= 2 ^ (bucket_bits !!! Z.to_nat k)) as Hpow.
    { apply Z.pow_le_mono_r; [lia|]. rewrite bucket_bits_eq; lia. }
    rewrite E, bind_Ok.
    eexists (h1, _), _. split; [reflexivity|]. cbn [fst snd].
    split.
    { rewrite andb_true_r. apply Z.ltb_lt. lia. }
    split; [exact Hv1|]. split; [congruence|]. split; [congruence|].
    split.
    { f_equal. lia. }
    intros j Hj. destruct (Z.eq_dec j k) as [->|Hne].
    + rewrite Hsame, Z.mod_small by lia.
      by rewrite (list_lookup_total_correct _ _ _ Hkb).
    + rewrite Hother by lia. apply Hb. lia.
  - cbn [fst snd] in *. rewrite Hrun. exists h'.
    split; [reflexivity|]. split; [exact Hv|]. split; [exact Hs|]. split; [exact Hu|exact Hb].
Qed.

End Receive.

(** X13: [tinyhist_recv] on a message (a list of bytes).  A message of less
    than 17 bytes is rejected with libpq's error, nothing is returned.  A
    message of 17 bytes or more is accepted, and what follows the 17th byte
    is not looked at: the result has [unit = 0], the low four bits of the
    first byte as [sample] (the high four are dropped) and byte [i + 1] as
    counter [i]; no assertion fails. *)
Theorem tinyhist_recv_decodes (buf : list Z) :
  Forall (fun b => 0 <= b < 256) buf ->
  ((length buf < 17)%nat -> tinyhist_recv buf = Raise "no data left in message") /\
  ((17 <= length buf)%nat ->
   exists hist,
     tinyhist_recv buf = Ok hist true /\
     valid_hist hist /\
     sample hist = (buf !!! 0%nat) mod 16 /\ unit hist = 0 /\
     (forall i, 0 <= i < 16 -> bucket_get hist i = buf !!! Z.to_nat (i + 1))).
Proof.
  intros Hbytes. split; intros Hlen.
  - destruct buf as [|s bytes]; [reflexivity|].
    unfold tinyhist_recv, HISTOGRAM_BUCKETS.
    change (pq_getmsgbyte (s :: bytes)) with (mret (M:=result) (s, bytes)).
    rewrite bind_ret, tinyhist_recv_loop_short by (cbn [length] in Hlen; lia).
    reflexivity.
  - destruct buf as [|s bytes]; [cbn [length] in Hlen; lia|].
    pose proof (Forall_inv_tail Hbytes) as Htail.
    destruct (tinyhist_recv_long s bytes) as (h & E & Hv & Hs & Hu & Hb);
      [cbn [length] in Hlen; lia|exact Htail|].
    exists h. split; [exact E|]. split; [exact Hv|]. split; [exact Hs|].
    split; [exact Hu|]. intros i Hi. rewrite Hb by exact Hi.
    replace (Z.to_nat (i + 1)) with (S (Z.to_nat i)) by lia. reflexivity.
Qed.

Lemma tinyhist_recv_decodes_witness :
  ((length [255; 1; 2; 3] < 17)%nat ->
   tinyhist_recv [255; 1; 2; 3] = Raise "no data left in message") /\
  ((17 <= length [255; 1; 2; 3])%nat ->
   exists hist,
     tinyhist_recv [255; 1; 2; 3] = Ok hist true /\
     valid_hist hist /\
     sample hist = ([255; 1; 2; 3] !!! 0%nat) mod 16 /\ unit hist = 0 /\
     (forall i, 0 <= i < 16 ->
        bucket_get hist i = [255; 1; 2; 3] !!! Z.to_nat (i + 1))).
Proof.
  apply (tinyhist_recv_decodes [255; 1; 2; 3]).
  repeat constructor; lia.
Defined.

(** X14: when the binary format loses nothing.  Receiving what
    [tinyhist_send] sent gives back the histogram itself exactly when its
    [unit] is 0 and every counter is below 256. *)
Theorem tinyhist_send_recv_exact (hist : tinyhist_t) :
  valid_hist hist ->
  (tinyhist_recv (tinyhist_send hist) = Ok hist true <->
   unit hist = 0 /\ forall i, 0 <= i < 16 -> bucket_get hist i < 256).
Proof.
  intros Hv. pose proof Hv as (Hs & Hu & _).
  assert (tinyhist_send hist =
          sample hist :: ((fun i => bucket_get hist i mod 2 ^ 8) <$> for_range 0 16)) as Hsend.
  { rewrite tinyhist_send_eq. unfold uint8 at 1. rewrite Z.mod_small by lia.
    reflexivity. }
  destruct (tinyhist_recv_long (sample hist)
              ((fun i => bucket_get hist i mod 2 ^ 8) <$> for_range 0 16))
    as (h' & Hrun & Hv' & Hs' & Hu' & Hb').
  { rewrite length_fmap. unfold for_range. rewrite length_seqZ. lia. }
  { apply Forall_fmap, Forall_forall. intros x _. cbv beta.
    apply Z.mod_pos_bound. lia. }
  assert (forall i, 0 <= i < 16 -> bucket_get h' i = bucket_get hist i mod 2 ^ 8) as Hb.
  { intros i Hi. rewrite Hb' by exact Hi.
    assert (for_range 0 16 !! Z.to_nat i = Some i) as Hlk.
    { unfold for_range. rewrite lookup_seqZ. lia. }
    apply list_lookup_total_correct. rewrite list_lookup_fmap, Hlk. reflexivity. }
  rewrite Hsend, Hrun. split.
  - intros [= Heq]. subst h'. split; [exact Hu'|].
    intros i Hi. rewrite (Hb i Hi). change (2 ^ 8) with 256.
    apply Z.mod_pos_bound. lia.
  - intros [Hu0 Hsmall]. f_equal. apply hist_ext; [exact Hv'|exact Hv| | |].
    + rewrite Hs'. apply Z.mod_small. lia.
    + congruence.
    + intros i Hi. rewrite Hb by exact Hi. apply Z.mod_small.
      pose proof (bucket_get_range hist i Hi). specialize (Hsmall i Hi). lia.
Qed.

Lemma tinyhist_send_recv_exact_witness :
  tinyhist_recv (tinyhist_send hist_200_200) = Ok hist_200_200 true <->
  unit hist_200_200 = 0 /\ forall i, 0 <= i < 16 -> bucket_get hist_200_200 i < 256.
Proof.
  apply (tinyhist_send_recv_exact hist_200_200).
  unfold valid_hist. simpl. split; [lia|]. split; [lia|]. split; [reflexivity|].
  repeat constructor; lia.
Defined.

(** ** What the merge computes *)

Section MergeResult.

Lemma existsb_ext_in {A} (f g : A -> bool) (l : list A) :
  (forall x, In x l -> f x = g x) -> existsb f l = existsb g l.
Proof.
  induction l as [|x l IH]; intros H; [reflexivity|]. cbn [existsb].
  rewrite (H x) by (by left). rewrite IH; [reflexivity|].
  intros y Hy. apply H. by right.
Qed.

Lemma combine_overflow_comm src dst : combine_overflow src dst = combine_overflow dst src.
Proof.
  unfold combine_overflow. apply existsb_ext_in. intros i _.
  by rewrite Z.add_comm.
Qed.

Lemma combine_overflow_true src dst :
  combine_overflow src dst = true <->
  exists i, 0 <= i < 16 /\ bucket_maxcount i < bucket_get src i + bucket_get dst i.
Proof.
  unfold combine_overflow, HISTOGRAM_BUCKETS. rewrite existsb_exists. split.
  - intros (i & Hin & Hc). apply list_elem_of_In, elem_of_for_range in Hin.
    apply Z.gtb_gt in Hc. exists i. split; [lia|lia].
  - intros (i & Hi & Hc). exists i. split.
    + apply list_elem_of_In, elem_of_for_range. lia.
    + apply Z.gtb_gt. lia.
Qed.

(** The check: both histograms are halved, or none. *)
Lemma combine_check_cases (src dst : tinyhist_t) :
  valid_hist src -> valid_hist dst ->
  exists src1 dst1,
    hist_adjust_sample src = Ok src1 true /\
    hist_adjust_sample dst = Ok dst1 true /\
    combine_check src dst =
      Ok (if combine_overflow src dst then (src1, dst1) else (src, dst)) true.
Proof.
  intros Hvs Hvd.
  destruct (hist_adjust_sample_spec src Hvs) as (s1 & Es & _).
  destruct (hist_adjust_sample_spec dst Hvd) as (d1 & Ed & _).
  exists s1, d1. split; [exact Es|]. split; [exact Ed|].
  unfold combine_check. fold (combine_overflow src dst).
  destruct (combine_overflow src dst); [|reflexivity].
  rewrite Es, bind_Ok, Ed, bind_Ok. reflexivity.
Qed.

Lemma combine_check_merge (src dst : tinyhist_t) :
  valid_hist src -> valid_hist dst ->
  exists src' dst' result,
    combine_check src dst = Ok (src', dst') true /\
    combine_merge src' dst' = Ok result true /\
    valid_hist result /\ unit result = unit dst /\
    (forall i, 0 <= i < 16 ->
       bucket_get result i = bucket_get src' i + bucket_get dst' i) /\
    (combine_overflow src dst = false ->
     src' = src /\ dst' = dst /\ sample result = sample dst) /\
    (combine_overflow src dst = true ->
     (forall i, 0 <= i < 16 ->
        bucket_get src' i = bucket_get src i / 2 /\
        bucket_get dst' i = bucket_get dst i / 2) /\
     sample result = (sample dst + 1) mod 16).
Proof.
  intros Hvs Hvd.
  destruct (combine_check_spec src dst Hvs Hvd)
    as (s' & d' & Ec & Hvs' & Hvd' & Hus & Hud & Hfit).
  destruct (combine_merge_spec s' d' Hvs' Hvd' Hfit) as (r & Em & Hvr & Hsr & Hur & Hbr).
  destruct (combine_check_cases src dst Hvs Hvd) as (s1 & d1 & Es & Ed & Ec').
  rewrite Ec in Ec'.
  destruct (hist_adjust_sample_spec src Hvs) as (s1' & Es' & _ & _ & _ & Hbs).
  destruct (hist_adjust_sample_spec dst Hvd) as (d1' & Ed' & _ & Hsd & _ & Hbd).
  rewrite Es in Es'. rewrite Ed in Ed'.
  injection Es' as <-. injection Ed' as <-.
  exists s', d', r. split; [exact Ec|]. split; [exact Em|]. split; [exact Hvr|].
  split; [congruence|]. split; [exact Hbr|].
  destruct (combine_overflow src dst); injection Ec' as -> ->.
  - split; [intros [=]|]. intros _. split; [|congruence].
    intros i Hi. split; [by apply Hbs|by apply Hbd].
  - split; [|intros [=]]. intros _. split; [reflexivity|]. split; [reflexivity|exact Hsr].
Qed.

(** Both calls, with the arguments in either order, go through the same
    intermediate histograms. *)
Lemma tinyhist_combine_swap (fuel : nat) (a b : tinyhist_t) :
  valid_hist a -> valid_hist b -> (16 <= fuel)%nat ->
  exists result ok,
    tinyhist_combine fuel true (Some a) b = Ok result ok /\
    tinyhist_combine fuel true (Some b) a = Ok result ok.
Proof.
  intros Hva Hvb Hfuel.
  pose proof Hva as (Hsa & Hua & _). pose proof Hvb as (Hsb & Hub & _).
  set (S_ := Z.max (sample b) (sample a)).
  set (U_ := Z.max (unit b) (unit a)).
  destruct (combine_raise_sample_spec (Z.to_nat (S_ - sample a)) fuel a S_)
    as (a1 & Ea1 & Hva1 & Hsa1 & Hua1 & _); [exact Hva|lia|lia|lia|].
  destruct (combine_raise_sample_spec (Z.to_nat (S_ - sample b)) fuel b S_)
    as (b1 & Eb1 & Hvb1 & Hsb1 & Hub1 & _); [exact Hvb|lia|lia|lia|].
  destruct (combine_raise_unit_spec (Z.to_nat (U_ - unit a1)) fuel a1 U_)
    as (a2 & oka & Ea2 & Hva2 & Hua2 & Hsa2); [exact Hva1|lia|lia|lia|].
  destruct (combine_raise_unit_spec (Z.to_nat (U_ - unit b1)) fuel b1 U_)
    as (b2 & okb & Eb2 & Hvb2 & Hub2 & Hsb2); [exact Hvb1|lia|lia|lia|].
  destruct (combine_check_cases b2 a2 Hvb2 Hva2) as (b3 & a3 & Eb3 & Ea3 & Ec1).
  destruct (combine_check_cases a2 b2 Hva2 Hvb2) as (a3' & b3' & Ea3' & Eb3' & Ec2).
  rewrite Ea3 in Ea3'. rewrite Eb3 in Eb3'. injection Ea3' as <-. injection Eb3' as <-.
  rewrite (combine_overflow_comm a2 b2) in Ec2.
  destruct (hist_adjust_sample_spec a2 Hva2) as (a3' & Ea3' & Hva3 & Hsa3 & Hua3 & _).
  destruct (hist_adjust_sample_spec b2 Hvb2) as (b3' & Eb3' & Hvb3 & Hsb3 & Hub3 & _).
  rewrite Ea3 in Ea3'. rewrite Eb3 in Eb3'. injection Ea3' as <-. injection Eb3' as <-.
  (* the two histograms that are summed *)
  set (a4 := if combine_overflow b2 a2 then a3 else a2).
  set (b4 := if combine_overflow b2 a2 then b3 else b2).
  assert (valid_hist a4 /\ valid_hist b4 /\ sample a4 = sample b4 /\ unit a4 = unit b4)
    as (Hva4 & Hvb4 & Hs4 & Hu4).
  { unfold a4, b4. destruct (combine_overflow b2 a2).
    - split; [exact Hva3|]. split; [exact Hvb3|]. split; congruence.
    - split; [exact Hva2|]. split; [exact Hvb2|]. split; congruence. }
  assert (combine_check b2 a2 = Ok (b4, a4) true) as Ec1'.
  { rewrite Ec1. unfold a4, b4. by destruct (combine_overflow b2 a2). }
  assert (combine_check a2 b2 = Ok (a4, b4) true) as Ec2'.
  { rewrite Ec2. unfold a4, b4. by destruct (combine_overflow b2 a2). }
  destruct (combine_check_spec b2 a2 Hvb2 Hva2) as (x & y & Ex & _ & _ & _ & _ & Hfit).
  rewrite Ec1' in Ex. injection Ex as <- <-.
  destruct (combine_merge_spec b4 a4 Hvb4 Hva4 Hfit) as (r1 & Em1 & Hvr1 & Hsr1 & Hur1 & Hbr1).
  destruct (combine_merge_spec a4 b4 Hva4 Hvb4) as (r2 & Em2 & Hvr2 & Hsr2 & Hur2 & Hbr2).
  { intros i Hi. rewrite Z.add_comm. by apply Hfit. }
  assert (r2 = r1) as ->.
  { apply hist_ext; [exact Hvr2|exact Hvr1|congruence|congruence|].
    intros i Hi. rewrite Hbr1, Hbr2 by exact Hi. apply Z.add_comm. }
  exists r1, (oka && okb).
  assert (sample b2 = sample a2) as Hs2 by congruence.
  assert (unit b2 = unit a2) as Hu2 by congruence.
  split.
  - unfold tinyhist_combine, combine_equalize_sample, combine_equalize_unit, Assert.
    cbn [negb]. fold S_. rewrite Eb1, bind_Ok, Ea1, bind_Ok.
    cbn [mret result_ret]. rewrite bind_Ok. rewrite Hub1, Hua1. fold U_.
    rewrite Eb2, bind_Ok, Ea2, !bind_Ok. cbn [mret result_ret].
    rewrite (proj2 (Z.eqb_eq _ _) Hs2), (proj2 (Z.eqb_eq _ _) Hu2).
    rewrite bind_Ok, Ec1', bind_Ok, Em1. f_equal. by destruct oka, okb.
  - unfold tinyhist_combine, combine_equalize_sample, combine_equalize_unit, Assert.
    cbn [negb]. rewrite (Z.max_comm (sample a) (sample b)). fold S_.
    rewrite Ea1, bind_Ok, Eb1, bind_Ok.
    cbn [mret result_ret]. rewrite bind_Ok. rewrite Hub1, Hua1.
    rewrite (Z.max_comm (unit a) (unit b)). fold U_.
    rewrite Ea2, bind_Ok, Eb2, !bind_Ok. cbn [mret result_ret].
    rewrite (proj2 (Z.eqb_eq _ _) (eq_sym Hs2)), (proj2 (Z.eqb_eq _ _) (eq_sym Hu2)).
    rewrite bind_Ok, Ec2', bind_Ok, Em2. f_equal. by destruct oka, okb.
Qed.

End MergeResult.

Section MergeFormula.

Lemma combine_raise_unit_same (fuel : nat) (hist : tinyhist_t) (unit_ : Z) :
  unit_ <= unit hist -> combine_raise_unit (S fuel) hist unit_ = Ok hist true.
Proof.
  intros Hu. rewrite combine_raise_unit_S, (proj2 (Z.ltb_ge _ _)) by lia. reflexivity.
Qed.

(** Merging two histograms that have the same [unit]. *)
Lemma tinyhist_combine_same_unit (fuel : nat) (src dst : tinyhist_t) :
  valid_hist src -> valid_hist dst -> unit src = unit dst -> (16 <= fuel)%nat ->
  exists result e,
    tinyhist_combine fuel true (Some dst) src = Ok result true /\
    (e = 0 \/ e = 1) /\
    (e = 1 <->
     exists i, 0 <= i < 16 /\
       bucket_maxcount i <
       bucket_get src i / 2 ^ (Z.max (sample src) (sample dst) - sample src) +
       bucket_get dst i / 2 ^ (Z.max (sample src) (sample dst) - sample dst)) /\
    valid_hist result /\
    unit result = unit dst /\
    sample result = (Z.max (sample src) (sample dst) + e) mod 16 /\
    (forall i, 0 <= i < 16 ->
       bucket_get result i =
       bucket_get src i / 2 ^ (Z.max (sample src) (sample dst) - sample src + e) +
       bucket_get dst i / 2 ^ (Z.max (sample src) (sample dst) - sample dst + e)).
Proof.
  intros Hvs Hvd Hu Hfuel.
  pose proof Hvs as (Hss & Hus & _). pose proof Hvd as (Hsd & Hud & _).
  set (S_ := Z.max (sample src) (sample dst)).
  destruct (combine_raise_sample_spec (Z.to_nat (S_ - sample src)) fuel src S_)
    as (s1 & Es1 & Hvs1 & Hss1 & Hus1 & Hbs1); [exact Hvs|lia|lia|lia|].
  destruct (combine_raise_sample_spec (Z.to_nat (S_ - sample dst)) fuel dst S_)
    as (d1 & Ed1 & Hvd1 & Hsd1 & Hud1 & Hbd1); [exact Hvd|lia|lia|lia|].
  destruct (combine_check_merge s1 d1 Hvs1 Hvd1)
    as (s2 & d2 & r & Ec & Em & Hvr & Hur & Hbr & Hno & Hyes).
  assert (tinyhist_combine fuel true (Some dst) src = Ok r true) as Erun.
  { unfold tinyhist_combine, combine_equalize_sample, combine_equalize_unit, Assert.
    cbn [negb]. fold S_. rewrite Es1, bind_Ok, Ed1, bind_Ok.
    cbn [mret result_ret]. rewrite bind_Ok.
    destruct fuel as [|fuel]; [lia|].
    rewrite !combine_raise_unit_same by lia.
    rewrite !bind_Ok. cbn [mret result_ret].
    rewrite (proj2 (Z.eqb_eq (sample s1) (sample d1))) by congruence.
    rewrite (proj2 (Z.eqb_eq (unit s1) (unit d1))) by congruence.
    rewrite bind_Ok, Ec, bind_Ok, Em. reflexivity. }
  assert (combine_overflow s1 d1 = true <->
          exists i, 0 <= i < 16 /\
            bucket_maxcount i <
            bucket_get src i / 2 ^ (S_ - sample src) +
            bucket_get dst i / 2 ^ (S_ - sample dst)) as Hover.
  { rewrite combine_overflow_true. split; intros (i & Hi & Hc); exists i; (split; [exact Hi|]).
    - rewrite <- Hbs1, <- Hbd1 by exact Hi. exact Hc.
    - rewrite Hbs1, Hbd1 by exact Hi. exact Hc. }
  destruct (combine_overflow s1 d1) eqn:Eo.
  - destruct (Hyes eq_refl) as (Hhalf & Hsr).
    exists r, 1. split; [exact Erun|]. split; [by right|].
    split; [split; [intros _; by apply Hover|reflexivity]|].
    split; [exact Hvr|]. split; [congruence|]. split; [congruence|].
    intros i Hi. rewrite Hbr by exact Hi.
    destruct (Hhalf i Hi) as [-> ->]. rewrite Hbs1, Hbd1 by exact Hi.
    rewrite !Z.div_div by (try apply Z.pow_pos_nonneg; lia).
    rewrite !(Z.pow_add_r 2 _ 1) by lia. reflexivity.
  - destruct (Hno eq_refl) as (-> & -> & Hsr).
    exists r, 0. split; [exact Erun|]. split; [by left|].
    split.
    { split; [intros [=]|]. intros Hex. apply Hover in Hex. discriminate. }
    split; [exact Hvr|]. split; [congruence|].
    split; [rewrite Z.add_0_r, Hsr, Hsd1; symmetry; apply Z.mod_small; lia|].
    intros i Hi. rewrite Hbr, Hbs1, Hbd1 by exact Hi. rewrite !Z.add_0_r. reflexivity.
Qed.

Lemma hist_count_eq (hist : tinyhist_t) :
  hist_count hist =
  bucket_get hist 0 + bucket_get hist 1 + bucket_get hist 2 + bucket_get hist 3 +
  bucket_get hist 4 + bucket_get hist 5 + bucket_get hist 6 + bucket_get hist 7 +
  bucket_get hist 8 + bucket_get hist 9 + bucket_get hist 10 + bucket_get hist 11 +
  bucket_get hist 12 + bucket_get hist 13 + bucket_get hist 14 + bucket_get hist 15.
Proof. reflexivity. Qed.

End MergeFormula.

(** X15: the single extra halving of [tinyhist_combine] is always enough.
    On two histograms of the type, whatever their counters, the check halves
    both when some sum exceeds the capacity of its bucket and none
    otherwise, and the final loop then stores the sixteen sums without a
    failed assertion: after one halving each summand is below half the
    capacity. *)
Theorem combine_extra_pass_suffices (src dst : tinyhist_t) :
  valid_hist src -> valid_hist dst ->
  exists src' dst' result,
    combine_check src dst = Ok (src', dst') true /\
    combine_merge src' dst' = Ok result true /\
    valid_hist result /\ unit result = unit dst /\
    (forall i, 0 <= i < 16 ->
       bucket_get result i = bucket_get src' i + bucket_get dst' i) /\
    (combine_overflow src dst = false ->
     src' = src /\ dst' = dst /\ sample result = sample dst) /\
    (combine_overflow src dst = true ->
     (forall i, 0 <= i < 16 ->
        bucket_get src' i = bucket_get src i / 2 /\
        bucket_get dst' i = bucket_get dst i / 2) /\
     sample result = (sample dst + 1) mod 16).
Proof. apply combine_check_merge. Qed.

Lemma combine_extra_pass_suffices_witness :
  exists src' dst' result,
    combine_check hist_200_200 hist_sample15 = Ok (src', dst') true /\
    combine_merge src' dst' = Ok result true /\
    valid_hist result /\ unit result = unit hist_sample15 /\
    (forall i, 0 <= i < 16 ->
       bucket_get result i = bucket_get src' i + bucket_get dst' i) /\
    (combine_overflow hist_200_200 hist_sample15 = false ->
     src' = hist_200_200 /\ dst' = hist_sample15 /\ sample result = sample hist_sample15) /\
    (combine_overflow hist_200_200 hist_sample15 = true ->
     (forall i, 0 <= i < 16 ->
        bucket_get src' i = bucket_get hist_200_200 i / 2 /\
        bucket_get dst' i = bucket_get hist_sample15 i / 2) /\
     sample result = (sample hist_sample15 + 1) mod 16).
Proof.
  apply (combine_extra_pass_suffices hist_200_200 hist_sample15).
  - unfold valid_hist. simpl. split; [lia|]. split; [lia|]. split; [reflexivity|].
    repeat constructor; lia.
  - unfold valid_hist. simpl. split; [lia|]. split; [lia|]. split; [reflexivity|].
    repeat constructor; lia.
Defined.

(** X16: the merge is commutative, exactly.  For two histograms of the type
    [tinyhist_combine] returns the same 32 bytes, with the same assertions
    holding, whichever of the two is the state and whichever the argument. *)
Theorem tinyhist_combine_comm (fuel : nat) (a b : tinyhist_t) :
  valid_hist a -> valid_hist b -> (16 <= fuel)%nat ->
  tinyhist_combine fuel true (Some a) b = tinyhist_combine fuel true (Some b) a /\
  exists result ok, tinyhist_combine fuel true (Some a) b = Ok result ok.
Proof.
  intros Hva Hvb Hfuel.
  destruct (tinyhist_combine_swap fuel a b Hva Hvb Hfuel) as (r & ok & E1 & E2).
  split; [by rewrite E1, E2|]. exists r, ok. exact E1.
Qed.

Lemma tinyhist_combine_comm_witness :
  tinyhist_combine 16 true (Some hist_200_200) hist_sample15 =
    tinyhist_combine 16 true (Some hist_sample15) hist_200_200 /\
  exists result ok,
    tinyhist_combine 16 true (Some hist_200_200) hist_sample15 = Ok result ok.
Proof.
  apply (tinyhist_combine_comm 16 hist_200_200 hist_sample15).
  - unfold valid_hist. simpl. split; [lia|]. split; [lia|]. split; [reflexivity|].
    repeat constructor; lia.
  - unfold valid_hist. simpl. split; [lia|]. split; [lia|]. split; [reflexivity|].
    repeat constructor; lia.
  - lia.
Defined.

(** X17: what the merge of two histograms with the same [unit] holds.  No
    assertion fails.  With [s] the larger of the two [sample] exponents,
    each counter of the result is the sum of the two counters, each divided
    (rounding down) by two to the power of the distance of its [sample] to
    [s], plus [e]; [e] is 1 when some sum of the counters brought to [s]
    exceeds the capacity of its bucket and 0 otherwise, and the [sample] of
    the result is [s + e] modulo 16. *)
Theorem tinyhist_combine_counts (fuel : nat) (src dst : tinyhist_t) :
  valid_hist src -> valid_hist dst -> unit src = unit dst -> (16 <= fuel)%nat ->
  exists result e,
    tinyhist_combine fuel true (Some dst) src = Ok result true /\
    (e = 0 \/ e = 1) /\
    (e = 1 <->
     exists i, 0 <= i < 16 /\
       bucket_maxcount i <
       bucket_get src i / 2 ^ (Z.max (sample src) (sample dst) - sample src) +
       bucket_get dst i / 2 ^ (Z.max (sample src) (sample dst) - sample dst)) /\
    valid_hist result /\
    unit result = unit dst /\
    sample result = (Z.max (sample src) (sample dst) + e) mod 16 /\
    (forall i, 0 <= i < 16 ->
       bucket_get result i =
       bucket_get src i / 2 ^ (Z.max (sample src) (sample dst) - sample src + e) +
       bucket_get dst i / 2 ^ (Z.max (sample src) (sample dst) - sample dst + e)).
Proof. apply tinyhist_combine_same_unit. Qed.

Lemma tinyhist_combine_counts_witness :
  exists result e,
    tinyhist_combine 16 true (Some hist_sample15) hist_200_200 = Ok result true /\
    (e = 0 \/ e = 1) /\
    (e = 1 <->
     exists i, 0 <= i < 16 /\
       bucket_maxcount i <
       bucket_get hist_200_200 i /
         2 ^ (Z.max (sample hist_200_200) (sample hist_sample15) - sample hist_200_200) +
       bucket_get hist_sample15 i /
         2 ^ (Z.max (sample hist_200_200) (sample hist_sample15) - sample hist_sample15)) /\
    valid_hist result /\
    unit result = unit hist_sample15 /\
    sample result = (Z.max (sample hist_200_200) (sample hist_sample15) + e) mod 16 /\
    (forall i, 0 <= i < 16 ->
       bucket_get result i =
       bucket_get hist_200_200 i /
         2 ^ (Z.max (sample hist_200_200) (sample hist_sample15) - sample hist_200_200 + e) +
       bucket_get hist_sample15 i /
         2 ^ (Z.max (sample hist_200_200) (sample hist_sample15) - sample hist_sample15 + e)).
Proof.
  apply (tinyhist_combine_counts 16 hist_200_200 hist_sample15).
  - unfold valid_hist. simpl. split; [lia|]. split; [lia|]. split; [reflexivity|].
    repeat constructor; lia.
  - unfold valid_hist. simpl. split; [lia|]. split; [lia|]. split; [reflexivity|].
    repeat constructor; lia.
  - reflexivity.
  - lia.
Defined.

(** X18: merging two histograms with the same [sample] and the same [unit]
    whose sums all fit adds them up: no assertion fails, the two exponents
    are unchanged, every counter of the result is the sum of the two
    counters, and so is the [hist_count] that [tinyhist_info] reports. *)
Theorem tinyhist_combine_adds (fuel : nat) (src dst : tinyhist_t) :
  valid_hist src -> valid_hist dst ->
  sample src = sample dst -> unit src = unit dst ->
  combine_overflow src dst = false -> (16 <= fuel)%nat ->
  exists result,
    tinyhist_combine fuel true (Some dst) src = Ok result true /\
    sample result = sample dst /\ unit result = unit dst /\
    (forall i, 0 <= i < 16 ->
       bucket_get result i = bucket_get src i + bucket_get dst i) /\
    hist_count result = hist_count src + hist_count dst.
Proof.
  intros Hvs Hvd Hs Hu Hno Hfuel. pose proof Hvd as (Hsd & _).
  destruct (tinyhist_combine_same_unit fuel src dst Hvs Hvd Hu Hfuel)
    as (r & e & Erun & He & Hover & Hvr & Hur & Hsr & Hbr).
  rewrite Hs, Z.max_id in Hover, Hsr, Hbr. rewrite Z.sub_diag in Hover, Hbr.
  change (2 ^ 0) with 1 in Hover.
  assert (e = 0) as ->.
  { destruct He as [|He]; [assumption|]. exfalso.
    apply Hover in He. destruct He as (i & Hi & Hc).
    rewrite !Z.div_1_r in Hc.
    apply not_true_iff_false in Hno. apply Hno, combine_overflow_true.
    exists i. split; [exact Hi|exact Hc]. }
  rewrite Z.add_0_r in Hsr. change (2 ^ (0 + 0)) with 1 in Hbr.
  assert (forall i, 0 <= i < 16 ->
            bucket_get r i = bucket_get src i + bucket_get dst i) as Hbr'.
  { intros i Hi. rewrite Hbr by exact Hi. by rewrite !Z.div_1_r. }
  exists r. split; [exact Erun|]. split; [rewrite Hsr; apply Z.mod_small; lia|].
  split; [exact Hur|]. split; [exact Hbr'|].
  rewrite !hist_count_eq.
  rewrite (Hbr' 0) by lia. rewrite (Hbr' 1) by lia. rewrite (Hbr' 2) by lia. rewrite (Hbr' 3) by lia. rewrite (Hbr' 4) by lia. rewrite (Hbr' 5) by lia. rewrite (Hbr' 6) by lia. rewrite (Hbr' 7) by lia. rewrite (Hbr' 8) by lia. rewrite (Hbr' 9) by lia. rewrite (Hbr' 10) by lia. rewrite (Hbr' 11) by lia. rewrite (Hbr' 12) by lia. rewrite (Hbr' 13) by lia. rewrite (Hbr' 14) by lia. rewrite (Hbr' 15) by lia.
  lia.
Qed.

Lemma tinyhist_combine_adds_witness :
  exists result,
    tinyhist_combine 16 true (Some hist_200_200)
      (set_data palloc0_tinyhist (50 :: 30 :: replicate 29 0)) = Ok result true /\
    sample result = sample hist_200_200 /\ unit result = unit hist_200_200 /\
    (forall i, 0 <= i < 16 ->
       bucket_get result i =
       bucket_get (set_data palloc0_tinyhist (50 :: 30 :: replicate 29 0)) i +
       bucket_get hist_200_200 i) /\
    hist_count result =
      hist_count (set_data palloc0_tinyhist (50 :: 30 :: replicate 29 0)) +
      hist_count hist_200_200.
Proof.
  apply (tinyhist_combine_adds 16
           (set_data palloc0_tinyhist (50 :: 30 :: replicate 29 0)) hist_200_200).
  - unfold valid_hist. simpl. split; [lia|]. split; [lia|]. split; [reflexivity|].
    repeat constructor; lia.
  - unfold valid_hist. simpl. split; [lia|]. split; [lia|]. split; [reflexivity|].
    repeat constructor; lia.
  - reflexivity.
  - reflexivity.
  - vm_compute. reflexivity.
  - lia.
Defined.

(** X19: the total count under the two escalations.  [hist_count] is
    between 0 and [2^24 - 272].  [hist_adjust_sample] brings it to half of
    what it was, up to the rounding of the sixteen counters (it loses at
    most 16 in all).  [hist_adjust_unit] keeps it as it is when no write
    overflows. *)
Theorem hist_count_escalations (hist : tinyhist_t) :
  valid_hist hist ->
  0 <= hist_count hist <= 2 ^ 24 - 272 /\
  (exists hist',
     hist_adjust_sample hist = Ok hist' true /\
     hist_count hist - 16 <= 2 * hist_count hist' <= hist_count hist) /\
  (unit_shift_fits hist ->
   exists hist',
     hist_adjust_unit hist = Ok hist' true /\ hist_count hist' = hist_count hist).
Proof.
  intros Hv.
  assert (forall x, 0 <= x -> 2 * (x / 2) <= x <= 2 * (x / 2) + 1) as Hdiv.
  { intros x Hx. Z.div_mod_to_equations. lia. }
  pose proof (Hdiv (bucket_get hist 0) (proj1 (bucket_get_range hist 0 ltac:(lia)))) as D0.
  pose proof (Hdiv (bucket_get hist 1) (proj1 (bucket_get_range hist 1 ltac:(lia)))) as D1.
  pose proof (Hdiv (bucket_get hist 2) (proj1 (bucket_get_range hist 2 ltac:(lia)))) as D2.
  pose proof (Hdiv (bucket_get hist 3) (proj1 (bucket_get_range hist 3 ltac:(lia)))) as D3.
  pose proof (Hdiv (bucket_get hist 4) (proj1 (bucket_get_range hist 4 ltac:(lia)))) as D4.
  pose proof (Hdiv (bucket_get hist 5) (proj1 (bucket_get_range hist 5 ltac:(lia)))) as D5.
  pose proof (Hdiv (bucket_get hist 6) (proj1 (bucket_get_range hist 6 ltac:(lia)))) as D6.
  pose proof (Hdiv (bucket_get hist 7) (proj1 (bucket_get_range hist 7 ltac:(lia)))) as D7.
  pose proof (Hdiv (bucket_get hist 8) (proj1 (bucket_get_range hist 8 ltac:(lia)))) as D8.
  pose proof (Hdiv (bucket_get hist 9) (proj1 (bucket_get_range hist 9 ltac:(lia)))) as D9.
  pose proof (Hdiv (bucket_get hist 10) (proj1 (bucket_get_range hist 10 ltac:(lia)))) as D10.
  pose proof (Hdiv (bucket_get hist 11) (proj1 (bucket_get_range hist 11 ltac:(lia)))) as D11.
  pose proof (Hdiv (bucket_get hist 12) (proj1 (bucket_get_range hist 12 ltac:(lia)))) as D12.
  pose proof (Hdiv (bucket_get hist 13) (proj1 (bucket_get_range hist 13 ltac:(lia)))) as D13.
  pose proof (Hdiv (bucket_get hist 14) (proj1 (bucket_get_range hist 14 ltac:(lia)))) as D14.
  pose proof (Hdiv (bucket_get hist 15) (proj1 (bucket_get_range hist 15 ltac:(lia)))) as D15.
  split; [|split].
  - rewrite hist_count_eq.
    pose proof (bucket_get_range hist 0 ltac:(lia)) as R0. change (2 ^ (bucket_bits !!! Z.to_nat 0)) with 256 in R0.
    pose proof (bucket_get_range hist 1 ltac:(lia)) as R1. change (2 ^ (bucket_bits !!! Z.to_nat 1)) with 512 in R1.
    pose proof (bucket_get_range hist 2 ltac:(lia)) as R2. change (2 ^ (bucket_bits !!! Z.to_nat 2)) with 1024 in R2.
    pose proof (bucket_get_range hist 3 ltac:(lia)) as R3. change (2 ^ (bucket_bits !!! Z.to_nat 3)) with 2048 in R3.
    pose proof (bucket_get_range hist 4 ltac:(lia)) as R4. change (2 ^ (bucket_bits !!! Z.to_nat 4)) with 4096 in R4.
    pose proof (bucket_get_range hist 5 ltac:(lia)) as R5. change (2 ^ (bucket_bits !!! Z.to_nat 5)) with 8192 in R5.
    pose proof (bucket_get_range hist 6 ltac:(lia)) as R6. change (2 ^ (bucket_bits !!! Z.to_nat 6)) with 16384 in R6.
    pose proof (bucket_get_range hist 7 ltac:(lia)) as R7. change (2 ^ (bucket_bits !!! Z.to_nat 7)) with 32768 in R7.
    pose proof (bucket_get_range hist 8 ltac:(lia)) as R8. change (2 ^ (bucket_bits !!! Z.to_nat 8)) with 65536 in R8.
    pose proof (bucket_get_range hist 9 ltac:(lia)) as R9. change (2 ^ (bucket_bits !!! Z.to_nat 9)) with 131072 in R9.
    pose proof (bucket_get_range hist 10 ltac:(lia)) as R10. change (2 ^ (bucket_bits !!! Z.to_nat 10)) with 262144 in R10.
    pose proof (bucket_get_range hist 11 ltac:(lia)) as R11. change (2 ^ (bucket_bits !!! Z.to_nat 11)) with 524288 in R11.
    pose proof (bucket_get_range hist 12 ltac:(lia)) as R12. change (2 ^ (bucket_bits !!! Z.to_nat 12)) with 1048576 in R12.
    pose proof (bucket_get_range hist 13 ltac:(lia)) as R13. change (2 ^ (bucket_bits !!! Z.to_nat 13)) with 2097152 in R13.
    pose proof (bucket_get_range hist 14 ltac:(lia)) as R14. change (2 ^ (bucket_bits !!! Z.to_nat 14)) with 4194304 in R14.
    pose proof (bucket_get_range hist 15 ltac:(lia)) as R15. change (2 ^ (bucket_bits !!! Z.to_nat 15)) with 8388608 in R15.
    lia.
  - destruct (hist_adjust_sample_spec hist Hv) as (h' & E & _ & _ & _ & Hb).
    exists h'. split; [exact E|]. rewrite !hist_count_eq.
    rewrite (Hb 0) by lia. rewrite (Hb 1) by lia. rewrite (Hb 2) by lia. rewrite (Hb 3) by lia. rewrite (Hb 4) by lia. rewrite (Hb 5) by lia. rewrite (Hb 6) by lia. rewrite (Hb 7) by lia. rewrite (Hb 8) by lia. rewrite (Hb 9) by lia. rewrite (Hb 10) by lia. rewrite (Hb 11) by lia. rewrite (Hb 12) by lia. rewrite (Hb 13) by lia. rewrite (Hb 14) by lia. rewrite (Hb 15) by lia.
    lia.
  - intros Hfit.
    destruct (hist_adjust_unit_spec hist Hv)
      as (h' & ok & E & _ & _ & _ & H0 & Hi0 & H15 & Hok).
    apply Hok in Hfit as Hok'. subst ok. destruct Hfit as [Hf0 Hfi].
    assert (forall i, 1 <= i <= 14 -> bucket_get h' i = bucket_get hist (i + 1)) as Hi.
    { intros i Hi'. rewrite Hi0 by exact Hi'. apply Z.mod_small.
      pose proof (bucket_get_range hist (i + 1)). pose proof (Hfi i Hi'). lia. }
    rewrite Z.mod_small in H0
      by (pose proof (bucket_get_range hist 0); pose proof (bucket_get_range hist 1); lia).
    pose proof (Hi 1 ltac:(lia)) as S1. change (1 + 1) with 2 in S1.
    pose proof (Hi 2 ltac:(lia)) as S2. change (2 + 1) with 3 in S2.
    pose proof (Hi 3 ltac:(lia)) as S3. change (3 + 1) with 4 in S3.
    pose proof (Hi 4 ltac:(lia)) as S4. change (4 + 1) with 5 in S4.
    pose proof (Hi 5 ltac:(lia)) as S5. change (5 + 1) with 6 in S5.
    pose proof (Hi 6 ltac:(lia)) as S6. change (6 + 1) with 7 in S6.
    pose proof (Hi 7 ltac:(lia)) as S7. change (7 + 1) with 8 in S7.
    pose proof (Hi 8 ltac:(lia)) as S8. change (8 + 1) with 9 in S8.
    pose proof (Hi 9 ltac:(lia)) as S9. change (9 + 1) with 10 in S9.
    pose proof (Hi 10 ltac:(lia)) as S10. change (10 + 1) with 11 in S10.
    pose proof (Hi 11 ltac:(lia)) as S11. change (11 + 1) with 12 in S11.
    pose proof (Hi 12 ltac:(lia)) as S12. change (12 + 1) with 13 in S12.
    pose proof (Hi 13 ltac:(lia)) as S13. change (13 + 1) with 14 in S13.
    pose proof (Hi 14 ltac:(lia)) as S14. change (14 + 1) with 15 in S14.
    exists h'. split; [exact E|]. rewrite !hist_count_eq.
    rewrite H0, S1, S2, S3, S4, S5, S6, S7, S8, S9, S10, S11, S12, S13, S14, H15. lia.
Qed.

Lemma hist_count_escalations_witness :
  0 <= hist_count hist_200_200 <= 2 ^ 24 - 272 /\
  (exists hist',
     hist_adjust_sample hist_200_200 = Ok hist' true /\
     hist_count hist_200_200 - 16 <= 2 * hist_count hist' <= hist_count hist_200_200) /\
  (unit_shift_fits hist_200_200 ->
   exists hist',
     hist_adjust_unit hist_200_200 = Ok hist' true /\
     hist_count hist' = hist_count hist_200_200).
Proof.
  apply (hist_count_escalations hist_200_200).
  unfold valid_hist. simpl. split; [lia|]. split; [lia|]. split; [reflexivity|].
    repeat constructor; lia.
Defined.

(** ** Reporting *)



(** X21: a value that makes the range grow lands in the last bucket.  When
    a finite value up to [2^30] is above [hist_maxvalue], [hist_adjust_range]
    raises [unit] just enough, and [bucket_index] of the value in the
    histogram it returns is 15. *)
Theorem hist_adjust_range_last_bucket (fuel : nat) (hist : tinyhist_t) (q : Q) :
  valid_hist hist ->
  (inject_Z (hist_maxvalue hist) < q)%Q -> (q <= inject_Z (2 ^ 30))%Q ->
  (19 <= fuel)%nat ->
  exists hist',
    hist_adjust_range fuel hist (Finite q) = Ok hist' true /\
    unit hist < unit hist' /\
    bucket_index fuel hist' (Finite q) = Ok 15 true.
Proof.
  intros Hv Hlow Hhigh Hfuel. pose proof Hv as (_ & Hu & _).
  destruct (hist_adjust_range_full 15 fuel hist (Finite q) Hv)
    as (h' & n & E & Hv' & Hc & Hmono & Hmin & _);
    [by apply int64_lt_float8_Finite_false|lia|lia|].
  pose proof Hv' as (_ & Hu' & _).
  apply int64_lt_float8_Finite_false in Hc.
  assert (unit hist < unit h') as Hgrow.
  { destruct (Z.eq_dec (unit h') (unit hist)) as [He|]; [|lia]. exfalso.
    apply (Qlt_not_le _ _ Hlow).
    rewrite hist_maxvalue_eq in Hc |- * by lia. rewrite <- He. exact Hc. }
  specialize (Hmin Hgrow). apply int64_lt_float8_Finite in Hmin.
  exists h'. split; [exact E|]. split; [exact Hgrow|].
  assert (hist_maxvalue h' = 2 ^ 15 * 2 ^ unit h') as Hmv.
  { rewrite hist_maxvalue_eq, Z.pow_add_r by lia. lia. }
  destruct (bucket_index_loop_spec (2 ^ unit h') q) with (n := 15%nat) (fuel := fuel) (idx := 0)
    as (i & Hrun & Hi & Hle & _); [by rewrite <- Hmv|lia|lia|lia|intros j Hj; lia|].
  assert (i = 15) as ->.
  { destruct (Z.eq_dec i 15) as [|Hne]; [assumption|]. exfalso.
    apply (Qlt_not_le _ _ Hmin). eapply Qle_trans; [exact Hle|].
    rewrite <- Zle_Qle. rewrite Z.pow_add_r by lia. rewrite (Z.mul_comm (2 ^ unit h')).
    apply Z.mul_le_mono_nonneg_r; [apply Z.pow_nonneg; lia|].
    apply Z.pow_le_mono_r; lia. }
  unfold bucket_index, HISTOGRAM_BUCKETS, Assert. rewrite Z.shiftl_1_l.
  rewrite bind_Ok, Hrun, !bind_Ok. cbn [mret result_ret]. f_equal.
  simpl int64_ge_float8. rewrite (proj2 (Qle_bool_iff _ _) Hc). reflexivity.
Qed.

Lemma hist_adjust_range_last_bucket_witness :
  exists hist',
    hist_adjust_range 19 hist_200_200 (Finite (inject_Z 40000)) = Ok hist' true /\
    unit hist_200_200 < unit hist' /\
    bucket_index 19 hist' (Finite (inject_Z 40000)) = Ok 15 true.
Proof.
  apply (hist_adjust_range_last_bucket 19 hist_200_200 (inject_Z 40000)).
  - unfold valid_hist. simpl. split; [lia|]. split; [lia|]. split; [reflexivity|].
    repeat constructor; lia.
  - vm_compute. reflexivity.
  - vm_compute. discriminate.
  - lia.
Defined.

(** ** Reading back what [tinyhist_out] prints *)

Section PrintScan.

Lemma list_ascii_of_string_app (s1 s2 : string) :
  list_ascii_of_string (s1 ++ s2) = list_ascii_of_string s1 ++ list_ascii_of_string s2.
Proof. induction s1 as [|c s1 IH]; [reflexivity|]. cbn. by rewrite IH. Qed.

(** The digits of [d] are read back as the number they denote. *)
Lemma scan_digits_uint (d : Decimal.uint) (rest : list ascii) :
  stops rest ->
  forall acc,
    scan_digits (list_ascii_of_string (NilEmpty.string_of_uint d) ++ rest) acc
    = (uint_acc d acc, rest).
Proof.
  intros Hrest. induction d; intros acc;
    try (cbn [NilEmpty.string_of_uint list_ascii_of_string app scan_digits uint_acc];
         change (isdigit _) with true; cbv iota; rewrite IHd; reflexivity).
  cbn [NilEmpty.string_of_uint list_ascii_of_string app uint_acc].
  destruct rest as [|c rest]; [reflexivity|].
  cbn [scan_digits]. unfold stops in Hrest. rewrite Hrest. reflexivity.
Qed.

Lemma uint_acc_revapp (d d' : Decimal.uint) :
  Z.of_N (DecimalPos.Unsigned.of_lu (Decimal.revapp d d')) =
  uint_acc d (Z.of_N (DecimalPos.Unsigned.of_lu d')).
Proof.
  revert d'. induction d; intros d';
    cbn [Decimal.revapp uint_acc]; [reflexivity|..];
    rewrite IHd; f_equal; cbn [DecimalPos.Unsigned.of_lu]; lia.
Qed.

Lemma uint_acc_to_uint (p : positive) : uint_acc (Pos.to_uint p) 0 = Z.pos p.
Proof.
  change 0 with (Z.of_N (DecimalPos.Unsigned.of_lu Decimal.Nil)).
  rewrite <- uint_acc_revapp.
  change (Decimal.revapp (Pos.to_uint p) Decimal.Nil) with (Decimal.rev (Pos.to_uint p)).
  rewrite <- DecimalPos.Unsigned.of_uint_alt, DecimalPos.Unsigned.of_to. reflexivity.
Qed.

Lemma digit_not_space (c : ascii) :
  isdigit c = true ->
  isspace c = false /\ Ascii.eqb c "-" = false /\ Ascii.eqb c "+" = false.
Proof.
  unfold isdigit, isspace. intros Hd.
  apply andb_true_iff in Hd as [H1 H2]. apply Z.leb_le in H1. apply Z.leb_le in H2.
  split; [|split].
  - apply orb_false_iff. split; [apply Z.eqb_neq; lia|].
    apply andb_false_iff. right. apply Z.leb_gt. lia.
  - apply Ascii.eqb_neq. intros ->. vm_compute in H1. apply H1. reflexivity.
  - apply Ascii.eqb_neq. intros ->. vm_compute in H1. apply H1. reflexivity.
Qed.

(** The first character that is printed for a number is a digit. *)
Lemma string_of_uint_head (d : Decimal.uint) :
  d <> Decimal.Nil ->
  exists c l, list_ascii_of_string (NilEmpty.string_of_uint d) = c :: l /\ isdigit c = true.
Proof.
  intros Hd. destruct d; [done|..];
    cbn [NilEmpty.string_of_uint list_ascii_of_string]; eexists _, _; split; reflexivity.
Qed.

(** A printed nonnegative number: a first digit, and the number read back. *)
Lemma printed_number (a : Z) :
  0 <= a ->
  exists c l,
    list_ascii_of_string (NilZero.string_of_int (Z.to_int a)) = c :: l /\
    isdigit c = true /\
    forall rest, stops rest -> scan_digits (c :: l ++ rest) 0 = (a, rest).
Proof.
  intros Ha. destruct a as [|p|p]; [| |lia].
  - exists "0"%char, []. split; [reflexivity|]. split; [reflexivity|].
    intros rest Hrest. exact (scan_digits_uint (Decimal.D0 Decimal.Nil) rest Hrest 0).
  - pose proof (DecimalPos.Unsigned.to_uint_nonnil p) as Hnn.
    destruct (string_of_uint_head (Pos.to_uint p) Hnn) as (c & l & E & Hc).
    assert (NilZero.string_of_int (Z.to_int (Z.pos p))
            = NilEmpty.string_of_uint (Pos.to_uint p)) as Es.
    { cbn [Z.to_int NilZero.string_of_int]. unfold NilZero.string_of_uint.
      destruct (Pos.to_uint p); [done|..]; reflexivity. }
    exists c, l. rewrite Es. split; [exact E|]. split; [exact Hc|].
    intros rest Hrest. change (c :: l ++ rest) with ((c :: l) ++ rest).
    rewrite <- E, scan_digits_uint by exact Hrest. by rewrite uint_acc_to_uint.
Qed.

Lemma scan_integer_printed (a : Z) (rest : list ascii) :
  0 <= a -> stops rest ->
  scan_integer (list_ascii_of_string (NilZero.string_of_int (Z.to_int a)) ++ rest)
  = inr (a, rest).
Proof.
  intros Ha Hrest. destruct (printed_number a Ha) as (c & l & E & Hc & Hscan).
  destruct (digit_not_space c Hc) as (Hsp & Hm & Hp).
  rewrite E. unfold scan_integer. cbn [app skip_space]. rewrite Hsp, Hm, Hp, Hc.
  rewrite (Hscan rest Hrest). reflexivity.
Qed.

(** What is printed for a conversion at the head of the format does not
    start with white space. *)
Lemma format_conversion_head (d : directive) (ds : list directive) (args : list Z) :
  is_conversion d = true -> args_fit (d :: ds) args ->
  exists c l,
    list_ascii_of_string (format_directives (d :: ds) args) = c :: l /\ isspace c = false.
Proof.
  intros Hconv Hfit. destruct d; try discriminate; destruct args as [|a args]; try done;
    destruct Hfit as [Ha _]; cbn [format_directives]; rewrite list_ascii_of_string_app.
  - assert (uint8 a = a) as -> by (apply Z.mod_small; lia).
    destruct (printed_number a) as (c & l & E & Hc & _); [lia|].
    rewrite E. exists c, (l ++ list_ascii_of_string (format_directives ds args)).
    split; [reflexivity|]. by apply digit_not_space.
  - destruct (printed_number a) as (c & l & E & Hc & _); [lia|].
    rewrite E. exists c, (l ++ list_ascii_of_string (format_directives ds args)).
    split; [reflexivity|]. by apply digit_not_space.
Qed.

(** What is printed after a conversion does not go on with a digit. *)
Lemma format_after_conversion (ds : list directive) (args : list Z) :
  match ds with
  | [] => true
  | D_char c :: _ => negb (isdigit c)
  | _ => false
  end = true ->
  stops (list_ascii_of_string (format_directives ds args)).
Proof.
  destruct ds as [|[c|c| |] ds]; try discriminate; intros H.
  - exact I.
  - cbn [format_directives list_ascii_of_string stops]. by apply negb_true_iff.
Qed.

(** [sscanf] reads back, item by item, what [appendStringInfo] printed. *)
Lemma scan_format (ds : list directive) :
  printable ds = true ->
  forall args acc, args_fit ds args ->
    scan ds (list_ascii_of_string (format_directives ds args)) acc = (acc ++ args, false).
Proof.
  induction ds as [|d ds IH]; intros Hp args acc Hfit.
  - cbn in Hfit. subst args. cbn. by rewrite app_nil_r.
  - destruct d as [c|c| |]; cbn [printable] in Hp.
    + cbn [format_directives list_ascii_of_string scan]. rewrite Ascii.eqb_refl.
      apply IH; [exact Hp|exact Hfit].
    + apply andb_true_iff in Hp as [Hp Hp2]. apply andb_true_iff in Hp as [Hsp Hnext].
      cbn [format_directives list_ascii_of_string scan skip_space]. rewrite Hsp.
      destruct ds as [|d' ds']; [discriminate|].
      destruct (format_conversion_head d' ds' args Hnext Hfit) as (c0 & l & E & Hc0).
      rewrite E. cbn [skip_space]. rewrite Hc0, <- E.
      apply IH; [exact Hp2|exact Hfit].
    + apply andb_true_iff in Hp as [Hnext Hp2].
      destruct args as [|a args]; [done|]. destruct Hfit as [Ha Hfit].
      cbn [format_directives scan]. rewrite list_ascii_of_string_app.
      assert (uint8 a = a) as -> by (apply Z.mod_small; lia).
      rewrite scan_integer_printed by (try apply format_after_conversion; (lia || exact Hnext)).
      assert (uint8 a = a) as -> by (apply Z.mod_small; lia).
      rewrite IH by assumption. by rewrite <- app_assoc.
    + apply andb_true_iff in Hp as [Hnext Hp2].
      destruct args as [|a args]; [done|]. destruct Hfit as [Ha Hfit].
      cbn [format_directives scan]. rewrite list_ascii_of_string_app.
      rewrite scan_integer_printed by (try apply format_after_conversion; (lia || exact Hnext)).
      assert (int32 a = a) as ->.
      { unfold int32. rewrite Z.mod_small by lia. lia. }
      rewrite IH by assumption. by rewrite <- app_assoc.
Qed.

End PrintScan.

(** X22: [tinyhist_out] prints a text from which [sscanf], with the format
    of [tinyhist_in], reads all 18 fields back: it returns 18 and assigns
    [sample], [unit] and the sixteen decoded counters.  (So it is the test
    [r != 32] alone that makes [tinyhist_in] reject the text.) *)
Theorem tinyhist_out_scans (hist : tinyhist_t) :
  valid_hist hist ->
  sscanf (tinyhist_out hist) tinyhist_format =
    (18, sample hist :: unit hist :: (bucket_get hist <$> for_range 0 16)) /\
  tinyhist_in (tinyhist_out hist) = Raise "failed to parse tinyhist value".
Proof.
  intros (Hs & Hu & _).
  assert (sscanf (tinyhist_out hist) tinyhist_format =
          (18, sample hist :: unit hist :: (bucket_get hist <$> for_range 0 16))) as E.
  { unfold sscanf, tinyhist_out, appendStringInfo, HISTOGRAM_BUCKETS.
    rewrite scan_format.
    - reflexivity.
    - vm_compute. reflexivity.
    - change (parse_format (list_ascii_of_string tinyhist_format))
        with [D_char "{"; D_hhu; D_char ","; D_space " "; D_hhu;
              D_char ","; D_space " "; D_d; D_char ","; D_space " "; D_d;
              D_char ","; D_space " "; D_d; D_char ","; D_space " "; D_d;
              D_char ","; D_space " "; D_d; D_char ","; D_space " "; D_d;
              D_char ","; D_space " "; D_d; D_char ","; D_space " "; D_d;
              D_char ","; D_space " "; D_d; D_char ","; D_space " "; D_d;
              D_char ","; D_space " "; D_d; D_char ","; D_space " "; D_d;
              D_char ","; D_space " "; D_d; D_char ","; D_space " "; D_d;
              D_char ","; D_space " "; D_d; D_char ","; D_space " "; D_d;
              D_char "}"].
      change (for_range 0 16) with [0; 1; 2; 3; 4; 5; 6; 7; 8; 9; 10; 11; 12; 13; 14; 15].
      cbn [args_fit fmap list_fmap].
      assert (forall i, 0 <= i < 16 -> 0 <= bucket_get hist i < 2 ^ 31) as Hb.
      { intros i Hi. pose proof (bucket_get_lt_2_23 hist i Hi).
        pose proof (bucket_get_range hist i Hi). lia. }
      repeat (split; [first [lia | apply Hb; lia]|]). reflexivity. }
  split; [exact E|].
  unfold tinyhist_in. rewrite E. reflexivity.
Qed.

Lemma tinyhist_out_scans_witness :
  sscanf (tinyhist_out hist_200_200) tinyhist_format =
    (18, sample hist_200_200 :: unit hist_200_200 ::
         (bucket_get hist_200_200 <$> for_range 0 16)) /\
  tinyhist_in (tinyhist_out hist_200_200) = Raise "failed to parse tinyhist value".
Proof.
  apply (tinyhist_out_scans hist_200_200).
  unfold valid_hist. simpl. split; [lia|]. split; [lia|]. split; [reflexivity|].
  repeat constructor; lia.
Defined.
